(** * A verified model of the static site generator [scripts/build.py]

    The build script reads the latest dated snapshot under [Data/], turns
    every country CSV into a table page plus one detail page per stock, and
    finishes with [robots.txt] and [sitemap.xml].  This development embeds
    the script's functions in Rocq, one definition per Python function, and
    proves the properties the specification states about them.

    Conventions of the embedding:
    - a Python [str] is a Rocq [string]; characters are bytes (the UTF-8
      encoding of the text).  Case mapping and white space are those of
      the ASCII range; bytes from 128 on, which only occur inside
      non-ASCII characters, are left as they are.  Where the script matches
      digits the text is read character by character ([Str.code_points]),
      and the decimal digits beyond ASCII are those of the Unicode database
      of the Python that runs the script;
    - a Python [float] is an IEEE 754 binary64 number, with the rounding
      of the library's specification of floating-point arithmetic;
    - a [datetime.date] is a year, a month and a day, with the arithmetic of
      the [datetime] module on ordinals;
    - an exception is a value of type [exn]; a function that can raise
      returns a [result];
    - the file system is a finite map from paths to entries; a directory is
      listed in the order of the names of its entries;
    - what the script takes from outside (the configuration, the clock,
      [pandas], the formatting of floats, the Unicode database) is a
      parameter, the class [Env]. *)

From Stdlib Require Import ZArith Ascii String List Bool Lia.
From Stdlib Require Import DecimalString Floats.SpecFloat.
From stdpp Require Import gmap strings list sorting.

Local Open Scope Z_scope.

(** ** Characters and strings *)

Module Str.

Definition code (c : ascii) : N := N_of_ascii c.

(** The characters [str.isspace] accepts in the ASCII range. *)
Definition is_space (c : ascii) : bool :=
  let n := code c in
  ((9 <=? n) && (n <=? 13) || (28 <=? n) && (n <=? 32))%N.

(** [str.lower] on one character. *)
Definition lower_char (c : ascii) : ascii :=
  let n := code c in
  if ((65 <=? n) && (n <=? 90))%N then ascii_of_N (n + 32) else c.

(** The complement of the character class of [[^a-z0-9]]. *)
Definition is_az09 (c : ascii) : bool :=
  let n := code c in
  ((97 <=? n) && (n <=? 122) || (48 <=? n) && (n <=? 57))%N.

Definition hyphen : ascii := ascii_of_N 45.

Definition is_hyphen (c : ascii) : bool := (code c =? 45)%N.

(** [s.lstrip(chars)], [s.rstrip(chars)] and [s.strip(chars)], with the
    set of characters given as a predicate. *)
Fixpoint lstrip (P : ascii -> bool) (s : list ascii) : list ascii :=
  match s with
  | [] => []
  | c :: r => if P c then lstrip P r else s
  end.

Definition rstrip (P : ascii -> bool) (s : list ascii) : list ascii :=
  rev (lstrip P (rev s)).

Definition strip (P : ascii -> bool) (s : list ascii) : list ascii :=
  rstrip P (lstrip P s).

Definition lower (s : list ascii) : list ascii := map lower_char s.

(** [re.sub(r"[^a-z0-9]+", "-", s)].  The scan copies the characters the
    pattern cannot start at ([re_sub]); where it can, one hyphen is
    emitted and the greedy [+] consumes the rest of the run ([re_run]). *)
Fixpoint re_sub (s : list ascii) : list ascii :=
  match s with
  | [] => []
  | c :: r => if is_az09 c then c :: re_sub r else hyphen :: re_run r
  end
with re_run (s : list ascii) : list ascii :=
  match s with
  | [] => []
  | c :: r => if is_az09 c then c :: re_sub r else re_run r
  end.

Definition of_string : string -> list ascii := list_ascii_of_string.
Definition to_string : list ascii -> string := string_of_list_ascii.

(** A continuation byte of UTF-8, and one in a given range. *)
Definition between (lo hi b : N) : bool := ((lo <=? b) && (b <=? hi))%N.

Definition is_cont (b : N) : bool := between 128 191 b.

(** The second byte a leading byte of a three-byte or four-byte sequence
    admits: no overlong form, no surrogate, nothing beyond U+10FFFF. *)
Definition second_ok (b0 b1 : N) : bool :=
  if (b0 =? 224)%N then between 160 191 b1
  else if (b0 =? 237)%N then between 128 159 b1
  else if (b0 =? 240)%N then between 144 191 b1
  else if (b0 =? 244)%N then between 128 143 b1
  else is_cont b1.

(** The characters of a [str], as code points: the text is decoded from
    UTF-8; a byte that is not part of a well-formed sequence stands for
    itself as the surrogate U+DC00 + byte, the way Python reads the name of
    a file. *)
Fixpoint code_points (s : list ascii) : list N :=
  match s with
  | [] => []
  | a0 :: r0 =>
      let b0 := code a0 in
      let escaped := (56320 + b0)%N :: code_points r0 in
      if (b0 <? 128)%N then b0 :: code_points r0
      else
        match r0 with
        | [] => escaped
        | a1 :: r1 =>
            let b1 := code a1 in
            if between 194 223 b0 then
              if is_cont b1
              then ((b0 - 192) * 64 + (b1 - 128))%N :: code_points r1
              else escaped
            else
              match r1 with
              | [] => escaped
              | a2 :: r2 =>
                  let b2 := code a2 in
                  if between 224 239 b0 then
                    if second_ok b0 b1 && is_cont b2
                    then ((b0 - 224) * 4096 + (b1 - 128) * 64 + (b2 - 128))%N
                         :: code_points r2
                    else escaped
                  else
                    match r2 with
                    | [] => escaped
                    | a3 :: r3 =>
                        let b3 := code a3 in
                        if between 240 244 b0 && second_ok b0 b1 &&
                           is_cont b2 && is_cont b3
                        then ((b0 - 240) * 262144 + (b1 - 128) * 4096 +
                              (b2 - 128) * 64 + (b3 - 128))%N :: code_points r3
                        else escaped
                    end
              end
        end
  end.

End Str.

(** ** [slug] *)

(** [x or default] on strings: the empty string is falsy. *)
Definition or_else (x default : list ascii) : list ascii :=
  match x with [] => default | _ => x end.

(** The body of [slug] on the characters of its argument. *)
Definition slug_chars (s : list ascii) : list ascii :=
  let s := Str.lower (Str.strip Str.is_space (or_else s [])) in
  let s := Str.re_sub s in
  or_else (Str.strip Str.is_hyphen s) (Str.of_string "stock").

Definition slug (s : string) : string :=
  Str.to_string (slug_chars (Str.of_string s)).

(** The slug generator as the specification words it: lower-case, collapse
    every run of non-alphanumeric characters (those outside [a-z0-9]) to one
    hyphen, strip leading and trailing hyphens, fall back to "stock". *)
Module SlugSpec.

(** [in_run] tells that the previous character already belonged to the
    run being collapsed. *)
Fixpoint collapse_runs (in_run : bool) (s : list ascii) : list ascii :=
  match s with
  | [] => []
  | c :: r =>
      if Str.is_az09 c then c :: collapse_runs false r
      else if in_run then collapse_runs true r
      else Str.hyphen :: collapse_runs true r
  end.

Definition drop_leading_hyphens : list ascii -> list ascii :=
  Str.lstrip Str.is_hyphen.

(** A trailing hyphen is dropped when nothing but hyphens follows it. *)
Fixpoint drop_trailing_hyphens (s : list ascii) : list ascii :=
  match s with
  | [] => []
  | c :: r =>
      match drop_trailing_hyphens r with
      | [] => if Str.is_hyphen c then [] else [c]
      | r' => c :: r'
      end
  end.

Definition slug_spec (s : string) : string :=
  let t := collapse_runs false (map Str.lower_char (Str.of_string s)) in
  let u := drop_trailing_hyphens (drop_leading_hyphens t) in
  match u with
  | [] => "stock"
  | _ => Str.to_string u
  end.

End SlugSpec.

(** Shape of the output of the substitution: only characters of [a-z0-9]
    and single hyphens; with [after_hyphen] no hyphen comes first. *)
Fixpoint hyphenated (after_hyphen : bool) (s : list ascii) : bool :=
  match s with
  | [] => true
  | c :: r =>
      if Str.is_az09 c then hyphenated false r
      else Str.is_hyphen c && negb after_hyphen && hyphenated true r
  end.

(** ** Exceptions *)

Inductive exn : Type :=
| SystemExit (msg : string)
| ValueError
| OverflowError
| KeyError
| TypeError
| ZeroDivisionError
| OSError.

Inductive result (A : Type) : Type :=
| Ok (a : A)
| Raise (e : exn).

Arguments Ok {A} a.
Arguments Raise {A} e.

(** Sequencing: an exception raised by the first computation propagates. *)
#[global] Instance result_bind : MBind result :=
  fun A B (k : A -> result B) (r : result A) =>
    match r with
    | Ok a => k a
    | Raise e => Raise e
    end.

#[global] Instance result_ret : MRet result := fun A a => Ok a.

(** ** Calendar dates: the [date] class of the [datetime] module

    A [datetime.date] holds a year, a month and a day of the proleptic
    Gregorian calendar; [weekday], [toordinal] and the addition of a
    [timedelta] go through the ordinal of the date, day 1 being 0001-01-01.
    The definitions follow the module's own. *)

Module Datetime.

Record date : Type := mkdate { year : Z; month : Z; day : Z }.

Definition MINYEAR : Z := 1.
Definition MAXYEAR : Z := 9999.
Definition MAXORDINAL : Z := 3652059.

Definition DAYS_IN_MONTH (m : Z) : Z :=
  nth (Z.to_nat m) [-1; 31; 28; 31; 30; 31; 30; 31; 31; 30; 31; 30; 31] 0.

Definition DAYS_BEFORE_MONTH (m : Z) : Z :=
  nth (Z.to_nat m) [-1; 0; 31; 59; 90; 120; 151; 181; 212; 243; 273; 304; 334] 0.

Definition is_leap (y : Z) : bool :=
  (y mod 4 =? 0) && (negb (y mod 100 =? 0) || (y mod 400 =? 0)).

Definition days_before_year (y : Z) : Z :=
  let y := y - 1 in y * 365 + y / 4 - y / 100 + y / 400.

Definition days_in_month (y m : Z) : Z :=
  if (m =? 2) && is_leap y then 29 else DAYS_IN_MONTH m.

Definition days_before_month (y m : Z) : Z :=
  DAYS_BEFORE_MONTH m + (if (2 <? m) && is_leap y then 1 else 0).

Definition ymd2ord (y m d : Z) : Z :=
  days_before_year y + days_before_month y m + d.

Definition DI400Y : Z := 146097.
Definition DI100Y : Z := 36524.
Definition DI4Y : Z := 1461.

(** Month and day of the day number [n] (from 0) of a year. *)
Definition month_day (leapyear : bool) (n : Z) : Z * Z :=
  let month := Z.shiftr (n + 50) 5 in
  let preceding :=
    DAYS_BEFORE_MONTH month + (if (2 <? month) && leapyear then 1 else 0) in
  if n <? preceding then
    let month := month - 1 in
    let preceding :=
      preceding - (DAYS_IN_MONTH month + (if (month =? 2) && leapyear then 1 else 0)) in
    (month, n - preceding + 1)
  else (month, n - preceding + 1).

Definition ord2ymd (n : Z) : date :=
  let n := n - 1 in
  let n400 := n / DI400Y in
  let n := n mod DI400Y in
  let n100 := n / DI100Y in
  let n := n mod DI100Y in
  let n4 := n / DI4Y in
  let n := n mod DI4Y in
  let n1 := n / 365 in
  let n := n mod 365 in
  let y := n400 * 400 + 1 + n100 * 100 + n4 * 4 + n1 in
  if (n1 =? 4) || (n100 =? 4) then mkdate (y - 1) 12 31
  else
    let leapyear := (n1 =? 3) && (negb (n4 =? 24) || (n100 =? 3)) in
    let '(m, d) := month_day leapyear n in
    mkdate y m d.

(** The check the constructor [date(year, month, day)] makes. *)
Definition valid (d : date) : bool :=
  (MINYEAR <=? year d) && (year d <=? MAXYEAR) &&
  (1 <=? month d) && (month d <=? 12) &&
  (1 <=? day d) && (day d <=? days_in_month (year d) (month d)).

Definition new (y m d : Z) : result date :=
  if valid (mkdate y m d) then Ok (mkdate y m d) else Raise ValueError.

Definition toordinal (d : date) : Z := ymd2ord (year d) (month d) (day d).

Definition fromordinal (n : Z) : date := ord2ymd n.

(** [d.weekday()]: Monday is 0 and Sunday is 6. *)
Definition weekday (d : date) : Z := (toordinal d + 6) mod 7.

(** [d + timedelta(days=k)]. *)
Definition add_days (d : date) (k : Z) : result date :=
  let o := toordinal d + k in
  if (0 <? o) && (o <=? MAXORDINAL) then Ok (fromordinal o)
  else Raise OverflowError.

(** Dates compare as the tuples (year, month, day). *)
Definition ltb (a b : date) : bool :=
  (year a <? year b) ||
  (year a =? year b) &&
    ((month a <? month b) || (month a =? month b) && (day a <? day b)).

Definition max : date := mkdate 9999 12 31.

End Datetime.

(** ** [next_business_day] *)

Definition next_business_day (d : Datetime.date) : result Datetime.date :=
  let wd := Datetime.weekday d in
  if wd =? 4 then Datetime.add_days d 3
  else if wd =? 5 then Datetime.add_days d 2
  else Datetime.add_days d 1.

(** What [month_day] has to achieve on day [n] of a year: a month of the
    year, a day of that month, and [n] days before it. *)
Definition month_day_ok (leapyear : bool) (n : Z) : bool :=
  let '(m, d) := Datetime.month_day leapyear n in
  (1 <=? m) && (m <=? 12) && (1 <=? d) &&
  (d <=? (if (m =? 2) && leapyear then 29 else Datetime.DAYS_IN_MONTH m)) &&
  (Datetime.DAYS_BEFORE_MONTH m + (if (2 <? m) && leapyear then 1 else 0) + d
   =? n + 1).

(** ** Floating-point numbers

    A Python [float] is an IEEE 754 binary64 number.  The type, the
    operations and their rounding are those of the library's specification
    of binary floating-point arithmetic, instantiated at 53 bits of
    precision and exponents below 1024. *)

Module Float.

Definition float : Type := spec_float.

Definition prec : Z := 53.
Definition emax : Z := 1024.

Definition nan : float := S754_nan.

(** [float(z)] for an integer.  (An integer from [2 ** 1024] on raises
    instead; the cells and literals it is applied to are far below.) *)
Definition of_Z (z : Z) : float := binary_normalize prec emax z 0 false.

(** [a < b], [a <= b] and [a > b]; every comparison with a NaN is false. *)
Definition ltb (a b : float) : bool := SFltb a b.
Definition leb (a b : float) : bool := SFleb a b.
Definition gtb (a b : float) : bool := ltb b a.

Definition add (a b : float) : float := SFadd prec emax a b.
Definition sub (a b : float) : float := SFsub prec emax a b.
Definition mul (a b : float) : float := SFmul prec emax a b.

(** [abs(a)]. *)
Definition abs (a : float) : float := SFabs a.

Definition is_zero (a : float) : bool :=
  match a with
  | S754_zero _ => true
  | _ => false
  end.

(** [a / b]: a zero divisor, of either sign, raises. *)
Definition div (a b : float) : result float :=
  if is_zero b then Raise ZeroDivisionError else Ok (SFdiv prec emax a b).

(** The builtins [max(a, b)] and [min(a, b)]: the second argument wins
    only when it compares strictly greater (smaller). *)
Definition max (a b : float) : float := if gtb b a then b else a.
Definition min (a b : float) : float := if ltb b a then b else a.

(** [int(a)]: truncation towards zero. *)
Definition trunc (a : float) : result Z :=
  match a with
  | S754_nan => Raise ValueError
  | S754_infinity _ => Raise OverflowError
  | S754_zero _ => Ok 0
  | S754_finite s m e =>
      let v := if 0 <=? e then Zpos m * 2 ^ e else Zpos m / 2 ^ (- e) in
      Ok (if s then - v else v)
  end.

(** The literals [0.5], [0.9], [0.6] and [0.2]: the binary64 numbers
    nearest to them. *)
Definition c0_5 : float := S754_finite false 4503599627370496 (-53).
Definition c0_9 : float := S754_finite false 8106479329266893 (-53).
Definition c0_6 : float := S754_finite false 5404319552844595 (-53).
Definition c0_2 : float := S754_finite false 7205759403792794 (-55).

(** The number a decimal literal [n/d] denotes, for the examples. *)
Definition of_ratio (n d : Z) : float := SFdiv prec emax (of_Z n) (of_Z d).

End Float.

(** ** [classify] *)

Definition classify (o h l c : Float.float)
  : result (string * Float.float * string) :=
  let rng := Float.sub (Float.max h l) (Float.min h l) in
  let body := Float.abs (Float.sub c o) in
  if Float.leb rng (Float.of_Z 0) then Ok ("Sideways", Float.c0_5, "No range")
  else
    ratio ← Float.div body rng;
    if Float.ltb ratio Float.c0_2 then
      Ok ("Sideways", Float.c0_5, "Small body vs range — indecision")
    else if Float.gtb c o then
      half ← Float.div ratio (Float.of_Z 2);
      Ok ("Bullish", Float.min Float.c0_9 (Float.add Float.c0_6 half),
          "Close above open")
    else if Float.ltb c o then
      half ← Float.div ratio (Float.of_Z 2);
      Ok ("Bearish", Float.min Float.c0_9 (Float.add Float.c0_6 half),
          "Close below open")
    else Ok ("Sideways", Float.c0_5, "Flat").

(** ** String helpers *)

Definition str_strip (s : string) : string :=
  Str.to_string (Str.strip Str.is_space (Str.of_string s)).

Definition str_lower (s : string) : string :=
  Str.to_string (Str.lower (Str.of_string s)).

(** [s.replace(a, b)] for one-character [a] and [b]. *)
Definition str_replace (a b : ascii) (s : string) : string :=
  Str.to_string (map (fun c => if Ascii.eqb c a then b else c) (Str.of_string s)).

(** [x or y] on strings. *)
Definition str_or (x y : string) : string :=
  match x with EmptyString => y | _ => x end.

(** [sep.join(parts)]. *)
Fixpoint str_join (sep : string) (parts : list string) : string :=
  match parts with
  | [] => ""
  | [p] => p
  | p :: r => p +:+ sep +:+ str_join sep r
  end.

Definition str_concat (parts : list string) : string :=
  fold_right String.append "" parts.

(** [s[:-n]]. *)
Definition str_drop_end (n : nat) (s : string) : string :=
  String.substring 0 (String.length s - n) s.

(** [str(z)] for an integer. *)
Definition str_of_Z (z : Z) : string :=
  NilZero.string_of_int (Z.to_int z).

(** [f"{z:0{width}d}"] for a non-negative integer. *)
Definition zero_pad (width : nat) (z : Z) : string :=
  let s := str_of_Z z in
  Str.to_string (repeat "0"%char (width - String.length s)) +:+ s.

Definition LF : string := String (ascii_of_N 10) "".

Definition is_LF (c : ascii) : bool := (Str.code c =? 10)%N.

(** The lines of a text: the pieces that end at a newline, and what
    follows the last newline when that is not empty. *)
Fixpoint lines_from (cur : list ascii) (s : list ascii) : list string :=
  match s with
  | [] => match cur with [] => [] | _ => [Str.to_string (rev cur)] end
  | c :: r =>
      if is_LF c then Str.to_string (rev cur) :: lines_from [] r
      else lines_from (c :: cur) r
  end.

Definition str_lines (s : string) : list string := lines_from [] (Str.of_string s).

Definition LF_free (s : string) : Prop :=
  Forall (fun c => is_LF c = false) (Str.of_string s).
Definition DQ : string := String (ascii_of_N 34) "".

(** ** Cells and frames: what [pandas] hands to the script

    A cell of a frame read from a CSV file is a float (NaN where the cell
    is empty), an integer, a boolean or a string; [None] only occurs in the
    columns [read_csv_safe] adds.  Looking a label up in a row gives the
    cell, or a [Series] of cells when several columns carry the label. *)

Inductive cell : Type :=
| CNone
| CStr (s : string)
| CFloat (x : Float.float)
| CInt (z : Z)
| CBool (b : bool).

Inductive value : Type :=
| Scalar (c : cell)
| Series (cs : list cell).

(** A frame: column labels, a number of rows, and the cell at each row and
    column position. *)
Record frame : Type := mkframe {
  columns : list string;
  nrows : nat;
  cell_at : nat -> nat -> cell
}.

(** The frame with the given rows; cells beyond the end of a row are empty. *)
Definition frame_of_rows (cols : list string) (rows : list (list cell)) : frame :=
  {| columns := cols;
     nrows := length rows;
     cell_at := fun i j => nth j (nth i rows []) (CFloat Float.nan) |}.

(** ** What the script takes from its environment: the configuration file,
    the clock, [pandas], and the formatting and parsing of floats, title
    case and the table of decimal digits that Python provides. *)

Record config : Type := mkconfig {
  cfg_base_url : option string;
  cfg_keywords : option (list string);
  cfg_author_name : option string;
  cfg_author_org : option string;
  cfg_author_contact_email : option string;
  cfg_site_title : option string;
  cfg_site_tagline : option string
}.

Class Env : Type := {
  CFG : config;
  (** [datetime.datetime.utcnow().isoformat(timespec="seconds")] *)
  utcnow_iso : string;
  (** [pd.read_csv] on the text of a file *)
  pd_read_csv : string -> result frame;
  (** [float(s)] for a string; [None] when it raises [ValueError] *)
  float_of_str : string -> option Float.float;
  (** [str(x)] and [f"{x:.2f}"] for a float *)
  str_of_float : Float.float -> string;
  format_2f : Float.float -> string;
  (** [str(v)] for a [Series] *)
  str_of_series : list cell -> string;
  (** [s.title()] *)
  str_title : string -> string;
  (** the decimal value of a character beyond ASCII that the Unicode
      database of the running Python classes as a decimal digit (category
      Nd): what [\d] matches and [int] reads; [None] for another character *)
  unicode_decimal : N -> option Z
}.

(** [d.get(key, default)]. *)
Definition get {A : Type} (x : option A) (default : A) : A :=
  match x with Some a => a | None => default end.

Section Build.
Context {E : Env}.

(** ** Conversions of cells *)

(** [float(v)]. *)
Definition py_float (v : value) : result Float.float :=
  match v with
  | Scalar CNone => Raise TypeError
  | Scalar (CStr s) =>
      match float_of_str s with Some x => Ok x | None => Raise ValueError end
  | Scalar (CFloat x) => Ok x
  | Scalar (CInt z) => Ok (Float.of_Z z)
  | Scalar (CBool b) => Ok (Float.of_Z (if b then 1 else 0))
  | Series _ => Raise TypeError
  end.

(** [str(v)]. *)
Definition py_str (v : value) : string :=
  match v with
  | Scalar CNone => "None"
  | Scalar (CStr s) => s
  | Scalar (CFloat x) => str_of_float x
  | Scalar (CInt z) => str_of_Z z
  | Scalar (CBool b) => if b then "True" else "False"
  | Series cs => str_of_series cs
  end.

(** ** [read_csv_safe] *)

Definition text_fields : list string :=
  ["symbol"; "description"; "exchange"; "sector"; "industry"].

Definition numeric_fields : list string := ["open"; "high"; "low"; "close"].

(** [df.rename(columns={c: c.strip().lower() for c in df.columns})]. *)
Definition rename_columns (df : frame) : frame :=
  {| columns := map (fun c => str_lower (str_strip c)) (columns df);
     nrows := nrows df;
     cell_at := cell_at df |}.

(** [df[c] = v] for a label the frame does not have yet: a new last
    column with the same value in every row. *)
Definition append_column (c : string) (v : cell) (df : frame) : frame :=
  {| columns := columns df ++ [c];
     nrows := nrows df;
     cell_at := fun i j =>
       if (j <? length (columns df))%nat then cell_at df i j else v |}.

Definition default_cell (c : string) : cell :=
  if bool_decide (c ∈ numeric_fields) then CNone else CStr "".

Definition add_default (df : frame) (c : string) : frame :=
  if bool_decide (c ∈ columns df) then df
  else append_column c (default_cell c) df.

(** The body of [read_csv_safe] after [pd.read_csv]. *)
Definition normalize (df : frame) : frame :=
  fold_left add_default (text_fields ++ numeric_fields) (rename_columns df).

(** A row as [iterrows] yields it: the cells with their labels. *)
Definition row : Type := list (string * cell).

Definition iterrows (df : frame) : list row :=
  map (fun i => imap (fun j c => (c, cell_at df i j)) (columns df))
      (seq 0 (nrows df)).

(** [row[label]]. *)
Definition row_get (r : row) (label : string) : result value :=
  match List.filter (fun lc => String.eqb (fst lc) label) r with
  | [] => Raise KeyError
  | [lc] => Ok (Scalar (snd lc))
  | lcs => Ok (Series (map snd lcs))
  end.

End Build.
(** ** The file system

    Paths are lists of names below the root of the repository.  An entry
    is a directory or a regular file with its text. *)

Inductive entry : Type :=
| Dir
| File (text : string).

Abbreviation path := (list string).
Abbreviation fs := (gmap (list string) entry).

Definition DATA_DIR : path := ["Data"].
Definition DIST : path := ["dist"].

(** The last name of a path and the path before it. *)
Fixpoint split_path (p : path) : option (path * string) :=
  match p with
  | [] => None
  | [n] => Some ([], n)
  | x :: r =>
      match split_path r with
      | Some (q, n) => Some (x :: q, n)
      | None => None
      end
  end.

Definition name (p : path) : string :=
  match split_path p with Some (_, n) => n | None => "" end.

Definition parent (p : path) : path :=
  match split_path p with Some (q, _) => q | None => [] end.

(** The root of the repository is a directory. *)
Definition lookup_path (m : fs) (p : path) : option entry :=
  match p with [] => Some Dir | _ => m !! p end.

Definition exists_ (m : fs) (p : path) : bool :=
  match lookup_path m p with Some _ => true | None => false end.

Definition is_dir (m : fs) (p : path) : bool :=
  match lookup_path m p with Some Dir => true | _ => false end.

(** The entries below [p] (not [p] itself). *)
Definition below (p k : path) : Prop := p `prefix_of` k ∧ k ≠ p.

#[global] Instance below_dec (p k : path) : Decision (below p k).
Proof. unfold below. apply _. Defined.

(** The order of two entries of one directory: the order of their names. *)
Definition name_le (a b : path) : Prop := (name a ≤ name b)%string.

#[global] Instance name_le_dec : RelDecision name_le.
Proof. intros a b. unfold name_le. apply _. Defined.

(** [p.iterdir()]: the entries of the directory.  The order in which an
    operating system lists a directory is its own; the model lists the
    entries in the order of their names. *)
Definition iterdir (m : fs) (p : path) : result (list path) :=
  match lookup_path m p with
  | Some Dir =>
      Ok (merge_sort name_le
            (List.filter (fun k => bool_decide (k ≠ [] ∧ parent k = p))
                         (map fst (map_to_list m))))
  | _ => Raise OSError
  end.

(** A file system is a tree: every entry lies in a directory. *)
Definition tree (m : fs) : Prop :=
  forall k, is_Some (m !! k) -> is_dir m (parent k) = true.

(** [p.mkdir(parents=True, exist_ok=True)]: every missing directory on the
    way is created; a regular file on the way is an error. *)
Fixpoint mkdir_from (done todo : path) (m : fs) : result fs :=
  match todo with
  | [] => Ok m
  | n :: rest =>
      let q := done ++ [n] in
      match m !! q with
      | Some Dir => mkdir_from q rest m
      | Some (File _) => Raise OSError
      | None => mkdir_from q rest (<[q := Dir]> m)
      end
  end.

Definition mkdir_p (p : path) (m : fs) : result fs := mkdir_from [] p m.

(** [p.write_text(text)]: the directory of [p] has to exist and [p] must
    not be a directory. *)
Definition write_text (p : path) (text : string) (m : fs) : result fs :=
  match p with
  | [] => Raise OSError
  | _ =>
      if is_dir m (parent p) then
        match m !! p with
        | Some Dir => Raise OSError
        | _ => Ok (<[p := File text]> m)
        end
      else Raise OSError
  end.

Definition read_text (m : fs) (p : path) : result string :=
  match lookup_path m p with
  | Some (File text) => Ok text
  | _ => Raise OSError
  end.

(** [shutil.rmtree(p)]: [p] has to be a directory; it goes with everything
    below it. *)
Definition rmtree (p : path) (m : fs) : result fs :=
  match m !! p with
  | Some Dir => Ok (filter (fun kv => ¬ p `prefix_of` kv.1) m)
  | _ => Raise OSError
  end.

(** [p.rglob(n)]: the entries called [n] below [p]. *)
Definition rglob (m : fs) (p : path) (n : string) : list path :=
  List.filter (fun k => bool_decide (below p k ∧ name k = n))
              (map fst (map_to_list m)).

(** What "reset dist" has to leave: an output root that holds an empty [static]
    directory and nothing else; the rest of the file system as it was. *)
Definition reset_state (m m1 : fs) : Prop :=
  forall k,
    m1 !! k =
    if decide (k = DIST ∨ k = DIST ++ ["static"]) then Some Dir
    else if decide (DIST `prefix_of` k) then None
    else m !! k.

(** Two file systems that hold the same outside the output root. *)
Definition agrees (m x : fs) : Prop :=
  forall k, ¬ DIST `prefix_of` k -> x !! k = m !! k.

(** No directory on the way to [p] is called [index.html]. *)
Definition dirs_ok (p : path) : Prop :=
  forall k, k <> [] -> k `prefix_of` parent p -> name k <> "index.html".

(** [write_html]. *)
Definition write_html (p : path) (html : string) (m : fs) : result fs :=
  m ← mkdir_p (parent p) m;
  write_text p html m.

(** ** Dated folders *)

Section Dated.
Context {E : Env}.

(** The value of a decimal digit, as [\d] matches one and [int] reads it:
    the ten ASCII digits, and beyond ASCII what the Unicode database says. *)
Definition digit (c : N) : option Z :=
  if (c <? 128)%N then
    if Str.between 48 57 c then Some (Z.of_N c - 48) else None
  else unicode_decimal c.

Definition is_digit (c : N) : bool :=
  match digit c with Some _ => true | None => false end.

Definition is_dot (c : N) : bool := (c =? 46)%N.

(** [re.match(r"^\d{2}\.\d{2}\.\d{4}$", s)]: two digits, a dot, two
    digits, a dot and four digits; [$] also matches before a newline that
    ends the string. *)
Definition date_pattern (s : string) : bool :=
  match Str.code_points (Str.of_string s) with
  | d1 :: d2 :: p1 :: m1 :: m2 :: p2 :: y1 :: y2 :: y3 :: y4 :: rest =>
      is_digit d1 && is_digit d2 && is_dot p1 && is_digit m1 && is_digit m2 &&
      is_dot p2 && is_digit y1 && is_digit y2 && is_digit y3 && is_digit y4 &&
      match rest with
      | [] => true
      | [c] => (c =? 10)%N
      | _ => false
      end
  | _ => false
  end.

(** The day of [%d], two characters before a dot: of the alternatives
    [3[0-1]], [[1-2]\d] and [0[1-9]] of the library only [\d] admits a
    digit beyond ASCII ([[1-9]] and [ [1-9]] take one digit, and a dot does
    not follow it here). *)
Definition strptime_day (d1 d2 : N) : option Z :=
  if (d1 =? 51)%N then
    if Str.between 48 49 d2 then Some (30 + (Z.of_N d2 - 48)) else None
  else if Str.between 49 50 d1 then
    match digit d2 with
    | Some v => Some (10 * (Z.of_N d1 - 48) + v)
    | None => None
    end
  else if (d1 =? 48)%N then
    if Str.between 49 57 d2 then Some (Z.of_N d2 - 48) else None
  else None.

(** The month of [%m], two characters before a dot: [1[0-2]] or [0[1-9]]. *)
Definition strptime_month (m1 m2 : N) : option Z :=
  if (m1 =? 49)%N then
    if Str.between 48 50 m2 then Some (10 + (Z.of_N m2 - 48)) else None
  else if (m1 =? 48)%N then
    if Str.between 49 57 m2 then Some (Z.of_N m2 - 48) else None
  else None.

(** [datetime.datetime.strptime(s, "%d.%m.%Y").date()] on a name the
    pattern accepts: the day and the month have to match the expressions of
    the library for [%d] and [%m], the year is four digits ([\d\d\d\d]),
    the three numbers have to make a date and nothing may follow them. *)
Definition strptime (s : string) : result Datetime.date :=
  match Str.code_points (Str.of_string s) with
  | [d1; d2; _; m1; m2; _; y1; y2; y3; y4] =>
      match strptime_day d1 d2, strptime_month m1 m2,
            digit y1, digit y2, digit y3, digit y4 with
      | Some d, Some m, Some y1, Some y2, Some y3, Some y4 =>
          Datetime.new (1000 * y1 + 100 * y2 + 10 * y3 + y4) m d
      | _, _, _, _, _, _ => Raise ValueError
      end
  | _ => Raise ValueError
  end.

(** [d.isoformat()]. *)
Definition isoformat (d : Datetime.date) : string :=
  zero_pad 4 (Datetime.year d) +:+ "-" +:+ zero_pad 2 (Datetime.month d)
  +:+ "-" +:+ zero_pad 2 (Datetime.day d).

(** [l.sort(key=..., reverse=True)], which keeps the order of the elements
    with equal keys: [x] goes before the first element that is not greater. *)
Fixpoint insert_desc {A : Type} (x : Datetime.date * A)
    (l : list (Datetime.date * A)) : list (Datetime.date * A) :=
  match l with
  | [] => [x]
  | y :: r => if Datetime.ltb (fst x) (fst y) then y :: insert_desc x r
              else x :: l
  end.

Definition sort_desc {A : Type} (l : list (Datetime.date * A))
  : list (Datetime.date * A) :=
  fold_right insert_desc [] l.

(** No element of the list is greater than the first one. *)
Definition head_max {A : Type} (s : list (Datetime.date * A)) : Prop :=
  match s with
  | [] => True
  | h :: _ => forall y, y ∈ s -> Datetime.ltb (fst h) (fst y) = false
  end.

(** The entries of a directory, as [iterdir] lists them. *)
Definition children (m : fs) (p : path) : list path :=
  match iterdir m p with Ok ps => ps | Raise _ => [] end.

(** The directories of [Data/] whose names the pattern accepts. *)
Definition dated_subdirs (m : fs) : list path :=
  List.filter (fun p => is_dir m p && date_pattern (name p))
              (children m DATA_DIR).

(** The loop of [find_latest_date_folder] over the entries of [Data/]. *)
Fixpoint candidates (m : fs) (ps : list path)
  : result (list (Datetime.date * path)) :=
  match ps with
  | [] => Ok []
  | p :: rest =>
      if is_dir m p && date_pattern (name p) then
        d ← strptime (name p);
        cs ← candidates m rest;
        Ok ((d, p) :: cs)
      else candidates m rest
  end.

Definition find_latest_date_folder (m : fs) : result (path * Datetime.date) :=
  if negb (exists_ m DATA_DIR) then
    Raise (SystemExit "Missing Data/ directory at repo root.")
  else
    ps ← iterdir m DATA_DIR;
    cs ← candidates m ps;
    match sort_desc cs with
    | [] => Raise (SystemExit "No dated folder like DD.MM.YYYY inside Data/.")
    | (d, p) :: _ => Ok (p, d)
    end.

End Dated.

(** ** Sorting by lower-cased name *)

(** [sorted(ps, key=lambda x: x.name.lower())]; the sort is stable: [x]
    goes before the first element whose key is not smaller. *)
Fixpoint insert_by_name (x : path) (l : list path) : list path :=
  match l with
  | [] => [x]
  | y :: r =>
      if String.ltb (str_lower (name y)) (str_lower (name x))
      then y :: insert_by_name x r
      else x :: l
  end.

Definition sort_by_name (l : list path) : list path :=
  fold_right insert_by_name [] l.

(** [for x in l: st = f(st, x)] with exceptions. *)
Fixpoint foldM {A B : Type} (f : B -> A -> result B) (b : B) (l : list A)
  : result B :=
  match l with
  | [] => Ok b
  | x :: r => b' ← f b x; foldM f b' r
  end.

(** ** The build *)

Section Site.
Context {E : Env}.

(** [CFG.get("base_url", "").rstrip("/")]. *)
Definition BASE_URL : string :=
  Str.to_string
    (Str.rstrip (fun c => (Str.code c =? 47)%N)
                (Str.of_string (get (cfg_base_url CFG) ""))).

Definition tpl_base (title description body canonical : string) : string :=
  let meta_kw := str_join ", " (get (cfg_keywords CFG) []) in
  let author_name := get (cfg_author_name CFG) "" in
  let author_org := get (cfg_author_org CFG) "" in
  let author_email := get (cfg_author_contact_email CFG) "" in
  let site_tagline := get (cfg_site_tagline CFG) "" in
  let build_time := utcnow_iso +:+ "Z" in
  let css := BASE_URL +:+ "/static/styles.css" in
  str_concat
    ["<!doctype html>"; LF; "<html lang="; DQ; "en"; DQ; ">"; LF; "<head>"; LF;
      "<meta charset="; DQ; "utf-8"; DQ; ">"; LF; "<meta name="; DQ;
      "viewport"; DQ; " content="; DQ; "width=device-width,initial-scale=1";
      DQ; ">"; LF; "<title>"; title; "</title>"; LF; "<link rel="; DQ;
      "canonical"; DQ; " href="; DQ; canonical; DQ; ">"; LF; "<meta name="; DQ;
      "description"; DQ; " content="; DQ; description; DQ; ">"; LF;
      "<meta name="; DQ; "keywords"; DQ; " content="; DQ; meta_kw; DQ; ">"; LF;
      "<meta name="; DQ; "author"; DQ; " content="; DQ; author_name; DQ; ">";
      LF; "<link rel="; DQ; "stylesheet"; DQ; " href="; DQ; css; DQ; ">"; LF;
      "</head>"; LF; "<body>"; LF; "<div class="; DQ; "container"; DQ; ">"; LF;
      "<header class="; DQ; "hero card"; DQ; ">"; LF; "  <div class="; DQ;
      "breadcrumbs"; DQ; "><a href="; DQ; BASE_URL; "/index.html"; DQ;
      ">Home</a></div>"; LF; "  <h1 class="; DQ; "h1"; DQ; ">"; title; "</h1>";
      LF; "  <p class="; DQ; "small"; DQ; ">"; site_tagline; "</p>"; LF;
      "  <div class="; DQ; "kv"; DQ; ">"; LF;
      "    <div><strong>Purpose:</strong> Transparent, reproducible SSG for daily stock pages.</div>";
      LF; "    <div><strong>Last build:</strong> "; build_time; "</div>"; LF;
      "  </div>"; LF; "</header>"; LF; "<main class="; DQ; "grid"; DQ; ">"; LF;
      body; LF; "</main>"; LF; "<footer class="; DQ; "footer"; DQ; ">"; LF;
      "  <div>E-E-A-T: Author <strong>"; author_name; "</strong> · Org: ";
      author_org; " · Contact: <a href="; DQ; "mailto:"; author_email; DQ; ">";
      author_email; "</a></div>"; LF;
      "  <div>Data provenance: Uploaded CSVs (OHLC). Session date = exchange local date. Prediction = next business day (holidays not applied).</div>";
      LF; "</footer>"; LF; "</div>"; LF; "</body>"; LF; "</html>"].

Definition site_title : string := get (cfg_site_title CFG) "".

(** The text of a CSV file as a frame with the nine fields. *)
Definition read_csv_safe (m : fs) (p : path) : result frame :=
  text ← read_text m p;
  df ← pd_read_csv text;
  Ok (normalize df).

(** [float(row["open"])] ... [float(row["close"])] under [try]: any
    exception leaves the four of them [None]. *)
Definition ohlc (r : row)
  : option (Float.float * Float.float * Float.float * Float.float) :=
  match
    o ← row_get r "open" ≫= py_float;
    h ← row_get r "high" ≫= py_float;
    l ← row_get r "low" ≫= py_float;
    c ← row_get r "close" ≫= py_float;
    Ok (o, h, l, c)
  with
  | Ok x => Some x
  | Raise _ => None
  end.

(** [str(row[label]).strip()]. *)
Definition text_of (r : row) (label : string) : result string :=
  v ← row_get r label;
  Ok (str_strip (py_str v)).

(** [int(conf*100)]. *)
Definition percent (conf : Float.float) : result Z :=
  Float.trunc (Float.mul conf (Float.of_Z 100)).

Definition detail_body (date_obj pred : Datetime.date)
    (region_name country_name name_ sym exch sig reason : string)
    (o h l c : Float.float) (pct : Z) : string :=
  str_concat
    [LF; "<article class="; DQ; "card"; DQ; ">"; LF; "  <h2 class="; DQ; "h2";
      DQ; ">"; name_; " ("; sym; ")</h2>"; LF; "  <p class="; DQ; "small"; DQ;
      ">Region: "; region_name; " · Country: "; country_name; " · Exchange: ";
      exch; "</p>"; LF; "  <p class="; DQ; "small"; DQ; ">Session Date: ";
      isoformat date_obj; " · OHLC: O "; str_of_float o; ", H ";
      str_of_float h; ", L "; str_of_float l; ", C "; str_of_float c; "</p>";
      LF; "  <div class="; DQ; "card"; DQ; ">"; LF; "    <h3 class="; DQ; "h3";
      DQ; ">Prediction for "; isoformat pred; "</h3>"; LF; "    <p><strong>";
      sig; "</strong> — "; reason; " (confidence "; str_of_Z pct; "%).</p>";
      LF; "  </div>"; LF; "</article>"].

Definition stock_href (r_slug c_slug s_slug : string) : string :=
  BASE_URL +:+ "/" +:+ r_slug +:+ "/" +:+ c_slug +:+ "/" +:+ s_slug.

Definition table_row (r_slug c_slug s_slug sym name_ exch sec ind sig : string)
    (close : option Float.float) : string :=
  str_concat
    ["<tr>";
     "<td><a href='"; stock_href r_slug c_slug s_slug; "/index.html'>"; sym; "</a></td>";
     "<td><a href='"; stock_href r_slug c_slug s_slug; "/index.html'>"; name_; "</a></td>";
     "<td>"; exch; "</td><td>"; sec; "</td><td>"; ind; "</td>";
     "<td>"; match close with None => "" | Some c => format_2f c end;
     "</td><td>"; sig; "</td>";
     "</tr>"].

(** The body of the loop over the rows of a country: the state is the file
    system and [rows_html]. *)
Definition build_row (date_obj : Datetime.date)
    (region_name r_slug country_name c_slug : string)
    (st : fs * list string) (r : row) : result (fs * list string) :=
  let '(m, rows_html) := st in
  let q := ohlc r in
  '(sig, conf, reason) ←
    match q with
    | Some (o, h, l, c) => classify o h l c
    | None => Ok ("", Float.of_Z 0, "")
    end;
  sym ← text_of r "symbol";
  description ← text_of r "description";
  let name_ := str_or description sym in
  exch ← text_of r "exchange";
  sec ← text_of r "sector";
  ind ← text_of r "industry";
  let s_slug := slug (str_or name_ sym) in
  m ←
    match q with
    | Some (o, h, l, c) =>
        pred ← next_business_day date_obj;
        pct ← percent conf;
        write_html (DIST ++ [r_slug; c_slug; s_slug; "index.html"])
          (tpl_base
             (name_ +:+ " prediction tomorrow — " +:+ site_title)
             (name_ +:+ " (" +:+ sym +:+ ") next-day prediction and OHLC snapshot.")
             (detail_body date_obj pred region_name country_name name_ sym
                          exch sig reason o h l c pct)
             (stock_href r_slug c_slug s_slug +:+ "/"))
          m
    | None => Ok m
    end;
  Ok (m, rows_html ++
         [table_row r_slug c_slug s_slug sym name_ exch sec ind sig
                    (match q with Some (_, _, _, c) => Some c | None => None end)]).

(** [p.stem] for a name that ends in [.csv]. *)
Definition stem (n : string) : string :=
  if (4 <? String.length n)%nat then str_drop_end 4 n else n.

Definition ends_with_csv (n : string) : bool :=
  (4 <=? String.length n)%nat &&
  String.eqb (String.substring (String.length n - 4) 4 n) ".csv".

(** [region.glob("*.csv")]. *)
Definition glob_csv (m : fs) (region : path) : list path :=
  List.filter (fun p => ends_with_csv (name p)) (children m region).

Definition country_table (rows_html : list string) : string :=
  "<table class='table'>" +:+
  "<thead><tr><th>Symbol</th><th>Name</th><th>Exchange</th><th>Sector</th>" +:+
  "<th>Industry</th><th>Close</th><th>Signal</th></tr></thead>" +:+
  "<tbody>" +:+ str_join LF rows_html +:+ "</tbody></table>".

(** The body of the loop over the CSV files of a region: the state is the
    file system and [country_links]. *)
Definition build_country (date_obj : Datetime.date) (region_name r_slug : string)
    (st : fs * list (string * string)) (csv : path)
  : result (fs * list (string * string)) :=
  let '(m, country_links) := st in
  let country_name :=
    str_title (str_replace "-"%char " "%char (stem (name csv))) in
  let c_slug := slug country_name in
  df ← read_csv_safe m csv;
  '(m, rows_html) ←
    foldM (build_row date_obj region_name r_slug country_name c_slug)
          (m, []) (iterrows df);
  let body :=
    "<section class='card'><h2 class='h2'>" +:+ country_name +:+
    " — Stocks</h2>" +:+ country_table rows_html +:+ "</section>" in
  m ← write_html (DIST ++ [r_slug; c_slug; "index.html"])
        (tpl_base (country_name +:+ " stocks — " +:+ site_title)
                  ("Browse stocks listed in " +:+ country_name +:+ ".")
                  body
                  (BASE_URL +:+ "/" +:+ r_slug +:+ "/" +:+ c_slug +:+ "/"))
        m;
  Ok (m, country_links ++ [(country_name, c_slug)]).

(** The body of the loop over the regions. *)
Definition build_region (date_obj : Datetime.date) (m : fs) (region : path)
  : result fs :=
  let r_slug := slug (name region) in
  '(m, country_links) ←
    foldM (build_country date_obj (name region) r_slug) (m, [])
          (sort_by_name (glob_csv m region));
  let lis :=
    str_concat
      (map (fun l : string * string =>
              "<li><a href='" +:+ BASE_URL +:+ "/" +:+ r_slug +:+ "/" +:+
              snd l +:+ "/index.html'>" +:+ fst l +:+ "</a></li>")
           country_links) in
  let body :=
    "<section class='card'><h2 class='h2'>Countries in " +:+ name region +:+
    "</h2><ul>" +:+ lis +:+ "</ul></section>" in
  write_html (DIST ++ [r_slug; "index.html"])
    (tpl_base (name region +:+ " Markets — " +:+ site_title)
              ("Browse stock markets in " +:+ name region +:+ ".")
              body
              (BASE_URL +:+ "/" +:+ r_slug +:+ "/"))
    m.

Definition fallback_css : string :=
  "body{font-family:system-ui;background:#0b1220;color:#e8f0fe;margin:0}" +:+
  " .container{max-width:1100px;margin:0 auto;padding:24px}" +:+
  " .card{background:#111a2b;border-radius:16px;padding:16px}" +:+
  " .h1{font-size:28px} .h2{font-size:22px} .h3{font-size:18px}" +:+
  " .grid{display:grid;gap:16px}" +:+
  " .table{width:100%;border-collapse:collapse}" +:+
  " .table td,.table th{border-bottom:1px solid #1f2a44;padding:8px}" +:+
  " .small{color:#9fb3c8}".

(** "reset dist": the output root goes with all it holds and comes back
    with an empty [static] directory. *)
Definition reset_dist (m : fs) : result fs :=
  m ← (if exists_ m DIST then rmtree DIST m else Ok m);
  mkdir_p (DIST ++ ["static"]) m.

(** "copy CSS (fallback if missing)". *)
Definition copy_css (m : fs) : result fs :=
  let css_src := ["static"; "styles.css"] in
  if exists_ m css_src then
    text ← read_text m css_src;
    write_text (DIST ++ ["static"; "styles.css"]) text m
  else write_text (DIST ++ ["static"; "styles.css"]) fallback_css m.

Definition home_page (regions : list path) : string :=
  let home_body :=
    ["<section class='card'><h2 class='h2'>Browse Regions</h2><ul>"] ++
    map (fun r => "<li><a href='" +:+ BASE_URL +:+ "/" +:+ slug (name r) +:+
                  "/index.html'>" +:+ name r +:+ "</a></li>") regions ++
    ["</ul></section>"] in
  tpl_base (site_title +:+ " — " +:+ get (cfg_site_tagline CFG) "")
           "Daily static stock prediction pages built from your uploaded CSVs."
           (str_join LF home_body)
           (BASE_URL +:+ "/").

(** Home page, then every region with its countries and stocks. *)
Definition build_pages (date_dir : path) (date_obj : Datetime.date) (m : fs)
  : result fs :=
  ps ← iterdir m date_dir;
  let regions := sort_by_name (List.filter (is_dir m) ps) in
  m ← write_html (DIST ++ ["index.html"]) (home_page regions) m;
  foldM (build_region date_obj) m regions.

Definition robots_txt : string :=
  "Sitemap: " +:+ BASE_URL +:+ "/sitemap.xml" +:+ LF +:+
  "User-agent: *" +:+ LF +:+ "Allow: /" +:+ LF.

Definition write_robots (m : fs) : result fs :=
  write_text (DIST ++ ["robots.txt"]) robots_txt m.

(** The URL of a page from its file below [dist]: the path relative to
    [dist] with a leading slash, backslashes as slashes, and without its
    last ten characters. *)
Definition sitemap_url (p : path) : string :=
  let rel :=
    "/" +:+ str_replace (ascii_of_N 92) "/"%char
              (str_join "/" (drop (length DIST) p)) in
  BASE_URL +:+ str_drop_end 10 rel.

Definition sitemap_xml (urls : list string) : string :=
  "<?xml version='1.0' encoding='UTF-8'?>" +:+
  "<urlset xmlns='http://www.sitemaps.org/schemas/sitemap/0.9'>" +:+
  str_concat (map (fun u => "<url><loc>" +:+ u +:+ "</loc></url>") urls) +:+
  "</urlset>".

Definition write_sitemap (m : fs) : result fs :=
  let urls := map sitemap_url (rglob m DIST "index.html") in
  write_text (DIST ++ ["sitemap.xml"]) (sitemap_xml urls) m.

(** The directories of a URL: each name followed by a slash. *)
Definition dir_string (dirs : list string) : string :=
  str_concat (map (fun d => d +:+ "/") dirs).

(** An entry that is a page made by [tpl_base]. *)
Definition rendered (e : entry) : Prop :=
  exists title description body canonical,
    e = File (tpl_base title description body canonical).

(** Every [index.html] below the output root is a page made by [tpl_base]. *)
Definition pages_rendered (m : fs) : Prop :=
  forall k e, below DIST k -> name k = "index.html" -> m !! k = Some e ->
              rendered e.

(** A page made by [tpl_base] stands at [p]. *)
Definition page_at (m : fs) (p : path) : Prop :=
  exists e, m !! p = Some e /\ rendered e.

Definition main (m : fs) : result fs :=
  '(date_dir, date_obj) ← find_latest_date_folder m;
  m ← reset_dist m;
  m ← copy_css m;
  m ← build_pages date_dir date_obj m;
  m ← write_robots m;
  write_sitemap m.

End Site.

(** ** A small site, used to run the build *)

Definition example_config : config :=
  {| cfg_base_url := Some "https://example.org/site/";
     cfg_keywords := Some ["stocks"; "ohlc"];
     cfg_author_name := Some "A. Author";
     cfg_author_org := None;
     cfg_author_contact_email := Some "a@example.org";
     cfg_site_title := Some "Stock pages";
     cfg_site_tagline := Some "Daily" |}.

(** Two stocks; the close of the second one is an empty cell. *)
Definition example_frame : frame :=
  frame_of_rows
    ["Symbol"; " Open"; "High"; "Low"; "Close"]
    [[CStr "AAA"; CFloat (Float.of_Z 10); CFloat (Float.of_Z 12);
      CFloat (Float.of_Z 8); CFloat (Float.of_ratio 118 10)];
     [CStr "BBB"; CFloat (Float.of_Z 10); CFloat (Float.of_Z 12);
      CFloat (Float.of_Z 8); CFloat Float.nan]].

(** A way to print floats: the mantissa and the binary exponent. *)
Definition example_repr (x : Float.float) : string :=
  match x with
  | S754_nan => "nan"
  | S754_infinity s => if s then "-inf" else "inf"
  | S754_zero s => if s then "-0.0" else "0.0"
  | S754_finite s m e =>
      (if s then "-" else "") +:+ str_of_Z (Zpos m) +:+ "p" +:+ str_of_Z e
  end.

(** The digit zero of every run of ten decimal digits beyond ASCII in
    Unicode 14.0, the database of Python 3.11. *)
Definition example_unicode_zeros : list N :=
  [1632; 1776; 1984; 2406; 2534; 2662; 2790; 2918; 3046; 3174; 3302; 3430;
   3558; 3664; 3792; 3872; 4160; 4240; 6112; 6160; 6470; 6608; 6784; 6800;
   6992; 7088; 7232; 7248; 42528; 43216; 43264; 43472; 43504; 43600; 44016;
   65296; 66720; 68912; 69734; 69872; 69942; 70096; 70384; 70736; 70864;
   71248; 71360; 71472; 71904; 72016; 72784; 73040; 73120; 92768; 92864;
   93008; 120782; 120792; 120802; 120812; 120822; 123200; 123632; 125264;
   130032]%N.

Definition example_unicode_decimal (c : N) : option Z :=
  match List.find (fun z => Str.between z (z + 9) c) example_unicode_zeros with
  | Some z => Some (Z.of_N c - Z.of_N z)
  | None => None
  end.

(** An environment in which [pandas] reads the frame [df] from every file. *)
Definition env_with_frame (df : frame) : Env :=
  {| CFG := example_config;
     utcnow_iso := "2024-03-15T18:00:00";
     pd_read_csv := fun _ => Ok df;
     float_of_str := fun _ => None;
     str_of_float := example_repr;
     format_2f := example_repr;
     str_of_series := fun _ => "Series";
     str_title := fun s => s;
     unicode_decimal := example_unicode_decimal |}.

Definition example_env : Env := env_with_frame example_frame.

(** The input of a build: the data, without an output directory. *)
Definition example_fs_clean : fs :=
  list_to_map
    [(["Data"], Dir);
     (["Data"; "14.03.2024"], Dir);
     (["Data"; "15.03.2024"], Dir);
     (["Data"; "15.03.2024"; "Asia"], Dir);
     (["Data"; "15.03.2024"; "Asia"; "india.csv"],
      File ("Symbol, Open,High,Low,Close" +:+ LF +:+
            "AAA,10,12,8,11.8" +:+ LF +:+ "BBB,10,12,8," +:+ LF));
     (["Data"; "notes.txt"], File "")].

(** The same input with the output of an earlier build. *)
Definition example_fs : fs :=
  <[["dist"; "old"; "index.html"] := File "stale"]>
    (<[["dist"; "old"] := Dir]> (<[["dist"] := Dir]> example_fs_clean)).

(** A frame with two of the nine columns, and a file to read it from. *)
Definition example_bare_frame : frame :=
  frame_of_rows ["Symbol"; "Open "] [[CStr "AAA"; CFloat (Float.of_Z 10)]].

Definition example_fs_bare : fs :=
  list_to_map
    [(["Data"], Dir);
     (["Data"; "bare.csv"], File ("Symbol,Open " +:+ LF +:+ "AAA,10" +:+ LF))].

Definition example_env_bare : Env := env_with_frame example_bare_frame.

(** A data root with a folder named after a day that does not exist. *)
Definition example_fs_bad_date : fs :=
  list_to_map
    [(["Data"], Dir);
     (["Data"; "15.03.2024"], Dir);
     (["Data"; "31.02.2024"], Dir)].

(** The site the build makes of [example_fs]. *)
Definition example_site : fs :=
  match main (E:=example_env) example_fs with
  | Ok m => m
  | Raise _ => ∅
  end.

(** A frame in which two columns come out under the name [open]. *)
Definition example_twin_frame : frame :=
  frame_of_rows ["Symbol"; "Open"; "open "; "High"; "Low"; "Close"]
    [[CStr "AAA"; CFloat (Float.of_Z 10); CFloat (Float.of_Z 10);
      CFloat (Float.of_Z 12); CFloat (Float.of_Z 8); CFloat (Float.of_Z 11)]].

(** A page written into an empty file system. *)
Definition example_page_fs : fs :=
  match write_html ["dist"; "a"; "index.html"] "x" ∅ with
  | Ok m => m
  | Raise _ => ∅
  end.


(** Two rows of one country with the same description. *)
Definition example_same_name_rows : list row :=
  map (fun sc : string * Z =>
         [("symbol", CStr sc.1); ("description", CStr "Acme");
          ("exchange", CStr "NSE"); ("sector", CStr ""); ("industry", CStr "");
          ("open", CFloat (Float.of_Z 10)); ("high", CFloat (Float.of_Z 12));
          ("low", CFloat (Float.of_Z 8)); ("close", CFloat (Float.of_Z sc.2))])
      [("A1", 11); ("A2", 9)].

(** The loop over these rows, run on the input of the example. *)
Definition example_same_name_built : fs * list string :=
  match foldM (build_row (E:=example_env) (Datetime.mkdate 2024 3 15)
                 "Asia" "asia" "India" "india")
              (example_fs, []) example_same_name_rows with
  | Ok st => st
  | Raise _ => (∅, [])
  end.

(* ================================================================== *)
(** * Properties *)
(* ================================================================== *)

(** ** Stripping *)

Section StripLemmas.
Variable P : ascii -> bool.

Lemma lstrip_app (a b : list ascii) :
  Str.lstrip P (a ++ b) =
  match Str.lstrip P a with [] => Str.lstrip P b | x => x ++ b end.
Proof.
  induction a as [|c a IH]; simpl.
  - reflexivity.
  - destruct (P c); [exact IH | reflexivity].
Qed.

Lemma rstrip_cons (c : ascii) (r : list ascii) :
  Str.rstrip P (c :: r) =
  match Str.rstrip P r with
  | [] => if P c then [] else [c]
  | r' => c :: r'
  end.
Proof.
  unfold Str.rstrip. simpl rev at 2. rewrite lstrip_app.
  destruct (Str.lstrip P (rev r)) as [|x l] eqn:E; simpl.
  - destruct (P c); reflexivity.
  - rewrite rev_unit.
    destruct (rev l ++ [x]) eqn:E2.
    + destruct (rev l); discriminate.
    + simpl. rewrite E2. reflexivity.
Qed.

Lemma lstrip_none (s : list ascii) :
  Forall (fun c => P c = false) s -> Str.lstrip P s = s.
Proof. destruct 1 as [|c r H _]; simpl; [|rewrite H]; reflexivity. Qed.

Lemma rstrip_none (s : list ascii) :
  Forall (fun c => P c = false) s -> Str.rstrip P s = s.
Proof.
  induction 1 as [|c r H _ IH]; [reflexivity|].
  rewrite rstrip_cons, IH, H. destruct r; reflexivity.
Qed.

Lemma lstrip_rstrip_comm (s : list ascii) :
  Str.lstrip P (Str.rstrip P s) = Str.rstrip P (Str.lstrip P s).
Proof.
  induction s as [|c r IH]; [reflexivity|].
  simpl Str.lstrip at 2. rewrite rstrip_cons.
  destruct (P c) eqn:Hc.
  - rewrite <- IH. destruct (Str.rstrip P r) eqn:E; simpl; [reflexivity|].
    rewrite Hc. reflexivity.
  - rewrite rstrip_cons.
    destruct (Str.rstrip P r) eqn:E; simpl; rewrite Hc; reflexivity.
Qed.

Lemma lstrip_idem (s : list ascii) :
  Str.lstrip P (Str.lstrip P s) = Str.lstrip P s.
Proof.
  induction s as [|c r IH]; [reflexivity|]. simpl.
  destruct (P c) eqn:Hc; [exact IH|]. simpl. rewrite Hc. reflexivity.
Qed.

Lemma rstrip_idem (s : list ascii) :
  Str.rstrip P (Str.rstrip P s) = Str.rstrip P s.
Proof.
  unfold Str.rstrip. rewrite rev_involutive, lstrip_idem. reflexivity.
Qed.

Lemma strip_idem (s : list ascii) :
  Str.strip P (Str.strip P s) = Str.strip P s.
Proof.
  unfold Str.strip.
  rewrite <- (lstrip_rstrip_comm s), lstrip_idem.
  rewrite (lstrip_rstrip_comm s), rstrip_idem. reflexivity.
Qed.

End StripLemmas.

(** ** Characters *)

Lemma is_hyphen_eq (c : ascii) : Str.is_hyphen c = true -> c = Str.hyphen.
Proof.
  unfold Str.is_hyphen, Str.code. intros H%N.eqb_eq.
  rewrite <- (ascii_N_embedding c), H. reflexivity.
Qed.

Lemma space_not_az09 (c : ascii) : Str.is_space c = true -> Str.is_az09 c = false.
Proof. destruct c as [[] [] [] [] [] [] [] []]; vm_compute; congruence. Qed.

Lemma lower_char_space (c : ascii) :
  Str.is_space (Str.lower_char c) = Str.is_space c.
Proof. destruct c as [[] [] [] [] [] [] [] []]; reflexivity. Qed.

Lemma az09_plain (c : ascii) :
  Str.is_az09 c = true ->
  Str.is_space c = false /\ Str.is_hyphen c = false /\ Str.lower_char c = c.
Proof. destruct c as [[] [] [] [] [] [] [] []]; vm_compute; intuition congruence. Qed.

Lemma hyphen_plain :
  Str.is_space Str.hyphen = false /\ Str.is_az09 Str.hyphen = false /\
  Str.lower_char Str.hyphen = Str.hyphen /\ Str.is_hyphen Str.hyphen = true.
Proof. vm_compute. auto. Qed.

(** ** The substitution and the collapse of runs *)

Lemma re_sub_collapse (s : list ascii) :
  Str.re_sub s = SlugSpec.collapse_runs false s /\
  Str.re_run s = SlugSpec.collapse_runs true s.
Proof.
  induction s as [|c r [IH1 IH2]]; [split; reflexivity|].
  simpl. rewrite IH1, IH2. destruct (Str.is_az09 c); split; reflexivity.
Qed.

Lemma drop_trailing_rstrip (s : list ascii) :
  SlugSpec.drop_trailing_hyphens s = Str.rstrip Str.is_hyphen s.
Proof.
  induction s as [|c r IH]; [reflexivity|].
  rewrite rstrip_cons, <- IH. reflexivity.
Qed.

Lemma lower_lstrip (s : list ascii) :
  Str.lower (Str.lstrip Str.is_space s) = Str.lstrip Str.is_space (Str.lower s).
Proof.
  induction s as [|c r IH]; [reflexivity|]. simpl.
  rewrite lower_char_space. destruct (Str.is_space c); [exact IH | reflexivity].
Qed.

Lemma lower_rstrip (s : list ascii) :
  Str.lower (Str.rstrip Str.is_space s) = Str.rstrip Str.is_space (Str.lower s).
Proof.
  unfold Str.rstrip, Str.lower.
  rewrite map_rev. fold (Str.lower (Str.lstrip Str.is_space (rev s))).
  rewrite lower_lstrip. unfold Str.lower. rewrite map_rev. reflexivity.
Qed.

Lemma lower_strip (s : list ascii) :
  Str.lower (Str.strip Str.is_space s) = Str.strip Str.is_space (Str.lower s).
Proof. unfold Str.strip. rewrite lower_rstrip, lower_lstrip. reflexivity. Qed.

(** Leading hyphens hide whether the scan started inside a run. *)
Lemma lstrip_collapse_flag (b : bool) (s : list ascii) :
  Str.lstrip Str.is_hyphen (SlugSpec.collapse_runs b s) =
  Str.lstrip Str.is_hyphen (SlugSpec.collapse_runs true s).
Proof.
  destruct s as [|c r]; [reflexivity|]. simpl.
  destruct (Str.is_az09 c); [reflexivity|]. destruct b; reflexivity.
Qed.

Lemma lstrip_collapse_space (b : bool) (s : list ascii) :
  Str.lstrip Str.is_hyphen (SlugSpec.collapse_runs b (Str.lstrip Str.is_space s)) =
  Str.lstrip Str.is_hyphen (SlugSpec.collapse_runs b s).
Proof.
  induction s as [|c r IH]; [reflexivity|].
  simpl Str.lstrip at 2. destruct (Str.is_space c) eqn:Hc; [|reflexivity].
  rewrite IH, lstrip_collapse_flag. simpl.
  rewrite (space_not_az09 _ Hc). destruct b; reflexivity.
Qed.

Lemma rstrip_collapse_cons (c : ascii) (x y : list ascii) :
  (forall b, Str.rstrip Str.is_hyphen (SlugSpec.collapse_runs b x) =
             Str.rstrip Str.is_hyphen (SlugSpec.collapse_runs b y)) ->
  forall b, Str.rstrip Str.is_hyphen (SlugSpec.collapse_runs b (c :: x)) =
            Str.rstrip Str.is_hyphen (SlugSpec.collapse_runs b (c :: y)).
Proof.
  intros H b. simpl. destruct (Str.is_az09 c).
  - rewrite !rstrip_cons, H. reflexivity.
  - destruct b; [apply H|]. rewrite !rstrip_cons, H. reflexivity.
Qed.

Lemma rstrip_collapse_space (s : list ascii) (b : bool) :
  Str.rstrip Str.is_hyphen (SlugSpec.collapse_runs b (Str.rstrip Str.is_space s)) =
  Str.rstrip Str.is_hyphen (SlugSpec.collapse_runs b s).
Proof.
  revert b. induction s as [|c r IH]; [reflexivity|].
  rewrite rstrip_cons.
  destruct (Str.rstrip Str.is_space r) as [|c' r'] eqn:E.
  - destruct (Str.is_space c) eqn:Hc.
    + intros b. simpl. rewrite (space_not_az09 _ Hc).
      destruct b; [rewrite <- IH; reflexivity|].
      rewrite rstrip_cons, <- IH. reflexivity.
    + apply rstrip_collapse_cons, IH.
  - apply rstrip_collapse_cons, IH.
Qed.

Lemma strip_collapse_space (s : list ascii) :
  Str.strip Str.is_hyphen (SlugSpec.collapse_runs false (Str.strip Str.is_space s)) =
  Str.strip Str.is_hyphen (SlugSpec.collapse_runs false s).
Proof.
  unfold Str.strip at 1 3.
  rewrite <- !lstrip_rstrip_comm.
  unfold Str.strip. rewrite rstrip_collapse_space.
  rewrite !lstrip_rstrip_comm, lstrip_collapse_space. reflexivity.
Qed.

Lemma slug_chars_spec (s : list ascii) :
  slug_chars s =
  or_else (Str.strip Str.is_hyphen (SlugSpec.collapse_runs false (Str.lower s)))
          (Str.of_string "stock").
Proof.
  unfold slug_chars.
  replace (or_else s []) with s by (destruct s; reflexivity).
  rewrite (proj1 (re_sub_collapse _)), lower_strip, strip_collapse_space.
  reflexivity.
Qed.

(** ** Shape of a slug *)

Lemma hyphenated_collapse (s : list ascii) :
  forall b, hyphenated b (SlugSpec.collapse_runs b s) = true.
Proof.
  induction s as [|c r IH]; intros b; [reflexivity|]. simpl.
  destruct (Str.is_az09 c) eqn:Hc.
  - simpl. rewrite Hc. apply IH.
  - destruct b; [apply IH|]. exact (IH true).
Qed.

Lemma hyphenated_weaken (b : bool) (s : list ascii) :
  hyphenated b s = true -> hyphenated false s = true.
Proof.
  destruct s as [|c r]; [reflexivity|]. simpl.
  destruct (Str.is_az09 c); [tauto|]. destruct b; simpl.
  - rewrite andb_false_r. discriminate.
  - tauto.
Qed.

Lemma collapse_hyphenated (s : list ascii) :
  forall b, hyphenated b s = true -> SlugSpec.collapse_runs b s = s.
Proof.
  induction s as [|c r IH]; intros b; [reflexivity|]. simpl.
  destruct (Str.is_az09 c).
  - intros H. rewrite (IH _ H). reflexivity.
  - destruct b; simpl.
    + rewrite andb_false_r. discriminate.
    + rewrite andb_true_r. intros [Hc H]%andb_prop.
      rewrite (IH _ H), (is_hyphen_eq _ Hc). reflexivity.
Qed.

Lemma hyphenated_chars (s : list ascii) :
  forall b, hyphenated b s = true ->
  Forall (fun c => Str.is_space c = false) s /\ Str.lower s = s.
Proof.
  induction s as [|c r IH]; intros b; [split; [constructor | reflexivity]|].
  simpl. destruct (Str.is_az09 c) eqn:Hc.
  - intros [HF HL]%IH. destruct (az09_plain _ Hc) as (Hs & _ & Hl).
    split; [constructor; assumption|]. rewrite Hl, HL. reflexivity.
  - intros [[Hh _]%andb_prop [HF HL]%IH]%andb_prop.
    apply is_hyphen_eq in Hh. subst c.
    destruct hyphen_plain as (Hs & _ & Hl & _).
    split; [constructor; assumption|]. rewrite Hl, HL. reflexivity.
Qed.

Lemma hyphenated_lstrip (s : list ascii) :
  forall b, hyphenated b s = true ->
  hyphenated false (Str.lstrip Str.is_hyphen s) = true.
Proof.
  induction s as [|c r IH]; intros b H; [reflexivity|]. simpl.
  destruct (Str.is_hyphen c) eqn:Hc.
  - simpl in H. destruct (Str.is_az09 c).
    + apply (IH _ H).
    + apply andb_prop in H as [_ H]. apply (IH _ H).
  - apply (hyphenated_weaken _ _ H).
Qed.

Lemma hyphenated_rstrip (s : list ascii) :
  forall b, hyphenated b s = true ->
  hyphenated b (Str.rstrip Str.is_hyphen s) = true.
Proof.
  induction s as [|c r IH]; intros b H; [reflexivity|].
  rewrite rstrip_cons. simpl in H.
  destruct (Str.is_az09 c) eqn:Hc.
  - apply IH in H.
    destruct (Str.rstrip Str.is_hyphen r) as [|c' r'].
    + destruct (Str.is_hyphen c); simpl; [|rewrite Hc]; reflexivity.
    + simpl hyphenated at 1. rewrite Hc. exact H.
  - apply andb_prop in H as [H1 H]. apply IH in H.
    destruct (Str.rstrip Str.is_hyphen r) as [|c' r'].
    + destruct (Str.is_hyphen c); [reflexivity | discriminate H1].
    + simpl hyphenated at 1. rewrite Hc, H1. exact H.
Qed.

Lemma slug_chars_fixed (s : list ascii) :
  s <> [] -> hyphenated false s = true ->
  Str.strip Str.is_hyphen s = s -> slug_chars s = s.
Proof.
  intros Hne Hh Hs. rewrite slug_chars_spec.
  destruct (hyphenated_chars _ _ Hh) as [_ ->].
  rewrite (collapse_hyphenated _ _ Hh), Hs.
  destruct s; [contradiction | reflexivity].
Qed.

Lemma slug_chars_idem (s : list ascii) : slug_chars (slug_chars s) = slug_chars s.
Proof.
  rewrite (slug_chars_spec s).
  set (t := SlugSpec.collapse_runs false (Str.lower s)).
  destruct (Str.strip Str.is_hyphen t) as [|c r] eqn:E; [reflexivity|].
  simpl or_else. rewrite <- E. apply slug_chars_fixed.
  - rewrite E. discriminate.
  - unfold Str.strip. apply hyphenated_rstrip.
    apply (hyphenated_lstrip _ false), hyphenated_collapse.
  - apply strip_idem.
Qed.

(** C7: [slug] is the slug generator of the specification (lower-case,
    collapse every run of characters outside [a-z0-9] to a single hyphen,
    strip leading and trailing hyphens, "stock" when nothing is left), and
    the three examples of the specification evaluate as stated. *)
Theorem slug_refines_spec :
  (forall s : string, slug s = SlugSpec.slug_spec s) /\
  slug "Reliance Industries Ltd." = "reliance-industries-ltd" /\
  slug "" = "stock" /\
  slug "  ***  " = "stock".
Proof.
  split; [|repeat split; reflexivity].
  intros s. unfold slug, SlugSpec.slug_spec. rewrite slug_chars_spec.
  unfold SlugSpec.drop_leading_hyphens. rewrite drop_trailing_rstrip.
  fold (Str.strip Str.is_hyphen
          (SlugSpec.collapse_runs false (map Str.lower_char (Str.of_string s)))).
  unfold Str.lower.
  destruct (Str.strip Str.is_hyphen _); reflexivity.
Qed.

(** C10: the slug generator is idempotent. *)
Theorem slug_idempotent (s : string) : slug (slug s) = slug s.
Proof.
  unfold slug, Str.of_string, Str.to_string.
  rewrite list_ascii_of_string_of_list_ascii.
  rewrite slug_chars_idem. reflexivity.
Qed.

(** ** The calendar *)

Section Calendar.
Import Datetime.

Ltac divmod := Z.div_mod_to_equations; lia.

Lemma is_leap_spec (y : Z) :
  is_leap y = true <-> y mod 4 = 0 /\ (y mod 100 <> 0 \/ y mod 400 = 0).
Proof.
  unfold is_leap.
  rewrite andb_true_iff, orb_true_iff, negb_true_iff, !Z.eqb_eq, Z.eqb_neq.
  reflexivity.
Qed.

Lemma days_before_year_succ (y : Z) :
  days_before_year (y + 1) =
  days_before_year y + (if is_leap y then 366 else 365).
Proof.
  destruct (is_leap y) eqn:E.
  - apply is_leap_spec in E. unfold days_before_year. divmod.
  - assert (H : ~ (y mod 4 = 0 /\ (y mod 100 <> 0 \/ y mod 400 = 0))).
    { rewrite <- is_leap_spec, E. discriminate. }
    unfold days_before_year. divmod.
Qed.

Lemma days_before_year_mono (a b : Z) :
  a <= b -> days_before_year a <= days_before_year b.
Proof. unfold days_before_year. intros H. divmod. Qed.

Lemma month_cases (m : Z) :
  1 <= m <= 12 ->
  m = 1 \/ m = 2 \/ m = 3 \/ m = 4 \/ m = 5 \/ m = 6 \/
  m = 7 \/ m = 8 \/ m = 9 \/ m = 10 \/ m = 11 \/ m = 12.
Proof. lia. Qed.

Ltac month_case H :=
  apply month_cases in H;
  repeat (destruct H as [H | H]; [subst | ]); [.. | subst].

(** Days of the year before the end of month [m]. *)
Lemma month_span (y m : Z) :
  1 <= m <= 12 ->
  28 <= days_in_month y m /\ 0 <= days_before_month y m /\
  days_before_month y m + days_in_month y m <=
    (if is_leap y then 366 else 365).
Proof.
  intros H. unfold days_in_month, days_before_month.
  month_case H; destruct (is_leap y); vm_compute; intuition congruence.
Qed.

Lemma month_before (y m m' : Z) :
  1 <= m -> m < m' -> m' <= 12 ->
  days_before_month y m + days_in_month y m <= days_before_month y m'.
Proof.
  intros H1 H2 H3. unfold days_in_month, days_before_month.
  assert (H : 1 <= m <= 12) by lia. assert (H' : 1 <= m' <= 12) by lia.
  month_case H; month_case H'; try lia;
    destruct (is_leap y); vm_compute; congruence.
Qed.

Lemma valid_spec (d : date) :
  valid d = true <->
  1 <= year d <= 9999 /\ 1 <= month d <= 12 /\
  1 <= day d <= days_in_month (year d) (month d).
Proof. unfold valid, MINYEAR, MAXYEAR. lia. Qed.

Lemma toordinal_range (d : date) :
  valid d = true -> 1 <= toordinal d <= MAXORDINAL.
Proof.
  intros (Hy & Hm & Hd)%valid_spec.
  unfold toordinal, ymd2ord.
  destruct (month_span (year d) _ Hm) as (_ & H1 & H2).
  pose proof (days_before_year_mono 1 (year d) ltac:(lia)) as H3.
  pose proof (days_before_year_mono (year d + 1) 10000 ltac:(lia)) as H4.
  rewrite days_before_year_succ in H4.
  change (days_before_year 1) with 0 in H3.
  change (days_before_year 10000) with 3652059 in H4.
  unfold MAXORDINAL. destruct (is_leap (year d)); lia.
Qed.

(** The order of dates is the order of their ordinals. *)
Lemma ltb_toordinal (a b : date) :
  valid a = true -> valid b = true ->
  ltb a b = true -> toordinal a < toordinal b.
Proof.
  intros (Hy & Hm & Hd)%valid_spec (Hy' & Hm' & Hd')%valid_spec H.
  unfold ltb in H. unfold toordinal, ymd2ord.
  destruct (month_span (year a) _ Hm) as (_ & H1 & H2).
  destruct (month_span (year b) _ Hm') as (_ & H1' & H2').
  destruct (Z.ltb_spec (year a) (year b)) as [Hlt | Hge].
  - pose proof (days_before_year_mono (year a + 1) (year b) ltac:(lia)) as H3.
    rewrite days_before_year_succ in H3.
    destruct (is_leap (year a)); lia.
  - simpl in H. apply andb_prop in H as [Hy2%Z.eqb_eq H]. rewrite Hy2 in *.
    destruct (Z.ltb_spec (month a) (month b)) as [Hlt | Hge'].
    + pose proof (month_before (year b) (month a) (month b)
                    ltac:(lia) Hlt ltac:(lia)). lia.
    + simpl in H. apply andb_prop in H as [Hm2%Z.eqb_eq H]. rewrite Hm2 in *.
      lia.
Qed.

Lemma toordinal_ltb (a b : date) :
  valid a = true -> valid b = true ->
  toordinal a < toordinal b -> ltb a b = true.
Proof.
  intros Ha Hb H.
  destruct (ltb a b) eqn:E; [reflexivity|].
  destruct (ltb b a) eqn:E'.
  - pose proof (ltb_toordinal _ _ Hb Ha E'). lia.
  - assert (a = b); [|subst; lia].
    unfold ltb in E, E'. destruct a, b; simpl in *. f_equal; lia.
Qed.

(** *** From ordinals back to dates *)

Lemma month_day_table (leap : bool) :
  forallb (month_day_ok leap) (map Z.of_nat (seq 0 365)) = true.
Proof. destruct leap; vm_compute; reflexivity. Qed.

Lemma month_day_spec (leap : bool) (n : Z) :
  0 <= n < 365 -> month_day_ok leap n = true.
Proof.
  intros H. pose proof (month_day_table leap) as T.
  rewrite forallb_forall in T. apply T.
  apply in_map_iff. exists (Z.to_nat n). split; [lia|].
  apply in_seq. lia.
Qed.

(** The year reached after [a] cycles of 400 years, [b] centuries, [c]
    cycles of 4 years and [e] years. *)
Lemma days_before_year_cycles (a b c e : Z) :
  0 <= b <= 3 -> 0 <= c <= 24 -> 0 <= e <= 3 ->
  days_before_year (a * 400 + 1 + b * 100 + c * 4 + e) =
  a * 146097 + b * 36524 + c * 1461 + e * 365.
Proof. intros. unfold days_before_year. divmod. Qed.

Lemma is_leap_cycles (a b c e : Z) :
  0 <= b <= 3 -> 0 <= c <= 24 -> 0 <= e <= 3 ->
  is_leap (a * 400 + 1 + b * 100 + c * 4 + e) =
  (e =? 3) && (negb (c =? 24) || (b =? 3)).
Proof.
  intros Hb Hc He.
  set (y := a * 400 + 1 + b * 100 + c * 4 + e).
  destruct ((e =? 3) && (negb (c =? 24) || (b =? 3))) eqn:E.
  - apply is_leap_spec. subst y. divmod.
  - destruct (is_leap y) eqn:L; [|reflexivity].
    apply is_leap_spec in L. subst y. exfalso.
    Z.div_mod_to_equations. lia.
Qed.

Lemma fromordinal_toordinal (n : Z) :
  1 <= n <= MAXORDINAL ->
  valid (fromordinal n) = true /\ toordinal (fromordinal n) = n.
Proof.
  intros Hn. unfold MAXORDINAL in Hn.
  unfold fromordinal, ord2ymd, DI400Y, DI100Y, DI4Y. cbv zeta.
  pose proof (Z.div_mod (n - 1) 146097 ltac:(lia)) as E1.
  pose proof (Z.mod_pos_bound (n - 1) 146097 ltac:(lia)) as B1.
  set (a := (n - 1) / 146097) in *. set (r1 := (n - 1) mod 146097) in *.
  pose proof (Z.div_mod r1 36524 ltac:(lia)) as E2.
  pose proof (Z.mod_pos_bound r1 36524 ltac:(lia)) as B2.
  set (b := r1 / 36524) in *. set (r2 := r1 mod 36524) in *.
  pose proof (Z.div_mod r2 1461 ltac:(lia)) as E3.
  pose proof (Z.mod_pos_bound r2 1461 ltac:(lia)) as B3.
  set (c := r2 / 1461) in *. set (r3 := r2 mod 1461) in *.
  pose proof (Z.div_mod r3 365 ltac:(lia)) as E4.
  pose proof (Z.mod_pos_bound r3 365 ltac:(lia)) as B4.
  set (e := r3 / 365) in *. set (r4 := r3 mod 365) in *.
  clearbody a r1 b r2 c r3 e r4.
  assert (Ha : 0 <= a <= 24) by lia.
  assert (Hb : 0 <= b <= 4) by lia.
  assert (Hc : 0 <= c <= 24) by lia.
  assert (He : 0 <= e <= 4) by lia.
  destruct ((e =? 4) || (b =? 4)) eqn:Sp.
  - (* the last day of a leap year *)
    assert (Hy : a * 400 + 1 + b * 100 + c * 4 + e - 1 =
                 (a * 400 + 1 + b * 100 + c * 4 + e - 1 - 1) + 1) by lia.
    assert (Hl : is_leap (a * 400 + 1 + b * 100 + c * 4 + e - 1) = true).
    { apply is_leap_spec. Z.div_mod_to_equations. lia. }
    assert (Hd : days_before_year (a * 400 + 1 + b * 100 + c * 4 + e - 1) + 366 = n).
    { unfold days_before_year. Z.div_mod_to_equations. lia. }
    split.
    + apply valid_spec. cbn [year month day]. unfold days_in_month.
      change (DAYS_IN_MONTH 12) with 31. change (12 =? 2) with false.
      cbn [andb].
      assert (B : b = 4 -> c = 0 /\ e = 0 /\ a <= 23) by lia.
      assert (C : e = 4 -> c <= 23) by lia.
      lia.
    + unfold toordinal, ymd2ord, days_before_month. cbn [year month day].
      rewrite Hl. change (DAYS_BEFORE_MONTH 12) with 334.
      change (2 <? 12) with true. cbn [andb]. lia.
  - apply orb_false_elim in Sp as [Sp1%Z.eqb_neq Sp2%Z.eqb_neq].
    assert (Hb' : 0 <= b <= 3) by lia. assert (He' : 0 <= e <= 3) by lia.
    pose proof (month_day_spec ((e =? 3) && (negb (c =? 24) || (b =? 3))) r4 B4) as M.
    unfold month_day_ok in M.
    destruct (month_day _ r4) as [m d].
    pose proof (is_leap_cycles a b c e Hb' Hc He') as L.
    pose proof (days_before_year_cycles a b c e Hb' Hc He') as D.
    split.
    + apply valid_spec. cbn [year month day]. unfold days_in_month.
      rewrite L. lia.
    + unfold toordinal, ymd2ord, days_before_month. cbn [year month day].
      rewrite L, D. lia.
Qed.

Lemma ltb_max (d : date) :
  valid d = true -> d <> Datetime.max -> ltb d Datetime.max = true.
Proof.
  intros (Hy & Hm & Hd)%valid_spec Hne.
  destruct d as [y m dd]. cbn [year month day] in *.
  assert (Hdim : days_in_month y m <= 31).
  { unfold days_in_month. clear Hd Hne.
    month_case Hm; destruct (is_leap y); vm_compute; discriminate. }
  destruct (ltb _ Datetime.max) eqn:E; [reflexivity|].
  exfalso. apply Hne. unfold ltb in E. unfold Datetime.max.
  simpl in *. f_equal; lia.
Qed.

Lemma add_days_spec (d : date) (k : Z) :
  valid d = true -> 0 < k -> toordinal d + k <= MAXORDINAL ->
  exists r, add_days d k = Ok r /\ valid r = true /\
            toordinal r = toordinal d + k /\ ltb d r = true.
Proof.
  intros Hv Hk Hmax. pose proof (toordinal_range _ Hv) as Hr.
  unfold add_days.
  destruct (fromordinal_toordinal (toordinal d + k) ltac:(lia)) as [Hv' Ho].
  exists (fromordinal (toordinal d + k)). repeat split; try assumption.
  - replace ((0 <? toordinal d + k) && (toordinal d + k <=? MAXORDINAL))
      with true by lia. reflexivity.
  - apply toordinal_ltb; [assumption..|]. lia.
Qed.

(** C3 (amended): for every calendar date [d] other than 9999-12-31,
    [next_business_day d] returns [d] plus 3 days when [d] is a Friday,
    [d] plus 2 days when it is a Saturday and [d] plus 1 day otherwise; the
    result is a date strictly greater than [d] that is neither a Saturday
    nor a Sunday. *)
Theorem next_business_day_spec (d : Datetime.date) :
  Datetime.valid d = true -> d <> Datetime.max ->
  let k := if Datetime.weekday d =? 4 then 3
           else if Datetime.weekday d =? 5 then 2 else 1 in
  exists r,
    next_business_day d = Ok r /\
    Datetime.add_days d k = Ok r /\
    Datetime.valid r = true /\
    Datetime.toordinal r = Datetime.toordinal d + k /\
    Datetime.ltb d r = true /\
    Datetime.weekday r <> 5 /\ Datetime.weekday r <> 6.
Proof.
  intros Hv Hne k.
  pose proof (toordinal_range _ Hv) as Hr.
  pose proof (ltb_toordinal d Datetime.max Hv eq_refl (ltb_max _ Hv Hne)) as Hlt.
  change (toordinal Datetime.max) with 3652059 in Hlt.
  unfold MAXORDINAL in Hr.
  assert (Hk : 0 < k /\ toordinal d + k <= MAXORDINAL /\
               (toordinal d + k + 6) mod 7 <> 5 /\
               (toordinal d + k + 6) mod 7 <> 6).
  { subst k. unfold weekday, MAXORDINAL.
    destruct (Z.eqb_spec ((toordinal d + 6) mod 7) 4);
      [|destruct (Z.eqb_spec ((toordinal d + 6) mod 7) 5)]; divmod. }
  destruct Hk as (Hk & Hmax & H5 & H6).
  destruct (add_days_spec d k Hv Hk Hmax) as (r & Hr1 & Hr2 & Hr3 & Hr4).
  assert (Hwd : weekday r <> 5 /\ weekday r <> 6).
  { unfold weekday. rewrite Hr3. split; assumption. }
  exists r. repeat split; try assumption; try apply Hwd.
  unfold next_business_day. subst k.
  destruct (weekday d =? 4); [assumption|].
  destruct (weekday d =? 5); assumption.
Qed.

Example toordinal_2024_03_15 : toordinal (mkdate 2024 3 15) = 738960.
Proof. reflexivity. Qed.

Example next_business_day_friday :
  next_business_day (mkdate 2024 3 15) = Ok (mkdate 2024 3 18).
Proof. reflexivity. Qed.

Example next_business_day_leap :
  next_business_day (mkdate 2024 2 28) = Ok (mkdate 2024 2 29).
Proof. reflexivity. Qed.

Lemma next_business_day_spec_witness :
  exists r,
    next_business_day (Datetime.mkdate 2024 3 15) = Ok r /\
    Datetime.add_days (Datetime.mkdate 2024 3 15) 3 = Ok r /\
    Datetime.valid r = true /\
    Datetime.toordinal r = Datetime.toordinal (Datetime.mkdate 2024 3 15) + 3 /\
    Datetime.ltb (Datetime.mkdate 2024 3 15) r = true /\
    Datetime.weekday r <> 5 /\ Datetime.weekday r <> 6.
Proof.
  apply (next_business_day_spec (Datetime.mkdate 2024 3 15));
    [reflexivity | discriminate].
Defined.

(** C3 as stated fails on the last date of the calendar: 9999-12-31 is a
    Friday and three days later is out of the range of [date]. *)
Lemma next_business_day_overflow :
  Datetime.valid Datetime.max = true /\
  Datetime.weekday Datetime.max = 4 /\
  next_business_day Datetime.max = Raise OverflowError /\
  ~ (exists r, next_business_day Datetime.max = Ok r).
Proof.
  repeat split; try reflexivity. intros [r H]. discriminate H.
Qed.

End Calendar.

(** ** Rounding in binary64 *)

Section Binary64.
Import Float.

(** The number of binary digits of a positive number. *)
Lemma digits2_bounds (p : positive) :
  2 ^ (Zpos (digits2_pos p) - 1) <= Zpos p < 2 ^ Zpos (digits2_pos p).
Proof.
  induction p as [p IH|p IH|]; cbn [digits2_pos]; [| |cbn; lia].
  all: rewrite Pos2Z.inj_succ, Z.pow_succ_r by lia.
  all: replace (Z.succ (Zpos (digits2_pos p)) - 1)
         with (Z.succ (Zpos (digits2_pos p) - 1)) by lia.
  all: rewrite Z.pow_succ_r by lia.
  all: generalize dependent (2 ^ (Zpos (digits2_pos p) - 1)).
  all: generalize (2 ^ Zpos (digits2_pos p)); intros a b IH.
  - rewrite Pos2Z.inj_xI. lia.
  - rewrite Pos2Z.inj_xO. lia.
Qed.

(** Shifting to the right divides the significand by a power of two. *)
Lemma shr_1_m (mrs : shr_record) :
  0 <= shr_m mrs -> shr_m (shr_1 mrs) = shr_m mrs / 2.
Proof.
  destruct mrs as [m r s]. cbn [shr_m]. intros H.
  destruct m as [|[p|p|]|p]; cbn [shr_1 shr_m]; try lia; try reflexivity.
  - rewrite Pos2Z.inj_xI. Z.div_mod_to_equations. lia.
  - rewrite Pos2Z.inj_xO. Z.div_mod_to_equations. lia.
Qed.

Lemma iter_pos_shr_1 (n : positive) :
  forall mrs, 0 <= shr_m mrs ->
    shr_m (SpecFloat.iter_pos shr_1 n mrs) = shr_m mrs / 2 ^ Zpos n.
Proof.
  assert (P : forall x k, 0 <= x -> 0 <= x / 2 ^ k).
  { intros x k Hx. destruct (Z.le_gt_cases 0 k).
    - apply Z.div_pos; [lia|]. apply Z.pow_pos_nonneg; lia.
    - rewrite Z.pow_neg_r by lia. rewrite Z.div_0_r. lia. }
  induction n as [n IH|n IH|]; intros mrs H; cbn [SpecFloat.iter_pos].
  - assert (H1 : 0 <= shr_m (shr_1 mrs))
      by (rewrite shr_1_m by assumption; apply Z.div_pos; lia).
    assert (H2 : 0 <= shr_m (SpecFloat.iter_pos shr_1 n (shr_1 mrs)))
      by (rewrite IH by assumption; apply P; assumption).
    rewrite IH by assumption. rewrite IH by assumption.
    rewrite shr_1_m by assumption.
    rewrite !Z.div_div by (try apply Z.pow_pos_nonneg; lia).
    f_equal. replace (Zpos n~1) with (1 + Zpos n + Zpos n) by lia.
    rewrite !Z.pow_add_r by lia. change (2 ^ 1) with 2. ring.
  - assert (H2 : 0 <= shr_m (SpecFloat.iter_pos shr_1 n mrs))
      by (rewrite IH by assumption; apply P; assumption).
    rewrite IH by assumption. rewrite IH by assumption.
    rewrite !Z.div_div by (try apply Z.pow_pos_nonneg; lia).
    f_equal. replace (Zpos n~0) with (Zpos n + Zpos n) by lia.
    rewrite !Z.pow_add_r by lia. ring.
  - rewrite shr_1_m by assumption. reflexivity.
Qed.

Lemma shr_spec (mrs : shr_record) (e n : Z) :
  0 <= shr_m mrs -> 0 <= n ->
  shr_m (fst (shr mrs e n)) = shr_m mrs / 2 ^ n /\ snd (shr mrs e n) = e + n.
Proof.
  intros H Hn. destruct n as [|p|p]; cbn [shr fst snd]; [| |lia].
  - rewrite Z.div_1_r. lia.
  - rewrite iter_pos_shr_1 by assumption. lia.
Qed.

Lemma shr_m_of_loc (m : Z) (l : location) : shr_m (shr_record_of_loc m l) = m.
Proof. destruct l as [|[]]; reflexivity. Qed.

Lemma shr_53_bounds (p : positive) :
  let d := Zpos (digits2_pos p) in
  53 <= d -> 2 ^ 52 <= Zpos p / 2 ^ (d - 53) < 2 ^ 53.
Proof.
  intros d Hd. pose proof (digits2_bounds p) as [L U]. fold d in L, U.
  assert (Hn : 0 < 2 ^ (d - 53)) by (apply Z.pow_pos_nonneg; lia).
  split.
  - apply Z.div_le_lower_bound; [assumption|].
    rewrite <- Z.pow_add_r by lia.
    replace (d - 53 + 52) with (d - 1) by lia. assumption.
  - apply Z.div_lt_upper_bound; [assumption|].
    rewrite <- Z.pow_add_r by lia.
    replace (d - 53 + 53) with d by lia. assumption.
Qed.

Lemma digits2_lower (p : positive) (k : Z) :
  2 ^ k <= Zpos p -> k < Zpos (digits2_pos p).
Proof.
  intros H. pose proof (digits2_bounds p) as [_ U].
  destruct (Z.le_gt_cases 0 k); [|lia].
  apply (Z.pow_lt_mono_r_iff 2); lia.
Qed.

Lemma digits2_upper (p : positive) (k : Z) :
  0 <= k -> Zpos p < 2 ^ k -> Zpos (digits2_pos p) <= k.
Proof.
  intros Hk H. pose proof (digits2_bounds p) as [L _].
  assert (Zpos (digits2_pos p) - 1 < k); [|lia].
  apply (Z.pow_lt_mono_r_iff 2); lia.
Qed.

Lemma shr_fexp_normal (p : positive) (e : Z) (l : location) :
  let d := Zpos (digits2_pos p) in
  53 <= d -> -1021 <= d + e ->
  shr_m (fst (shr_fexp prec emax (Zpos p) e l)) = Zpos p / 2 ^ (d - 53) /\
  snd (shr_fexp prec emax (Zpos p) e l) = e + d - 53.
Proof.
  intros d Hd He. unfold shr_fexp. cbn [Zdigits2]. fold d.
  replace (fexp prec emax (d + e) - e) with (d - 53)
    by (unfold fexp, SpecFloat.emin, prec, emax; lia).
  destruct (shr_spec (shr_record_of_loc (Zpos p) l) e (d - 53)) as [-> ->];
    rewrite ?shr_m_of_loc; lia.
Qed.

Lemma round_nearest_even_bounds (m : Z) (l : location) :
  m <= round_nearest_even m l <= m + 1.
Proof.
  destruct l as [|[]]; cbn [round_nearest_even]; try lia.
  destruct (Z.even m); lia.
Qed.

(** A significand of at least 53 bits, not below the normal range, is
    rounded to one of exactly 53 bits; the exponent does not decrease. *)
Lemma binary_round_aux_normal (s : bool) (p : positive) (e : Z) (l : location) :
  2 ^ 52 <= Zpos p -> -1021 <= Zpos (digits2_pos p) + e ->
  exists m3 e3,
    binary_round_aux prec emax s (Zpos p) e l =
      (if e3 <=? 971 then S754_finite s m3 e3 else S754_infinity s) /\
    2 ^ 52 <= Zpos m3 /\ Zpos (digits2_pos p) + e - 53 <= e3.
Proof.
  intros Hp He.
  pose proof (digits2_lower p 52 Hp) as Hd.
  destruct (shr_fexp_normal p e l) as [M1 E1]; [lia|lia|].
  pose proof (shr_53_bounds p) as B1. cbv zeta in B1.
  unfold binary_round_aux.
  destruct (shr_fexp prec emax (Zpos p) e l) as [mrs1 e1]. cbn [fst snd] in M1, E1.
  pose proof (round_nearest_even_bounds (shr_m mrs1) (loc_of_shr_record mrs1)) as R.
  destruct (round_nearest_even _ _) as [|p2|p2]; [lia| |lia].
  assert (H2 : 2 ^ 52 <= Zpos p2) by lia.
  pose proof (digits2_lower p2 52 H2) as Hd2.
  destruct (shr_fexp_normal p2 e1 loc_Exact) as [M2 E2]; [lia|lia|].
  pose proof (shr_53_bounds p2) as B2. cbv zeta in B2.
  destruct (shr_fexp prec emax (Zpos p2) e1 loc_Exact) as [mrs2 e2].
  cbn [fst snd] in M2, E2.
  destruct (shr_m mrs2) as [|m3|m3]; [lia| |lia].
  exists m3, e2. split; [reflexivity|]. lia.
Qed.

(** Aligning a significand to a smaller exponent. *)
Lemma iter_xO (m d : positive) : Zpos (Pos.iter xO m d) = Zpos m * 2 ^ Zpos d.
Proof.
  induction d as [|d IH] using Pos.peano_ind.
  - cbn [Pos.iter]. change (2 ^ 1) with 2. lia.
  - rewrite Pos.iter_succ, Pos2Z.inj_succ, Z.pow_succ_r by lia.
    change (Zpos (Pos.iter xO m d)~0) with (2 * Zpos (Pos.iter xO m d)).
    rewrite IH. ring.
Qed.

Lemma shl_align_fst (m : positive) (e e' : Z) :
  e' <= e -> Zpos (fst (shl_align m e e')) = Zpos m * 2 ^ (e - e').
Proof.
  intros H. unfold shl_align. destruct (e' - e) as [|d|d] eqn:D; [|lia|].
  - replace (e - e') with 0 by lia. cbn [fst]. lia.
  - cbn [fst]. rewrite iter_xO. f_equal. f_equal. lia.
Qed.

Lemma shl_align_id (m : positive) (e e' : Z) :
  e <= e' -> shl_align m e e' = (m, e).
Proof.
  intros H. unfold shl_align. destruct (e' - e) eqn:D; try reflexivity. lia.
Qed.

(** A number with a 53-bit significand and an exponent from -53 on is at
    least 0.5; so is the sum of 0.6 and a positive number. *)
Lemma leb_0_5_normal (m : positive) (e : Z) :
  2 ^ 52 <= Zpos m -> -53 <= e ->
  leb c0_5 (if e <=? 971 then S754_finite false m e else S754_infinity false)
  = true.
Proof.
  intros Hm He. destruct (e <=? 971); [|reflexivity].
  unfold leb, SFleb, SFcompare, c0_5.
  destruct (Z.compare_spec (-53) e) as [_|_|G]; [|reflexivity|lia].
  change (Pos.compare_cont Eq 4503599627370496 m)
    with (Z.compare (2 ^ 52) (Zpos m)).
  destruct (Z.compare_spec (2 ^ 52) (Zpos m)) as [_|_|G];
    [reflexivity|reflexivity|]. lia.
Qed.

Lemma add_0_6_lower (m : positive) (e : Z) :
  leb c0_5 (add c0_6 (S754_finite false m e)) = true.
Proof.
  unfold add, c0_6, SFadd. cbn [cond_Zopp].
  set (ez := Z.min (-53) e).
  assert (Hez : ez <= -53) by lia.
  pose proof (shl_align_fst 5404319552844595 (-53) ez Hez) as A.
  set (a := fst (shl_align 5404319552844595 (-53) ez)) in *.
  set (b := fst (shl_align m e ez)).
  change (Zpos a + Zpos b) with (Zpos (a + b)). cbn [binary_normalize].
  assert (L : 2 ^ (-1 - ez) <= Zpos (a + b)).
  { rewrite Pos2Z.inj_add, A.
    replace (-53 - ez) with (-1 - ez - 52) by lia.
    assert (0 < 2 ^ (-1 - ez - 52)) by (apply Z.pow_pos_nonneg; lia).
    replace (2 ^ (-1 - ez)) with (2 ^ 52 * 2 ^ (-1 - ez - 52))
      by (rewrite <- Z.pow_add_r by lia; f_equal; lia).
    change (2 ^ 52) with 4503599627370496.
    generalize dependent (2 ^ (-1 - ez - 52)). intros x Hx.
    pose proof (Pos2Z.is_pos b). lia. }
  pose proof (digits2_lower _ _ L) as D.
  assert (L52 : 2 ^ 52 <= Zpos (a + b)).
  { etransitivity; [|exact L]. apply Z.pow_le_mono_r; lia. }
  unfold binary_round. rewrite shl_align_id
    by (unfold fexp, SpecFloat.emin, prec, emax; lia).
  assert (D' : -1021 <= Zpos (digits2_pos (a + b)) + ez) by lia.
  destruct (binary_round_aux_normal false (a + b) ez loc_Exact L52 D')
    as (m3 & e3 & -> & H3 & E3).
  apply leb_0_5_normal; [assumption|lia].
Qed.

Lemma binary_round_aux_sign (m e : Z) (l : location) :
  ltb (binary_round_aux prec emax false m e l) (of_Z 0) = false.
Proof.
  unfold binary_round_aux.
  destruct (shr_fexp prec emax m e l) as [mrs1 e1].
  destruct (shr_fexp prec emax _ e1 loc_Exact) as [mrs2 e2].
  destruct (shr_m mrs2); [reflexivity| |reflexivity].
  destruct (e2 <=? emax - prec); reflexivity.
Qed.

Lemma ltb_leb (a b : float) : ltb a b = true -> leb a b = true.
Proof.
  unfold ltb, leb, SFltb, SFleb.
  destruct (SFcompare a b) as [[]|]; intros H; try discriminate H; reflexivity.
Qed.

End Binary64.

(** ** The classifier *)

Section Classifier.
Import Float.

Lemma div_by_range (body rng : float) :
  leb rng (of_Z 0) = false -> exists ratio, div body rng = Ok ratio.
Proof.
  intros H. unfold div.
  destruct rng as [s|s| |s m e]; try (eexists; reflexivity).
  destruct s; discriminate H.
Qed.

Lemma ratio_sign (ratio : float) :
  ltb ratio c0_2 = false -> ltb ratio (of_Z 0) = false.
Proof.
  destruct ratio as [s|s| |s m e]; intros H; try reflexivity;
    destruct s; try reflexivity; discriminate H.
Qed.

Lemma half_sign (ratio : float) :
  ltb ratio (of_Z 0) = false ->
  exists half, div ratio (of_Z 2) = Ok half /\ ltb half (of_Z 0) = false.
Proof.
  intros H. exists (SFdiv prec emax ratio (of_Z 2)). split; [reflexivity|].
  change (of_Z 2) with (S754_finite false 4503599627370496 (-51)).
  destruct ratio as [s|s| |s m e]; try reflexivity.
  - destruct s; [discriminate H|reflexivity].
  - destruct s; [discriminate H|]. unfold SFdiv.
    destruct (SFdiv_core_binary _ _ _ _ _ _) as [[mz ez] lz].
    apply binary_round_aux_sign.
Qed.

Lemma confidence_bounds (half : float) :
  ltb half (of_Z 0) = false ->
  let conf := min c0_9 (add c0_6 half) in
  leb c0_5 conf = true /\ leb conf c0_9 = true.
Proof.
  intros H. cbv zeta. unfold min.
  destruct (ltb (add c0_6 half) c0_9) eqn:B; [|split; reflexivity].
  split; [|apply ltb_leb, B].
  destruct half as [s|s| |s m e].
  - reflexivity.
  - destruct s; [discriminate H|reflexivity].
  - discriminate B.
  - destruct s; [discriminate H|]. apply add_0_6_lower.
Qed.

(** C2: for every quadruple (open, high, low, close) of binary64 numbers
    [classify] returns, and the confidence it returns is at least 0.5 and
    at most 0.9. *)
Theorem classify_confidence (o h l c : Float.float) :
  exists sig conf reason,
    classify o h l c = Ok (sig, conf, reason) /\
    Float.leb Float.c0_5 conf = true /\
    Float.leb conf Float.c0_9 = true.
Proof.
  unfold classify.
  destruct (leb _ (of_Z 0)) eqn:R; [do 3 eexists; repeat split|].
  destruct (div_by_range (abs (sub c o)) _ R) as [ratio ->]. cbn [mbind result_bind].
  destruct (ltb ratio _) eqn:B; [do 3 eexists; repeat split|].
  destruct (half_sign ratio (ratio_sign ratio B)) as (half & -> & S).
  destruct (confidence_bounds half S) as [H1 H2].
  cbn [mbind result_bind].
  destruct (gtb c o); [do 3 eexists; split; [reflexivity | split; assumption]|].
  destruct (ltb c o); [do 3 eexists; split; [reflexivity | split; assumption]|].
  do 3 eexists; repeat split.
Qed.

(** The literals are the quotients, rounded, of the integers they are
    written with. *)
Example literals :
  c0_5 = of_ratio 1 2 /\ c0_9 = of_ratio 9 10 /\
  c0_6 = of_ratio 6 10 /\ c0_2 = of_ratio 2 10.
Proof. repeat split; vm_compute; reflexivity. Qed.

(** The two literal cases of the specification, and the values Python
    computes for them: [0.5], [0.8250000000000001] and
    [0.7374999999999999]. *)
Example classify_small_body :
  classify (of_Z 10) (of_Z 12) (of_Z 9) (of_ratio 101 10) =
  Ok ("Sideways", c0_5, "Small body vs range — indecision").
Proof. vm_compute. reflexivity. Qed.

Example classify_bullish :
  classify (of_Z 10) (of_Z 12) (of_Z 8) (of_ratio 118 10) =
  Ok ("Bullish", S754_finite false 7430939385161319 (-53), "Close above open").
Proof. vm_compute. reflexivity. Qed.

Example classify_bearish :
  classify (of_Z 10) (of_Z 12) (of_Z 8) (of_ratio 89 10) =
  Ok ("Bearish", S754_finite false 6642809450371481 (-53), "Close below open").
Proof. vm_compute. reflexivity. Qed.

(** [int(conf*100)] truncates the rounded product: [int(0.57*100)] is 56. *)
Example percent_values :
  percent (S754_finite false 7430939385161319 (-53)) = Ok 82 /\
  percent c0_9 = Ok 90 /\ percent c0_5 = Ok 50 /\
  percent (of_ratio 57 100) = Ok 56 /\ percent nan = Raise ValueError.
Proof. repeat split; vm_compute; reflexivity. Qed.

Example classify_capped :
  classify (of_Z 1) (of_ratio 13 10) (of_ratio 9 10) (of_ratio 125 100) =
  Ok ("Bullish", c0_9, "Close above open").
Proof. vm_compute. reflexivity. Qed.

End Classifier.

(** ** Normalisation of a frame *)

Section Normalize.
Context {E : Env}.

(** What the loop over the nine fields leaves: the columns it started from,
    then the fields that were missing, each once, with its default in every
    row. *)
Lemma add_defaults_spec (fields : list string) (df : frame) :
  exists added,
    columns (fold_left add_default fields df) = columns df ++ added /\
    nrows (fold_left add_default fields df) = nrows df /\
    NoDup added /\
    (forall c, c ∈ added <-> c ∈ fields /\ c ∉ columns df) /\
    (forall i j c, added !! j = Some c ->
       cell_at (fold_left add_default fields df) i (length (columns df) + j)
       = default_cell c) /\
    (forall i j, (j < length (columns df))%nat ->
       cell_at (fold_left add_default fields df) i j = cell_at df i j).
Proof.
  revert df. induction fields as [|f fields IH]; intros df.
  - exists []. simpl. rewrite app_nil_r. split_and!; try done.
    + constructor.
    + intros c. split; [intros H; inversion H | intros [H _]; inversion H].
  - simpl. destruct (decide (f ∈ columns df)) as [Hf | Hf].
    + assert (Hd : add_default df f = df).
      { unfold add_default. by rewrite bool_decide_eq_true_2. }
      rewrite Hd. destruct (IH df) as (added & H1 & H2 & H3 & H4 & H5 & H6).
      exists added. split_and!; try done.
      intros c. rewrite H4. split.
      * intros [Hc1 Hc2]. split; [by right | done].
      * intros [Hc1 Hc2]. split; [|done].
        apply elem_of_cons in Hc1 as [-> | Hc1]; [contradiction | done].
    + assert (Hd : add_default df f = append_column f (default_cell f) df).
      { unfold add_default. by rewrite bool_decide_eq_false_2. }
      rewrite Hd. destruct (IH (append_column f (default_cell f) df))
        as (added & H1 & H2 & H3 & H4 & H5 & H6).
      exists (f :: added). simpl columns in *. simpl nrows in *.
      rewrite <- app_assoc in H1. split_and!; try done.
      * constructor; [|done]. intros Hc. apply H4 in Hc as [_ Hc].
        apply Hc. apply elem_of_app. right. by left.
      * intros c. split.
        -- intros Hc. apply elem_of_cons in Hc as [-> | Hc]; [split; [by left | done]|].
           apply H4 in Hc as [Hc1 Hc2]. split; [by right|].
           intros Hc3. apply Hc2, elem_of_app. by left.
        -- intros [Hc1 Hc2]. apply elem_of_cons in Hc1 as [-> | Hc1]; [by left|].
           destruct (decide (c = f)) as [-> | Hne]; [by left|].
           right. apply H4. split; [done|].
           intros [Hc3 | Hc3%list_elem_of_singleton]%elem_of_app; contradiction.
      * intros i j c Hj. destruct j as [|j]; simpl in Hj.
        -- injection Hj as <-. rewrite Nat.add_0_r.
           rewrite H6 by (rewrite length_app; simpl; lia).
           simpl. rewrite Nat.ltb_irrefl. done.
        -- rewrite <- (H5 i j c Hj). f_equal.
           rewrite length_app. simpl. lia.
      * intros i j Hj. rewrite H6 by (rewrite length_app; simpl; lia).
        simpl. apply Nat.ltb_lt in Hj. by rewrite Hj.
Qed.

Lemma filter_label_absent (cols : list string) (g : nat -> cell) (c : string) :
  c ∉ cols ->
  List.filter (fun lc : string * cell => String.eqb (fst lc) c)
              (imap (fun j l => (l, g j)) cols) = [].
Proof.
  revert g. induction cols as [|l cols IH]; intros g Hc; [done|].
  simpl. destruct (String.eqb_spec l c) as [-> | Hne].
  - exfalso. apply Hc. by left.
  - apply IH. intros H. apply Hc. by right.
Qed.

Lemma filter_label_once (cols : list string) (g : nat -> cell) (c : string) (j : nat) :
  cols !! j = Some c ->
  (forall j', cols !! j' = Some c -> j' = j) ->
  List.filter (fun lc : string * cell => String.eqb (fst lc) c)
              (imap (fun j l => (l, g j)) cols) = [(c, g j)].
Proof.
  revert g j. induction cols as [|l cols IH]; intros g j Hj Hu; [done|].
  simpl. destruct j as [|j]; simpl in Hj.
  - injection Hj as ->. rewrite String.eqb_refl. f_equal.
    apply filter_label_absent. intros [k Hk]%list_elem_of_lookup.
    specialize (Hu (S k) Hk). discriminate.
  - destruct (String.eqb_spec l c) as [-> | Hne].
    + specialize (Hu 0%nat eq_refl). discriminate.
    + apply (IH (g ∘ S) j Hj). intros j' Hj'.
      specialize (Hu (S j') Hj'). lia.
Qed.

Lemma filter_label_present (cols : list string) (g : nat -> cell) (c : string) :
  c ∈ cols ->
  List.filter (fun lc : string * cell => String.eqb (fst lc) c)
              (imap (fun j l => (l, g j)) cols) <> [].
Proof.
  revert g. induction cols as [|l cols IH]; intros g Hc; [inversion Hc|].
  simpl. destruct (String.eqb_spec l c) as [-> | Hne]; [done|].
  apply IH. apply elem_of_cons in Hc as [-> | Hc]; [contradiction | done].
Qed.

Lemma row_get_present (cols : list string) (g : nat -> cell) (c : string) :
  c ∈ cols -> exists v, row_get (imap (fun j l => (l, g j)) cols) c = Ok v.
Proof.
  intros Hc. unfold row_get.
  pose proof (filter_label_present cols g c Hc) as H.
  destruct (List.filter _ _) as [|x [|y l]]; [done | eauto..].
Qed.

Lemma iterrows_defaults (fields : list string) (df : frame) (r : row) :
  r ∈ iterrows (fold_left add_default fields df) ->
  exists (g : nat -> cell) (added : list string),
    r = imap (fun j l => (l, g j)) (columns df ++ added) /\
    NoDup added /\
    (forall c, c ∈ added <-> c ∈ fields /\ c ∉ columns df) /\
    (forall j c, added !! j = Some c ->
       g (length (columns df) + j)%nat = default_cell c).
Proof.
  intros Hr.
  destruct (add_defaults_spec fields df) as (added & H1 & H2 & H3 & H4 & H5 & H6).
  set (df' := fold_left add_default _ _) in *. clearbody df'.
  unfold iterrows in Hr. apply list_elem_of_fmap in Hr as (i & Hr & _).
  exists (cell_at df' i), added.
  rewrite H1 in Hr. split; [exact Hr|]. split; [exact H3|]. split; [exact H4|].
  intros j c Hj. exact (H5 i j c Hj).
Qed.

(** The rows of a normalised frame. *)
Lemma iterrows_normalize (df : frame) (r : row) :
  r ∈ iterrows (normalize df) ->
  exists (g : nat -> cell) (added : list string),
    r = imap (fun j l => (l, g j)) (columns (rename_columns df) ++ added) /\
    NoDup added /\
    (forall c, c ∈ added <->
       c ∈ text_fields ++ numeric_fields /\ c ∉ columns (rename_columns df)) /\
    (forall j c, added !! j = Some c ->
       g (length (columns (rename_columns df)) + j)%nat = default_cell c).
Proof.
  exact (iterrows_defaults (text_fields ++ numeric_fields) (rename_columns df) r).
Qed.

Lemma row_get_default (df : frame) (r : row) (c : string) :
  r ∈ iterrows (normalize df) ->
  c ∈ text_fields ++ numeric_fields ->
  c ∉ columns (rename_columns df) ->
  row_get r c = Ok (Scalar (default_cell c)).
Proof.
  intros (g & added & -> & Hnd & Hadd & Hg)%iterrows_normalize Hc Hm.
  assert (Hin : c ∈ added) by (apply Hadd; done).
  apply list_elem_of_lookup in Hin as [k Hk].
  unfold row_get.
  rewrite (filter_label_once _ g c (length (columns (rename_columns df)) + k)).
  - cbn [snd map]. by rewrite (Hg k c Hk).
  - rewrite lookup_app_r by lia. rewrite <- Hk. f_equal. lia.
  - intros j' Hj'. destruct (decide (j' < length (columns (rename_columns df)))%nat) as [Hlt | Hge].
    + rewrite lookup_app_l in Hj' by done. exfalso. apply Hm.
      apply list_elem_of_lookup. eauto.
    + rewrite lookup_app_r in Hj' by lia.
      pose proof (NoDup_lookup _ _ _ _ Hnd Hj' Hk). lia.
Qed.

Lemma row_get_field (df : frame) (r : row) (c : string) :
  r ∈ iterrows (normalize df) ->
  c ∈ text_fields ++ numeric_fields ->
  exists v, row_get r c = Ok v.
Proof.
  intros Hr Hc. destruct (decide (c ∈ columns (rename_columns df))) as [Hin | Hm].
  - apply iterrows_normalize in Hr as (g & added & -> & _).
    apply row_get_present, elem_of_app. by left.
  - rewrite (row_get_default df r c Hr Hc Hm). eauto.
Qed.

Lemma ohlc_absent (r : row) (c : string) :
  c ∈ numeric_fields -> row_get r c = Ok (Scalar CNone) -> ohlc r = None.
Proof.
  intros Hc Hr. unfold ohlc, numeric_fields in *.
  repeat (apply elem_of_cons in Hc as [-> | Hc]); [..|inversion Hc];
    rewrite Hr; cbn [mbind result_bind py_float];
    repeat (destruct (_ ≫= py_float) as [?|?]; cbn [mbind result_bind]); try done.
Qed.

Lemma normalize_defaults (df : frame) (r : row) :
  r ∈ iterrows (normalize df) ->
  (forall c, c ∈ text_fields -> c ∉ columns (rename_columns df) ->
     row_get r c = Ok (Scalar (CStr "")) /\ text_of r c = Ok "") /\
  (forall c, c ∈ numeric_fields -> c ∉ columns (rename_columns df) ->
     row_get r c = Ok (Scalar CNone) /\
     py_float (Scalar CNone) = Raise TypeError /\
     CNone <> CFloat (Float.of_Z 0) /\ CNone <> CInt 0 /\
     ohlc r = None) /\
  (forall c, c ∈ text_fields ++ numeric_fields -> exists v, row_get r c = Ok v).
Proof.
  intros Hr. split_and!.
  - intros c Hc Hm.
    assert (Hd : default_cell c = CStr "").
    { unfold text_fields in Hc.
      repeat (apply elem_of_cons in Hc as [-> | Hc]); [..|inversion Hc]; done. }
    assert (Hg : row_get r c = Ok (Scalar (CStr ""))).
    { rewrite <- Hd. apply (row_get_default df); [done | | done].
      apply elem_of_app. by left. }
    split; [done|]. unfold text_of. by rewrite Hg.
  - intros c Hc Hm.
    assert (Hd : default_cell c = CNone).
    { unfold default_cell. by rewrite bool_decide_eq_true_2. }
    assert (Hg : row_get r c = Ok (Scalar CNone)).
    { rewrite <- Hd. apply (row_get_default df); [done | | done].
      apply elem_of_app. by right. }
    split_and!; try done. by apply (ohlc_absent r c).
  - intros c Hc. by apply (row_get_field df).
Qed.

(** The loop over a duplicate-free list of fields appends the missing
    ones in the order of the list. *)
Lemma add_defaults_columns (fields : list string) :
  NoDup fields ->
  forall df,
    columns (fold_left add_default fields df) =
    columns df ++ List.filter (fun c => bool_decide (c ∉ columns df)) fields.
Proof.
  induction 1 as [|f fields Hf _ IH]; intros df; simpl.
  - by rewrite app_nil_r.
  - rewrite IH. unfold add_default.
    destruct (decide (f ∈ columns df)) as [Hin | Hout].
    + rewrite (bool_decide_eq_true_2 _ Hin).
      rewrite (bool_decide_eq_false_2 (f ∉ columns df)) by tauto. done.
    + rewrite (bool_decide_eq_false_2 _ Hout).
      rewrite (bool_decide_eq_true_2 (f ∉ columns df)) by done.
      simpl. rewrite <- app_assoc. simpl. do 2 f_equal.
      apply filter_ext_in. intros c Hc%list_elem_of_In.
      apply bool_decide_ext. rewrite elem_of_app, list_elem_of_singleton.
      split; [tauto|]. intros H [? | ->]; [tauto | done].
Qed.

(** What the normalisation keeps and what it adds. *)
Lemma normalize_spec (df : frame) :
  let cols := map (fun c => str_lower (str_strip c)) (columns df) in
  columns (normalize df) =
    cols ++ List.filter (fun c => bool_decide (c ∉ cols))
                        (text_fields ++ numeric_fields) /\
  nrows (normalize df) = nrows df /\
  forall i j : nat,
    (j < length (columns df))%nat -> cell_at (normalize df) i j = cell_at df i j.
Proof.
  cbv zeta. unfold normalize.
  destruct (add_defaults_spec (text_fields ++ numeric_fields) (rename_columns df))
    as (added & _ & H2 & _ & _ & _ & H6).
  split_and!.
  - rewrite add_defaults_columns; [done|].
    apply (bool_decide_unpack _). by vm_compute.
  - exact H2.
  - intros i j Hj. rewrite H6; [done|]. simpl. by rewrite length_map.
Qed.

(** The rows [iterrows] yields: the cells of a row under the labels of
    the columns. *)
Lemma iterrows_labelled (df : frame) (i : nat) (r : row) :
  iterrows df !! i = Some r ->
  map fst r = columns df /\
  forall j : nat, (j < length (columns df))%nat ->
                  snd <$> r !! j = Some (cell_at df i j).
Proof.
  unfold iterrows. rewrite list_lookup_fmap.
  destruct (seq 0 (nrows df) !! i) as [k|] eqn:Hk; [|done].
  apply lookup_seq in Hk as [-> _]. intros [= <-]. simpl. split.
  - rewrite fmap_imap. apply list_eq. intros j.
    rewrite list_lookup_imap. by destruct (columns df !! j).
  - intros j Hj. unfold row. rewrite list_lookup_imap.
    destruct (lookup_lt_is_Some_2 (columns df) j Hj) as [c ->]. done.
Qed.

(** C8: when [pandas] has read a frame from a CSV file, [read_csv_safe]
    returns, whatever columns the frame has.  What it returns has the rows
    that were read, as many as before and with the cells they had, under
    the stripped and lower-cased column names, followed by a column for each
    of the nine fields that was missing; in every row, a text field whose
    column was missing reads as the empty string, a numeric field whose
    column was missing reads as [None], which is no number ([float] raises
    on it and the row has no OHLC), and looking up any of the nine fields
    does not raise. *)
Theorem read_csv_safe_defaults (m : fs) (p : path) (text : string) (df : frame) :
  read_text m p = Ok text ->
  pd_read_csv text = Ok df ->
  exists df',
    read_csv_safe m p = Ok df' /\
    nrows df' = nrows df /\
    length (iterrows df') = nrows df /\
    columns df' =
      map (fun c => str_lower (str_strip c)) (columns df) ++
      List.filter
        (fun c => bool_decide
                    (c ∉ map (fun c => str_lower (str_strip c)) (columns df)))
        ["symbol"; "description"; "exchange"; "sector"; "industry";
         "open"; "high"; "low"; "close"] /\
    (forall i j : nat, (j < length (columns df))%nat ->
       cell_at df' i j = cell_at df i j) /\
    (forall (i : nat) r, iterrows df' !! i = Some r ->
       map fst r = columns df' /\
       forall j : nat, (j < length (columns df'))%nat ->
                       snd <$> r !! j = Some (cell_at df' i j)) /\
    forall r, r ∈ iterrows df' ->
      (forall c, c ∈ text_fields -> c ∉ columns (rename_columns df) ->
         row_get r c = Ok (Scalar (CStr "")) /\ text_of r c = Ok "") /\
      (forall c, c ∈ numeric_fields -> c ∉ columns (rename_columns df) ->
         row_get r c = Ok (Scalar CNone) /\
         py_float (Scalar CNone) = Raise TypeError /\
         CNone <> CFloat (Float.of_Z 0) /\ CNone <> CInt 0 /\
         ohlc r = None) /\
      (forall c, c ∈ text_fields ++ numeric_fields ->
         exists v, row_get r c = Ok v).
Proof.
  intros Ht Hdf. exists (normalize df).
  destruct (normalize_spec df) as (Hcols & Hrows & Hcells).
  split_and!.
  - unfold read_csv_safe. rewrite Ht. cbn [mbind result_bind].
    rewrite Hdf. reflexivity.
  - exact Hrows.
  - unfold iterrows. by rewrite length_map, length_seq.
  - exact Hcols.
  - exact Hcells.
  - apply iterrows_labelled.
  - apply normalize_defaults.
Qed.

End Normalize.

Lemma read_csv_safe_defaults_witness :
  exists df',
    read_csv_safe (E:=example_env_bare) example_fs_bare ["Data"; "bare.csv"]
      = Ok df' /\
    nrows df' = nrows example_bare_frame /\
    length (iterrows df') = nrows example_bare_frame /\
    columns df' =
      map (fun c => str_lower (str_strip c)) (columns example_bare_frame) ++
      List.filter
        (fun c => bool_decide
                    (c ∉ map (fun c => str_lower (str_strip c))
                             (columns example_bare_frame)))
        ["symbol"; "description"; "exchange"; "sector"; "industry";
         "open"; "high"; "low"; "close"] /\
    (forall i j : nat, (j < length (columns example_bare_frame))%nat ->
       cell_at df' i j = cell_at example_bare_frame i j) /\
    (forall (i : nat) r, iterrows df' !! i = Some r ->
       map fst r = columns df' /\
       forall j : nat, (j < length (columns df'))%nat ->
                       snd <$> r !! j = Some (cell_at df' i j)) /\
    forall r, r ∈ iterrows df' ->
      (forall c, c ∈ text_fields ->
         c ∉ columns (rename_columns example_bare_frame) ->
         row_get r c = Ok (Scalar (CStr "")) /\
         text_of (E:=example_env_bare) r c = Ok "") /\
      (forall c, c ∈ numeric_fields ->
         c ∉ columns (rename_columns example_bare_frame) ->
         row_get r c = Ok (Scalar CNone) /\
         py_float (E:=example_env_bare) (Scalar CNone) = Raise TypeError /\
         CNone <> CFloat (Float.of_Z 0) /\ CNone <> CInt 0 /\
         ohlc (E:=example_env_bare) r = None) /\
      (forall c, c ∈ text_fields ++ numeric_fields ->
         exists v, row_get r c = Ok v).
Proof.
  apply (read_csv_safe_defaults (E:=example_env_bare) example_fs_bare
           ["Data"; "bare.csv"]
           ("Symbol,Open " +:+ LF +:+ "AAA,10" +:+ LF) example_bare_frame).
  - vm_compute. reflexivity.
  - reflexivity.
Defined.

(** ** The dataset locator *)

Section Locator.
Context {E : Env}.

Lemma date_ltb_spec (a b : Datetime.date) :
  Datetime.ltb a b = true <->
  Datetime.year a < Datetime.year b \/
  (Datetime.year a = Datetime.year b /\
   (Datetime.month a < Datetime.month b \/
    (Datetime.month a = Datetime.month b /\ Datetime.day a < Datetime.day b))).
Proof. unfold Datetime.ltb. lia. Qed.

Lemma date_ltb_asym (a b : Datetime.date) :
  Datetime.ltb a b = true -> Datetime.ltb b a = false.
Proof.
  intros H%date_ltb_spec. apply not_true_iff_false.
  intros H'%date_ltb_spec. lia.
Qed.

Lemma date_ltb_negtrans (a b c : Datetime.date) :
  Datetime.ltb a b = false -> Datetime.ltb b c = false ->
  Datetime.ltb a c = false.
Proof.
  intros H1%not_true_iff_false H2%not_true_iff_false.
  apply not_true_iff_false. intros H3%date_ltb_spec.
  rewrite date_ltb_spec in H1, H2. lia.
Qed.

Lemma elem_of_insert_desc {A : Type} (x y : Datetime.date * A)
    (l : list (Datetime.date * A)) :
  y ∈ insert_desc x l <-> y = x \/ y ∈ l.
Proof.
  induction l as [|z l IH]; simpl.
  - rewrite list_elem_of_singleton, elem_of_nil. tauto.
  - destruct (Datetime.ltb (fst x) (fst z)).
    + rewrite !elem_of_cons, IH. tauto.
    + rewrite !elem_of_cons. tauto.
Qed.

Lemma elem_of_sort_desc {A : Type} (y : Datetime.date * A)
    (l : list (Datetime.date * A)) :
  y ∈ sort_desc l <-> y ∈ l.
Proof.
  induction l as [|x l IH]; [done|]. simpl.
  rewrite elem_of_insert_desc, elem_of_cons, IH. tauto.
Qed.

Lemma date_ltb_irrefl (a : Datetime.date) : Datetime.ltb a a = false.
Proof. apply not_true_iff_false. intros H%date_ltb_spec. lia. Qed.

Lemma insert_desc_head_max {A : Type} (x : Datetime.date * A)
    (s : list (Datetime.date * A)) :
  head_max s -> head_max (insert_desc x s).
Proof.
  destruct s as [|h t]; simpl.
  - intros _ y ->%list_elem_of_singleton. apply date_ltb_irrefl.
  - intros Hs. destruct (Datetime.ltb (fst x) (fst h)) eqn:Hxh; simpl.
    + intros y [-> | Hy]%elem_of_cons; [apply date_ltb_irrefl|].
      apply elem_of_insert_desc in Hy as [-> | Hy].
      * by apply date_ltb_asym.
      * apply Hs. by right.
    + intros y [-> | Hy]%elem_of_cons; [apply date_ltb_irrefl|].
      apply (date_ltb_negtrans _ (fst h)); [done | by apply Hs].
Qed.

Lemma sort_desc_head_max {A : Type} (l : list (Datetime.date * A)) :
  head_max (sort_desc l).
Proof.
  induction l as [|x l IH]; [done|]. by apply insert_desc_head_max.
Qed.

Lemma sort_desc_nil {A : Type} (l : list (Datetime.date * A)) :
  sort_desc l = [] -> l = [].
Proof.
  intros H. destruct l as [|x l]; [done|].
  assert (Hx : x ∈ sort_desc (x :: l)) by (apply elem_of_sort_desc; by left).
  rewrite H in Hx. inversion Hx.
Qed.

Lemma sort_desc_head {A : Type} (l t : list (Datetime.date * A))
    (h : Datetime.date * A) :
  sort_desc l = h :: t ->
  h ∈ l /\ forall y, y ∈ l -> Datetime.ltb (fst h) (fst y) = false.
Proof.
  intros H. pose proof (sort_desc_head_max l) as Hm. rewrite H in Hm.
  split.
  - apply elem_of_sort_desc. rewrite H. by left.
  - intros y Hy. apply Hm. rewrite <- H. by apply elem_of_sort_desc.
Qed.

(** The loop collects the matching directories with their dates, in order,
    unless one of the names is not a date. *)
Lemma strptime_raises (s : string) (e : exn) :
  strptime s = Raise e -> e = ValueError.
Proof.
  unfold strptime, Datetime.new. intros H.
  repeat (case_match; try congruence).
Qed.

Lemma candidates_ok (m : fs) (ps : list path) (cs : list (Datetime.date * path)) :
  candidates m ps = Ok cs ->
  map snd cs = List.filter (fun p => is_dir m p && date_pattern (name p)) ps /\
  Forall (fun dp => strptime (name (snd dp)) = Ok (fst dp)) cs.
Proof.
  revert cs. induction ps as [|p ps IH]; intros cs; simpl.
  - intros [= <-]. split; [done | constructor].
  - destruct (is_dir m p && date_pattern (name p)); [|apply IH].
    destruct (strptime (name p)) as [d|e] eqn:Hd; [|done].
    cbn [mbind result_bind].
    destruct (candidates m ps) as [cs'|e]; [|done]. cbn [mbind result_bind].
    intros [= <-]. destruct (IH cs' eq_refl) as [H1 H2].
    split; [simpl; by rewrite H1 | by constructor].
Qed.

Lemma candidates_total (m : fs) (ps : list path) :
  (forall p, p ∈ List.filter (fun p => is_dir m p && date_pattern (name p)) ps ->
             exists d, strptime (name p) = Ok d) ->
  exists cs, candidates m ps = Ok cs.
Proof.
  induction ps as [|p ps IH]; intros H; simpl; [eauto|].
  simpl in H. destruct (is_dir m p && date_pattern (name p)).
  - destruct (H p) as [d ->]; [by left|].
    destruct IH as [cs ->]; [intros q Hq; apply H; by right|].
    cbn [mbind result_bind]. eauto.
  - apply IH, H.
Qed.

Lemma candidates_raises (m : fs) (ps : list path) (e : exn) :
  candidates m ps = Raise e -> e = ValueError.
Proof.
  induction ps as [|p ps IH]; simpl; [done|].
  destruct (is_dir m p && date_pattern (name p)); [|apply IH].
  destruct (strptime (name p)) as [d|e'] eqn:Hd; cbn [mbind result_bind].
  - destruct (candidates m ps) as [cs'|e'']; cbn [mbind result_bind]; [done|].
    intros [= <-]. by apply IH.
  - intros [= <-]. by apply strptime_raises in Hd.
Qed.

Lemma children_dir (m : fs) (p : path) :
  is_dir m p = true -> iterdir m p = Ok (children m p).
Proof.
  unfold children, iterdir, is_dir.
  destruct (lookup_path m p) as [[|?]|]; done.
Qed.

(** C4 (amended): the locator fails with the no-data error exactly when
    [Data/] is absent or is a directory without any subdirectory whose name
    the pattern accepts; and when there are such subdirectories and each of
    their names is a calendar date, it returns one of them, with its date,
    and no other one has a later date. *)
Theorem find_latest_date_folder_spec (m : fs) :
  ((exists msg, find_latest_date_folder m = Raise (SystemExit msg)) <->
   (m !! DATA_DIR = None \/ (m !! DATA_DIR = Some Dir /\ dated_subdirs m = []))) /\
  (m !! DATA_DIR = Some Dir ->
   dated_subdirs m <> [] ->
   (forall p, p ∈ dated_subdirs m -> exists d, strptime (name p) = Ok d) ->
   exists p d,
     find_latest_date_folder m = Ok (p, d) /\
     p ∈ dated_subdirs m /\ strptime (name p) = Ok d /\
     forall p' d', p' ∈ dated_subdirs m -> strptime (name p') = Ok d' ->
                   Datetime.ltb d d' = false).
Proof.
  unfold find_latest_date_folder, dated_subdirs, exists_.
  change (lookup_path m DATA_DIR) with (m !! DATA_DIR).
  destruct (m !! DATA_DIR) as [[|text]|] eqn:Hroot; cbn [negb].
  - (* a directory *)
    rewrite (children_dir m DATA_DIR) by (unfold is_dir; simpl; by rewrite Hroot).
    cbn [mbind result_bind].
    set (ps := children m DATA_DIR).
    destruct (candidates m ps) as [cs|e] eqn:Hcs; cbn [mbind result_bind].
    + destruct (candidates_ok _ _ _ Hcs) as [Hps Hdates].
      destruct (sort_desc cs) as [|[d p] t] eqn:Hsort.
      * apply sort_desc_nil in Hsort. subst cs. simpl in Hps. split.
        -- split; [intros _; right; by rewrite <- Hps | eauto].
        -- intros _ Hne. by rewrite <- Hps in Hne.
      * destruct (sort_desc_head _ _ _ Hsort) as [Hin Hmax]. split.
        -- split; [intros [msg [=]]|].
           intros [[=] | [_ Hnil]]. rewrite <- Hps in Hnil.
           destruct cs; [inversion Hin | done].
        -- intros _ _ _. exists p, d. split_and!; [done | | |].
           ++ rewrite <- Hps. apply list_elem_of_fmap. by exists (d, p).
           ++ rewrite Forall_forall in Hdates. apply (Hdates (d, p) Hin).
           ++ intros p' d' Hp' Hd'. rewrite <- Hps in Hp'.
              apply list_elem_of_fmap in Hp' as ([d'' p''] & -> & Hp').
              rewrite Forall_forall in Hdates.
              pose proof (Hdates _ Hp') as Hd''.
              cbn [fst snd] in Hd', Hd''. rewrite Hd' in Hd''. injection Hd'' as ->.
              apply (Hmax _ Hp').
    + apply candidates_raises in Hcs as Hv. subst e. split.
      * split; [intros [msg [=]]|]. intros [[=] | [_ Hnil]].
        destruct (candidates_total m ps) as [cs Hcs']; [|congruence].
        rewrite Hnil. intros p Hp. inversion Hp.
      * intros _ _ Hall.
        destruct (candidates_total m ps Hall) as [cs Hcs']. congruence.
  - (* a regular file *)
    assert (Hit : iterdir m DATA_DIR = Raise OSError).
    { unfold iterdir. simpl. by rewrite Hroot. }
    rewrite Hit. cbn [mbind result_bind]. split; [|done].
    split; [intros [msg [=]] | intros [[=] | [[=] _]]].
  - (* absent *)
    split; [|done]. split; [by left | eauto].
Qed.

End Locator.

Lemma find_latest_date_folder_spec_witness :
  example_fs !! DATA_DIR = Some Dir /\
  dated_subdirs (E:=example_env) example_fs <> [] /\
  (forall p, p ∈ dated_subdirs (E:=example_env) example_fs -> exists d, strptime (E:=example_env) (name p) = Ok d) /\
  exists p d,
    find_latest_date_folder (E:=example_env) example_fs = Ok (p, d) /\
    p ∈ dated_subdirs (E:=example_env) example_fs /\ strptime (E:=example_env) (name p) = Ok d /\
    forall p' d', p' ∈ dated_subdirs (E:=example_env) example_fs -> strptime (E:=example_env) (name p') = Ok d' ->
                  Datetime.ltb d d' = false.
Proof.
  assert (H1 : example_fs !! DATA_DIR = Some Dir) by (vm_compute; reflexivity).
  assert (H2 : dated_subdirs (E:=example_env) example_fs <> []) by (vm_compute; discriminate).
  assert (H3 : forall p, p ∈ dated_subdirs (E:=example_env) example_fs ->
                         exists d, strptime (E:=example_env) (name p) = Ok d).
  { intros p Hp. vm_compute in Hp.
    repeat (apply elem_of_cons in Hp as [-> | Hp]);
      [eexists; vm_compute; reflexivity.. | inversion Hp]. }
  split_and!; [exact H1 | exact H2 | exact H3 |].
  exact (proj2 (find_latest_date_folder_spec (E:=example_env) example_fs) H1 H2 H3).
Defined.

(** C4 as stated fails when a folder carries a well-formed name that is not
    a date: the locator then raises [ValueError]; it neither returns the
    latest folder nor fails with the no-data error. *)
Lemma find_latest_date_folder_bad_date :
  example_fs_bad_date !! DATA_DIR = Some Dir /\
  dated_subdirs (E:=example_env) example_fs_bad_date <> [] /\
  find_latest_date_folder (E:=example_env) example_fs_bad_date = Raise ValueError.
Proof. vm_compute. split_and!; [reflexivity | discriminate | reflexivity]. Qed.

(** ** The result monad *)

Lemma bind_Ok {A B : Type} (r : result A) (k : A -> result B) (b : B) :
  r ≫= k = Ok b <-> exists a, r = Ok a /\ k a = Ok b.
Proof.
  destruct r as [a|e]; cbn [mbind result_bind].
  - split; [eauto | by intros (a' & [= <-] & H)].
  - split; [done | by intros (a & [=] & _)].
Qed.

Lemma foldM_invariant {A B : Type} (P : B -> Prop) (f : B -> A -> result B)
    (l : list A) :
  (forall b a b', f b a = Ok b' -> P b -> P b') ->
  forall b b', foldM f b l = Ok b' -> P b -> P b'.
Proof.
  intros Hf. induction l as [|x l IH]; simpl; intros b b'.
  - by intros [= <-].
  - intros (b1 & H1 & H2)%bind_Ok Hb. apply (IH b1 b' H2), (Hf b x b1 H1 Hb).
Qed.

(** ** Paths *)

Lemma split_path_app (p : path) (n : string) : split_path (p ++ [n]) = Some (p, n).
Proof.
  induction p as [|x p IH]; [done|]. simpl. rewrite IH.
  destruct (p ++ [n]) eqn:E; [by destruct p | done].
Qed.

Lemma split_path_Some (k p : path) (n : string) :
  split_path k = Some (p, n) -> k = p ++ [n].
Proof.
  revert p. induction k as [|x k IH]; intros p; [done|]. simpl.
  destruct k as [|y k]; [by intros [= <- <-]|].
  destruct (split_path (y :: k)) as [[q n']|]; [|done].
  intros [= <- <-]. simpl. f_equal. by apply IH.
Qed.

Lemma name_app (p : path) (n : string) : name (p ++ [n]) = n.
Proof. unfold name. by rewrite split_path_app. Qed.

Lemma parent_app (p : path) (n : string) : parent (p ++ [n]) = p.
Proof. unfold parent. by rewrite split_path_app. Qed.

Lemma split_path_None (k : path) : split_path k = None -> k = [].
Proof.
  induction k as [|x k IH]; [done|]. simpl.
  destruct k as [|y k]; [done|].
  destruct (split_path (y :: k)) as [[q n]|]; [done|].
  intros _. by specialize (IH eq_refl).
Qed.

Lemma path_parent_name (k : path) : k <> [] -> k = parent k ++ [name k].
Proof.
  intros Hk. unfold parent, name.
  destruct (split_path k) as [[p n]|] eqn:E; [by apply split_path_Some|].
  by apply split_path_None in E.
Qed.

(** ** Writing *)

Lemma write_text_Ok (p : path) (text : string) (m m' : fs) :
  write_text p text m = Ok m' -> m' = <[p := File text]> m.
Proof.
  unfold write_text. destruct p; [done|].
  destruct (is_dir m _); [|done].
  destruct (m !! _) as [[|?]|]; by intros [= <-].
Qed.

(** [mkdir_from] keeps what is there and adds directories only, each a
    proper extension of [done] on the way to [done ++ todo]. *)
Lemma mkdir_from_spec (todo done : path) (m m' : fs) :
  mkdir_from done todo m = Ok m' ->
  forall k,
    (forall e, m !! k = Some e -> m' !! k = Some e) /\
    (forall e, m' !! k = Some e ->
       m !! k = Some e \/
       (e = Dir /\ k <> done /\ done `prefix_of` k /\ k `prefix_of` done ++ todo)).
Proof.
  revert done m. induction todo as [|n rest IH]; intros done m; simpl.
  - intros [= <-] k. split; [done | by left].
  - destruct (m !! (done ++ [n])) as [[|?]|] eqn:E; [| done |].
    + intros H k. destruct (IH _ _ H k) as [H1 H2]. split; [done|].
      intros e He. destruct (H2 e He) as [? | (-> & Hk1 & Hk2 & Hk3)]; [by left|].
      right. rewrite <- app_assoc in Hk3. split_and!; [done | | | done].
      * intros ->. apply prefix_length in Hk2. rewrite length_app in Hk2.
        simpl in Hk2. lia.
      * etrans; [|done]. by apply prefix_app_r.
    + intros H k. destruct (IH _ _ H k) as [H1 H2]. split.
      * intros e He. apply H1. rewrite lookup_insert_ne; [done|].
        intros <-. congruence.
      * intros e He.
        assert (Hd : done ++ [n] <> done).
        { intros Hd. apply (f_equal length) in Hd. rewrite length_app in Hd.
          simpl in Hd. lia. }
        destruct (H2 e He) as [He' | (-> & Hk1 & Hk2 & Hk3)].
        -- destruct (decide (k = done ++ [n])) as [-> | Hne].
           ++ rewrite lookup_insert_eq in He'. injection He' as <-.
              right. split_and!; [done | done | by apply prefix_app_r |].
              exists rest. by rewrite <- app_assoc.
           ++ rewrite lookup_insert_ne in He' by done. by left.
        -- right. rewrite <- app_assoc in Hk3. split_and!; [done | | | done].
           ++ intros ->. apply prefix_length in Hk2. rewrite length_app in Hk2.
              simpl in Hk2. lia.
           ++ etrans; [|done]. by apply prefix_app_r.
Qed.

Lemma mkdir_p_spec (p : path) (m m' : fs) :
  mkdir_p p m = Ok m' ->
  forall k,
    (forall e, m !! k = Some e -> m' !! k = Some e) /\
    (forall e, m' !! k = Some e ->
       m !! k = Some e \/ (e = Dir /\ k <> [] /\ k `prefix_of` p)).
Proof.
  intros H k. destruct (mkdir_from_spec _ _ _ _ H k) as [H1 H2].
  split; [done|]. intros e He.
  destruct (H2 e He) as [? | (-> & ? & _ & ?)]; [by left | by right].
Qed.

(** [write_html] leaves the page at [p], keeps the other entries, and adds
    directories on the way to [p] only. *)
Lemma write_html_spec (p : path) (html : string) (m m' : fs) :
  write_html p html m = Ok m' ->
  m' !! p = Some (File html) /\
  forall k, k <> p ->
    (forall e, m !! k = Some e -> m' !! k = Some e) /\
    (forall e, m' !! k = Some e ->
       m !! k = Some e \/ (e = Dir /\ k <> [] /\ k `prefix_of` parent p)).
Proof.
  unfold write_html. intros (m1 & Hm1 & ->%write_text_Ok)%bind_Ok.
  split; [by rewrite lookup_insert_eq|].
  intros k Hk. rewrite lookup_insert_ne by done.
  apply (mkdir_p_spec _ _ _ Hm1).
Qed.

(** ** Strings *)

Lemma of_string_app (s t : string) :
  Str.of_string (s +:+ t) = Str.of_string s ++ Str.of_string t.
Proof. induction s as [|c s IH]; simpl; [done | by rewrite IH]. Qed.

Lemma to_string_app (s t : list ascii) :
  Str.to_string (s ++ t) = Str.to_string s +:+ Str.to_string t.
Proof. induction s as [|c s IH]; simpl; [done | by rewrite IH]. Qed.

Lemma str_app_assoc (a b c : string) : (a +:+ b) +:+ c = a +:+ b +:+ c.
Proof.
  induction a as [|x a IH]; [done|].
  change (String x ((a +:+ b) +:+ c) = String x (a +:+ b +:+ c)).
  by rewrite IH.
Qed.

Lemma to_of_string (s : string) : Str.to_string (Str.of_string s) = s.
Proof. apply string_of_list_ascii_of_string. Qed.

Lemma of_to_string (s : list ascii) : Str.of_string (Str.to_string s) = s.
Proof. apply list_ascii_of_string_of_list_ascii. Qed.

Lemma lines_from_line (s r cur : list ascii) :
  Forall (fun c => is_LF c = false) s ->
  lines_from cur (s ++ Str.of_string LF ++ r) =
  Str.to_string (rev cur ++ s) :: lines_from [] r.
Proof.
  revert cur. induction s as [|c s IH]; intros cur Hs; simpl.
  - by rewrite app_nil_r.
  - inversion Hs as [|? ? Hc Hs']; subst. rewrite Hc, IH by done.
    simpl. by rewrite <- app_assoc.
Qed.

(** ** robots.txt *)

Section Robots.
Context {E : Env}.

Lemma robots_txt_lines :
  LF_free BASE_URL ->
  str_lines robots_txt =
  ["Sitemap: " +:+ BASE_URL +:+ "/sitemap.xml"; "User-agent: *"; "Allow: /"].
Proof.
  intros Hb. unfold str_lines, robots_txt.
  rewrite !of_string_app.
  rewrite (app_assoc (Str.of_string BASE_URL)), (app_assoc (Str.of_string "Sitemap: ")).
  rewrite lines_from_line.
  - rewrite (lines_from_line (Str.of_string "User-agent: *")) by (repeat constructor).
    rewrite <- (app_nil_r (Str.of_string LF)).
    rewrite (lines_from_line (Str.of_string "Allow: /")) by (repeat constructor).
    simpl rev. rewrite !app_nil_l, !to_string_app, !to_of_string. done.
  - apply Forall_app. split; [repeat constructor|].
    apply Forall_app. split; [done | repeat constructor].
Qed.

(** C9 (amended): the build leaves a [robots.txt] of three lines,
    [Sitemap: {base_url}/sitemap.xml], [User-agent: *] and [Allow: /], each
    ended by a newline. *)
Theorem robots_txt_spec (m m' : fs) :
  main m = Ok m' ->
  m' !! (DIST ++ ["robots.txt"]) = Some (File robots_txt) /\
  robots_txt =
    ("Sitemap: " +:+ BASE_URL +:+ "/sitemap.xml" +:+ LF) +:+
    ("User-agent: *" +:+ LF) +:+ ("Allow: /" +:+ LF) /\
  (LF_free BASE_URL ->
   str_lines robots_txt =
   ["Sitemap: " +:+ BASE_URL +:+ "/sitemap.xml"; "User-agent: *"; "Allow: /"]).
Proof.
  unfold main.
  intros ([date_dir date_obj] & _ & (m1 & _ & (m2 & _ & (m3 & _ &
          (m4 & ->%write_text_Ok & ->%write_text_Ok)%bind_Ok)%bind_Ok)%bind_Ok)%bind_Ok)%bind_Ok.
  split_and!.
  - rewrite lookup_insert_ne by done. by rewrite lookup_insert_eq.
  - unfold robots_txt. by rewrite !str_app_assoc.
  - apply robots_txt_lines.
Qed.

End Robots.

Lemma example_site_built : main (E:=example_env) example_fs = Ok example_site.
Proof.
  assert (H : match main (E:=example_env) example_fs with
              | Ok _ => true
              | Raise _ => false
              end = true) by (vm_compute; reflexivity).
  unfold example_site. destruct (main example_fs); [reflexivity | discriminate].
Defined.

Lemma robots_txt_spec_witness :
  main (E:=example_env) example_fs = Ok example_site /\
  example_site !! (DIST ++ ["robots.txt"]) = Some (File (robots_txt (E:=example_env))) /\
  robots_txt (E:=example_env) =
    ("Sitemap: " +:+ BASE_URL (E:=example_env) +:+ "/sitemap.xml" +:+ LF) +:+
    ("User-agent: *" +:+ LF) +:+ ("Allow: /" +:+ LF) /\
  (LF_free (BASE_URL (E:=example_env)) ->
   str_lines (robots_txt (E:=example_env)) =
   ["Sitemap: " +:+ BASE_URL (E:=example_env) +:+ "/sitemap.xml"; "User-agent: *"; "Allow: /"]).
Proof.
  split; [exact example_site_built|].
  exact (robots_txt_spec (E:=example_env) example_fs example_site example_site_built).
Defined.

(** C9 as stated fails: the file has three lines, not two, and the second
    one is [User-agent: *]. *)
Lemma robots_txt_not_two_lines :
  main (E:=example_env) example_fs = Ok example_site /\
  exists text,
    example_site !! (DIST ++ ["robots.txt"]) = Some (File text) /\
    length (str_lines text) = 3%nat /\
    str_lines text !! 1%nat = Some "User-agent: *" /\
    str_lines text !! 1%nat <> Some "User-agent: * / Allow: /".
Proof.
  split; [exact example_site_built|].
  eexists. split; [vm_compute; reflexivity|].
  vm_compute. split_and!; [reflexivity | reflexivity | discriminate].
Qed.

(** ** Listing a directory *)

Lemma map_fmap (A B : Type) (f : A -> B) (l : list A) : map f l = f <$> l.
Proof. induction l; [done | simpl; by f_equal]. Qed.

Lemma elem_of_List_filter {A : Type} (f : A -> bool) (l : list A) (x : A) :
  x ∈ List.filter f l <-> f x = true /\ x ∈ l.
Proof. rewrite !list_elem_of_In, filter_In. tauto. Qed.

Lemma NoDup_List_filter {A : Type} (f : A -> bool) (l : list A) :
  NoDup l -> NoDup (List.filter f l).
Proof. rewrite !NoDup_ListNoDup. apply List.NoDup_filter. Qed.

Lemma elem_of_keys (m : fs) (k : path) :
  k ∈ map fst (map_to_list m) <-> is_Some (m !! k).
Proof.
  rewrite map_fmap, list_elem_of_fmap. split.
  - intros ([k' e] & -> & H%elem_of_map_to_list). eauto.
  - intros [e He]. exists (k, e). split; [done | by apply elem_of_map_to_list].
Qed.

Lemma NoDup_keys (m : fs) : NoDup (map fst (map_to_list m)).
Proof. rewrite map_fmap. apply NoDup_fst_map_to_list. Qed.

#[local] Instance name_le_trans : Transitive name_le.
Proof. intros a b c. unfold name_le. apply transitivity. Qed.

#[local] Instance name_le_total : Total name_le.
Proof. intros a b. unfold name_le. apply total, _. Qed.

Lemma is_dir_lookup (m : fs) (p : path) :
  is_dir m p = true <-> lookup_path m p = Some Dir.
Proof. unfold is_dir. destruct (lookup_path m p) as [[|?]|]; split; done. Qed.

Lemma elem_of_children (m : fs) (p k : path) :
  is_dir m p = true ->
  k ∈ children m p <-> k <> [] /\ parent k = p /\ is_Some (m !! k).
Proof.
  intros Hp%is_dir_lookup. unfold children, iterdir. rewrite Hp.
  rewrite merge_sort_Permutation, elem_of_List_filter, elem_of_keys.
  rewrite bool_decide_eq_true. tauto.
Qed.

(** The listing of a directory depends on the entries of that directory
    only. *)
Lemma iterdir_agree (m1 m2 : fs) (p : path) :
  lookup_path m1 p = lookup_path m2 p ->
  (forall k, k <> [] -> parent k = p -> m1 !! k = m2 !! k) ->
  iterdir m1 p = iterdir m2 p.
Proof.
  intros Hp Hk. unfold iterdir. rewrite <- Hp.
  destruct (lookup_path m1 p) as [[|?]|]; [|done..]. f_equal.
  set (f := fun k : path => bool_decide (k ≠ [] ∧ parent k = p)).
  apply (Sorted_unique_strong name_le).
  - intros x1 x2 H1 H2 H12 H21.
    rewrite merge_sort_Permutation, elem_of_List_filter in H1, H2.
    destruct H1 as [[Hx1 Hp1]%bool_decide_eq_true _].
    destruct H2 as [[Hx2 Hp2]%bool_decide_eq_true _].
    rewrite (path_parent_name x1 Hx1), (path_parent_name x2 Hx2), Hp1, Hp2.
    f_equal. f_equal. unfold name_le in *. by apply (anti_symm String.le).
  - apply Sorted_merge_sort, _.
  - apply Sorted_merge_sort, _.
  - rewrite !merge_sort_Permutation.
    apply NoDup_Permutation; [apply NoDup_List_filter, NoDup_keys..|].
    intros k. rewrite !elem_of_List_filter, !elem_of_keys.
    split; intros [[Hx Hpk]%bool_decide_eq_true Hs];
      (split; [by apply bool_decide_eq_true|]).
    + by rewrite <- Hk.
    + by rewrite Hk.
Qed.

Lemma candidates_agree {E : Env} (m1 m2 : fs) (ps : list path) :
  (forall p, p ∈ ps -> is_dir m1 p = is_dir m2 p) ->
  candidates m1 ps = candidates m2 ps.
Proof.
  induction ps as [|p ps IH]; intros H; [done|]. simpl.
  rewrite (H p) by (by left). rewrite IH; [done|].
  intros q Hq. apply H. by right.
Qed.

Lemma prefix_parent (p k : path) :
  k <> [] -> parent k = p -> p `prefix_of` k.
Proof.
  intros Hk Hp. rewrite (path_parent_name k Hk), Hp. by apply prefix_app_r.
Qed.

(** The locator reads nothing but [Data/] and its entries. *)
Lemma find_latest_agree {E : Env} (m1 m2 : fs) :
  (forall k, DATA_DIR `prefix_of` k -> m1 !! k = m2 !! k) ->
  find_latest_date_folder m1 = find_latest_date_folder m2.
Proof.
  intros H. unfold find_latest_date_folder, exists_.
  assert (Hroot : lookup_path m1 DATA_DIR = lookup_path m2 DATA_DIR).
  { simpl. by apply H. }
  rewrite Hroot.
  destruct (lookup_path m2 DATA_DIR) as [e|] eqn:Ee; [|done]. cbn [negb].
  assert (Hit : iterdir m1 DATA_DIR = iterdir m2 DATA_DIR).
  { apply iterdir_agree; [congruence|].
    intros k Hk Hp. apply H. by apply prefix_parent. }
  rewrite Hit. destruct (iterdir m2 DATA_DIR) as [ps|] eqn:Eps; [|done].
  cbn [mbind result_bind].
  rewrite (candidates_agree m1 m2 ps); [done|].
  intros p Hp. unfold is_dir.
  assert (Hd : is_dir m2 DATA_DIR = true).
  { unfold iterdir in Eps. apply is_dir_lookup.
    destruct (lookup_path m2 DATA_DIR) as [[|?]|]; done. }
  assert (Hc : p ∈ children m2 DATA_DIR) by (unfold children; by rewrite Eps).
  apply elem_of_children in Hc as (Hne & Hpar & _); [|done].
  destruct p as [|x p]; [done|]. simpl. rewrite H; [done|].
  by apply prefix_parent.
Qed.

(** ** Clearing the output root *)

Lemma tree_absent (m : fs) (p : path) :
  tree m -> p <> [] -> m !! p = None ->
  forall k, p `prefix_of` k -> m !! k = None.
Proof.
  intros Ht Hp Hnone k [s ->].
  induction s as [|n s IH] using rev_ind; [by rewrite app_nil_r|].
  destruct (m !! (p ++ s ++ [n])) as [e|] eqn:E; [|done].
  exfalso. specialize (Ht (p ++ s ++ [n]) ltac:(eauto)).
  rewrite app_assoc, parent_app in Ht. apply is_dir_lookup in Ht.
  unfold lookup_path in Ht. destruct (p ++ s) eqn:E'; [by destruct p|].
  congruence.
Qed.

Lemma reset_dist_cases (m : fs) :
  tree m ->
  (reset_dist m = Raise OSError /\ exists t, m !! DIST = Some (File t)) \/
  (exists m1, reset_dist m = Ok m1 /\ reset_state m m1).
Proof.
  intros Ht. unfold reset_dist, exists_, rmtree.
  change (lookup_path m DIST) with (m !! DIST).
  assert (Hmk : forall m0 : fs,
    (forall k, DIST `prefix_of` k -> m0 !! k = None) ->
    mkdir_p (DIST ++ ["static"]) m0 =
    Ok (<[DIST ++ ["static"] := Dir]> (<[DIST := Dir]> m0))).
  { intros m0 H0.
    pose proof (H0 DIST ltac:(done)) as Hd.
    pose proof (H0 (DIST ++ ["static"]) ltac:(by apply prefix_app_r)) as Hs.
    unfold DIST in *. simpl in Hs. unfold mkdir_p. simpl.
    rewrite Hd. rewrite lookup_insert_ne by done. by rewrite Hs. }
  assert (Hst : forall m0 : fs,
    (forall k, m0 !! k = if decide (DIST `prefix_of` k) then None else m !! k) ->
    reset_state m (<[DIST ++ ["static"] := Dir]> (<[DIST := Dir]> m0))).
  { intros m0 H0 k. destruct (decide (k = DIST ∨ k = DIST ++ ["static"])) as [[-> | ->] | Hk].
    - rewrite lookup_insert_ne by done. by rewrite lookup_insert_eq.
    - by rewrite lookup_insert_eq.
    - rewrite !lookup_insert_ne by (intros <-; tauto). apply H0. }
  destruct (m !! DIST) as [[|t]|] eqn:E.
  - right. cbn [mbind result_bind].
    set (m0 := filter (fun kv : path * entry => ¬ DIST `prefix_of` kv.1) m).
    assert (H0 : forall k, m0 !! k = if decide (DIST `prefix_of` k) then None else m !! k).
    { intros k. subst m0. rewrite map_lookup_filter.
      destruct (m !! k) as [e|]; simpl; [|by case_decide].
      case_decide; [by rewrite option_guard_False by tauto|].
      by rewrite option_guard_True. }
    rewrite Hmk.
    + eexists. split; [done|]. by apply Hst.
    + intros k Hk. rewrite H0. by rewrite decide_True.
  - left. cbn [mbind result_bind]. eauto.
  - right. cbn [mbind result_bind].
    assert (H0 : forall k, m !! k = if decide (DIST `prefix_of` k) then None else m !! k).
    { intros k. case_decide; [|done]. by apply (tree_absent m DIST). }
    rewrite Hmk.
    + eexists. split; [done|]. by apply Hst.
    + intros k Hk. rewrite H0. by rewrite decide_True.
Qed.

Lemma reset_state_agree (m m' m1 m1' : fs) :
  (forall k, ¬ DIST `prefix_of` k -> m' !! k = m !! k) ->
  reset_state m m1 -> reset_state m' m1' -> m1' = m1.
Proof.
  intros H H1 H1'. apply map_eq. intros k. rewrite H1, H1'.
  repeat case_decide; try done. by apply H.
Qed.

Section Rebuild.
Context {E : Env}.

(** C6: a build that succeeds has located its data and then reset the
    output root, which at that point holds an empty [static] directory and
    nothing else, and made all of its output from there; hence what a
    build returns does not depend on what the output root held before. *)
Theorem rebuild_clears_dist (m : fs) :
  tree m ->
  (forall m', main m = Ok m' ->
     exists date_dir date_obj m1,
       find_latest_date_folder m = Ok (date_dir, date_obj) /\
       reset_dist m = Ok m1 /\
       (forall k, DIST `prefix_of` k ->
          m1 !! k = if decide (k = DIST ∨ k = DIST ++ ["static"])
                    then Some Dir else None) /\
       (forall k, ¬ DIST `prefix_of` k -> m1 !! k = m !! k) /\
       (m2 ← copy_css m1;
        m3 ← build_pages date_dir date_obj m2;
        m4 ← write_robots m3;
        write_sitemap m4) = Ok m') /\
  (forall m0, tree m0 ->
     (forall k, ¬ DIST `prefix_of` k -> m0 !! k = m !! k) ->
     (forall t, m !! DIST <> Some (File t)) ->
     (forall t, m0 !! DIST <> Some (File t)) ->
     main m0 = main m).
Proof.
  intros Ht. split.
  - intros m'. unfold main.
    intros ([date_dir date_obj] & Hfind & (m1 & Hreset & Hrest)%bind_Ok)%bind_Ok.
    exists date_dir, date_obj, m1.
    destruct (reset_dist_cases m Ht) as [[Hr _] | (m1' & Hr & Hst)]; [congruence|].
    assert (m1' = m1) by congruence. subst m1'.
    split_and!; [done | done | | |].
    + intros k Hk. rewrite Hst. case_decide; [done|]. by rewrite decide_True.
    + intros k Hk. rewrite Hst. rewrite decide_False.
      * by rewrite decide_False.
      * intros [-> | ->]; apply Hk; [done | by apply prefix_app_r].
    + exact Hrest.
  - intros m0 Ht0 Hagree Hm Hm0. unfold main.
    rewrite (find_latest_agree m0 m).
    2:{ intros k Hk. apply Hagree. intros Hd.
        destruct Hk as [s ->], Hd as [s' Hd]. discriminate Hd. }
    destruct (find_latest_date_folder m) as [[date_dir date_obj]|]; [|done].
    cbn [mbind result_bind].
    destruct (reset_dist_cases m Ht) as [[_ [t Hf]] | (m1 & Hr & Hst)];
      [by destruct (Hm t)|].
    destruct (reset_dist_cases m0 Ht0) as [[_ [t Hf]] | (m1' & Hr' & Hst')];
      [by destruct (Hm0 t)|].
    rewrite Hr, Hr'. by rewrite (reset_state_agree m m0 m1 m1' Hagree Hst Hst').
Qed.

End Rebuild.

Lemma example_fs_tree : tree example_fs.
Proof.
  intros k Hk. apply elem_of_keys in Hk. vm_compute in Hk.
  repeat (apply elem_of_cons in Hk as [-> | Hk]);
    [vm_compute; reflexivity.. | inversion Hk].
Qed.

Lemma example_fs_clean_tree : tree example_fs_clean.
Proof.
  intros k Hk. apply elem_of_keys in Hk. vm_compute in Hk.
  repeat (apply elem_of_cons in Hk as [-> | Hk]);
    [vm_compute; reflexivity.. | inversion Hk].
Qed.

Lemma example_fs_clean_agree (k : path) :
  ¬ DIST `prefix_of` k -> example_fs_clean !! k = example_fs !! k.
Proof.
  intros Hk. unfold example_fs.
  rewrite !lookup_insert_ne; [done | intros <-; apply Hk; by eexists..].
Qed.

Lemma rebuild_clears_dist_witness :
  tree example_fs /\
  (exists date_dir date_obj m1,
     find_latest_date_folder (E:=example_env) example_fs = Ok (date_dir, date_obj) /\
     reset_dist example_fs = Ok m1 /\
     (forall k, DIST `prefix_of` k ->
        m1 !! k = if decide (k = DIST ∨ k = DIST ++ ["static"])
                  then Some Dir else None) /\
     (forall k, ¬ DIST `prefix_of` k -> m1 !! k = example_fs !! k) /\
     (m2 ← copy_css m1;
      m3 ← build_pages (E:=example_env) date_dir date_obj m2;
      m4 ← write_robots (E:=example_env) m3;
      write_sitemap (E:=example_env) m4) = Ok example_site) /\
  main (E:=example_env) example_fs_clean = main (E:=example_env) example_fs.
Proof.
  pose proof (rebuild_clears_dist (E:=example_env) example_fs example_fs_tree)
    as [H1 H2].
  split; [exact example_fs_tree|]. split.
  - exact (H1 example_site example_site_built).
  - apply (H2 example_fs_clean example_fs_clean_tree example_fs_clean_agree).
    + intros t. vm_compute. discriminate.
    + intros t. vm_compute. discriminate.
Defined.

(** ** Pages and the sitemap *)

Lemma slug_chars_hyphenated (s : list ascii) :
  hyphenated false (slug_chars s) = true.
Proof.
  rewrite slug_chars_spec.
  destruct (Str.strip Str.is_hyphen _) as [|c r] eqn:E; [done|].
  simpl or_else. rewrite <- E. unfold Str.strip.
  apply hyphenated_rstrip, (hyphenated_lstrip _ false), hyphenated_collapse.
Qed.

Lemma slug_not_index (s : string) : slug s <> "index.html".
Proof.
  unfold slug. intros H.
  apply (f_equal Str.of_string) in H. rewrite of_to_string in H.
  pose proof (slug_chars_hyphenated (Str.of_string s)) as Hh.
  rewrite H in Hh. discriminate Hh.
Qed.

Lemma dirs_ok_page (ss : list string) :
  Forall (fun s => s <> "index.html") ss ->
  dirs_ok (DIST ++ ss ++ ["index.html"]).
Proof.
  intros Hss k Hk Hpre. rewrite app_assoc, parent_app in Hpre.
  destruct Hpre as [post Hpost].
  rewrite (path_parent_name k Hk) in Hpost.
  destruct (parent k) as [|x q] eqn:Eq.
  - simpl in Hpost. injection Hpost as Hn _. rewrite <- Hn. done.
  - simpl in Hpost. injection Hpost as Hx Hrest.
    assert (Hin : name k ∈ ss).
    { rewrite Hrest, <- app_assoc. apply elem_of_app. right. by left. }
    rewrite Forall_forall in Hss. by apply Hss.
Qed.

Lemma str_length_app (s t : string) :
  String.length (s +:+ t) = (String.length s + String.length t)%nat.
Proof.
  induction s as [|x s IH]; [done|].
  change (S (String.length (s +:+ t)) = S (String.length s + String.length t)).
  by rewrite IH.
Qed.

Lemma substring_prefix (s t : string) :
  String.substring 0 (String.length s) (s +:+ t) = s.
Proof.
  induction s as [|x s IH]; [by destruct t|].
  change (String x (String.substring 0 (String.length s) (s +:+ t)) = String x s).
  by rewrite IH.
Qed.

Lemma str_drop_end_app (s t : string) :
  str_drop_end (String.length t) (s +:+ t) = s.
Proof.
  unfold str_drop_end. rewrite str_length_app.
  replace (String.length s + String.length t - String.length t)%nat
    with (String.length s) by lia.
  apply substring_prefix.
Qed.

Lemma str_replace_app (a b : ascii) (s t : string) :
  str_replace a b (s +:+ t) = str_replace a b s +:+ str_replace a b t.
Proof.
  unfold str_replace. by rewrite of_string_app, map_app, to_string_app.
Qed.

Lemma str_join_snoc (dirs : list string) (n : string) :
  str_join "/" (dirs ++ [n]) = dir_string dirs +:+ n.
Proof.
  induction dirs as [|d dirs IH]; [done|].
  change (dir_string (d :: dirs)) with ((d +:+ "/") +:+ dir_string dirs).
  rewrite !str_app_assoc, <- IH. simpl.
  destruct (dirs ++ [n]) eqn:E; [by destruct dirs | done].
Qed.

Lemma below_split (p k : path) :
  below p k -> exists dirs, k = p ++ dirs ++ [name k].
Proof.
  intros [[s ->] Hne].
  destruct s as [|n s _] using rev_ind; [by rewrite app_nil_r in Hne|].
  exists s. by rewrite app_assoc, name_app, <- app_assoc.
Qed.

Lemma elem_of_rglob (m : fs) (p k : path) (n : string) :
  k ∈ rglob m p n <-> below p k /\ name k = n /\ is_Some (m !! k).
Proof.
  unfold rglob. rewrite elem_of_List_filter, bool_decide_eq_true, elem_of_keys.
  tauto.
Qed.

Section Sitemap.
Context {E : Env}.

(** The URL of a page: the base URL and the directories of the page. *)
Lemma sitemap_url_page (dirs : list string) :
  sitemap_url (DIST ++ dirs ++ ["index.html"]) =
  BASE_URL +:+ "/" +:+ str_replace (ascii_of_N 92) "/"%char (dir_string dirs).
Proof.
  unfold sitemap_url. rewrite drop_app_length.
  rewrite str_join_snoc, str_replace_app.
  change (str_replace (ascii_of_N 92) "/" "index.html") with "index.html".
  rewrite <- str_app_assoc.
  by rewrite (str_drop_end_app _ "index.html").
Qed.

Lemma write_text_rendered (p : path) (text : string) (m m' : fs) :
  name p <> "index.html" ->
  write_text p text m = Ok m' -> pages_rendered m -> pages_rendered m'.
Proof.
  intros Hp ->%write_text_Ok Hm k e Hk Hn.
  rewrite lookup_insert_ne by congruence. by apply Hm.
Qed.

Lemma write_html_rendered (p : path) (t d b c : string) (m m' : fs) :
  dirs_ok p ->
  write_html p (tpl_base t d b c) m = Ok m' ->
  pages_rendered m -> pages_rendered m'.
Proof.
  intros Hp [Hpage Hrest]%write_html_spec Hm k e Hk Hn He.
  destruct (decide (k = p)) as [-> | Hne].
  - rewrite Hpage in He. injection He as <-. unfold rendered. eauto.
  - destruct (Hrest k Hne) as [_ H2].
    destruct (H2 e He) as [He' | (-> & Hk1 & Hk2)]; [by apply (Hm k)|].
    by destruct (Hp k Hk1 Hk2).
Qed.

Lemma build_row_rendered (date_obj : Datetime.date)
    (region_name r_slug country_name c_slug : string)
    (st st' : fs * list string) (r : row) :
  r_slug <> "index.html" -> c_slug <> "index.html" ->
  build_row date_obj region_name r_slug country_name c_slug st r = Ok st' ->
  pages_rendered st.1 -> pages_rendered st'.1.
Proof.
  intros Hr Hc. unfold build_row. destruct st as [m rows_html].
  intros ([[sig conf] reason] & _ & (sym & _ & (description & _ & (exch & _ &
          (sec & _ & (ind & _ & (m1 & Hw & [= <-])%bind_Ok)%bind_Ok)%bind_Ok)%bind_Ok)%bind_Ok)%bind_Ok)%bind_Ok.
  simpl. intros Hm.
  destruct (ohlc r) as [[[[o h] l] c]|]; [|by injection Hw as <-].
  apply bind_Ok in Hw as (pred & _ & (pct & _ & Hw)%bind_Ok).
  apply (write_html_rendered _ _ _ _ _ _ _ (dirs_ok_page [r_slug; c_slug; _] ltac:(repeat constructor; auto using slug_not_index)) Hw Hm).
Qed.

Lemma build_country_rendered (date_obj : Datetime.date)
    (region_name r_slug : string)
    (st st' : fs * list (string * string)) (csv : path) :
  r_slug <> "index.html" ->
  build_country date_obj region_name r_slug st csv = Ok st' ->
  pages_rendered st.1 -> pages_rendered st'.1.
Proof.
  intros Hr. unfold build_country. destruct st as [m links].
  intros (df & _ & ([m1 rows_html] & Hrows & (m2 & Hw & [= <-])%bind_Ok)%bind_Ok)%bind_Ok.
  simpl. intros Hm.
  apply (write_html_rendered _ _ _ _ _ _ _
           (dirs_ok_page [r_slug; _] ltac:(repeat constructor; auto using slug_not_index)) Hw).
  apply (foldM_invariant (fun st : fs * list string => pages_rendered st.1)
           _ _ (fun b a b' => build_row_rendered _ _ _ _ _ b b' a Hr (slug_not_index _))
           _ _ Hrows Hm).
Qed.

Lemma build_region_rendered (date_obj : Datetime.date) (m m' : fs) (region : path) :
  build_region date_obj m region = Ok m' ->
  pages_rendered m -> pages_rendered m'.
Proof.
  unfold build_region.
  intros ([m1 links] & Hcs & Hw)%bind_Ok Hm.
  apply (write_html_rendered _ _ _ _ _ _ _
           (dirs_ok_page [_] ltac:(repeat constructor; auto using slug_not_index)) Hw).
  apply (foldM_invariant (fun st : fs * list (string * string) => pages_rendered st.1)
           _ _ (fun b a b' => build_country_rendered _ _ _ b b' a (slug_not_index _))
           _ _ Hcs Hm).
Qed.

Lemma build_pages_rendered (date_dir : path) (date_obj : Datetime.date) (m m' : fs) :
  build_pages date_dir date_obj m = Ok m' ->
  pages_rendered m -> pages_rendered m'.
Proof.
  unfold build_pages. intros (ps & _ & (m1 & Hw & Hrs)%bind_Ok)%bind_Ok Hm.
  apply (foldM_invariant pages_rendered _ _
           (fun b a b' => build_region_rendered date_obj b b' a) _ _ Hrs).
  apply (write_html_rendered _ _ _ _ _ _ _ (dirs_ok_page [] ltac:(constructor)) Hw Hm).
Qed.

Lemma reset_state_rendered (m m1 : fs) : reset_state m m1 -> pages_rendered m1.
Proof.
  intros Hst k e [Hk _] Hn. rewrite Hst.
  case_decide as Hd; [destruct Hd as [-> | ->]; vm_compute in Hn; discriminate|].
  by rewrite decide_True.
Qed.

Lemma copy_css_rendered (m m' : fs) :
  copy_css m = Ok m' -> pages_rendered m -> pages_rendered m'.
Proof.
  assert (Hn : name (DIST ++ ["static"; "styles.css"]) <> "index.html")
    by (vm_compute; discriminate).
  unfold copy_css. destruct (exists_ m _).
  - intros (text & _ & Hw)%bind_Ok. apply (write_text_rendered _ _ _ _ Hn Hw).
  - intros Hw. apply (write_text_rendered _ _ _ _ Hn Hw).
Qed.

(** The text of the sitemap, entry by entry. *)
Lemma sitemap_xml_entries (ps : list path) :
  sitemap_xml (map sitemap_url ps) =
  "<?xml version='1.0' encoding='UTF-8'?>" +:+
  "<urlset xmlns='http://www.sitemaps.org/schemas/sitemap/0.9'>" +:+
  fold_right (fun p rest =>
                ("<url><loc>" +:+ sitemap_url p +:+ "</loc></url>") +:+ rest)
             "</urlset>" ps.
Proof.
  unfold sitemap_xml. do 2 f_equal.
  induction ps as [|p ps IH]; [done|].
  simpl. by rewrite str_app_assoc, IH.
Qed.

(** C5: after a build the text of [sitemap.xml] is the XML declaration, the
    opening tag of [urlset], one [url/loc] entry for each [index.html]
    present below the output root and no other, and the closing tag; each
    of these files is a page the build rendered, and its [loc] is the base
    URL followed by the path of the file without the final [index.html]. *)
Theorem sitemap_spec (m m' : fs) :
  tree m ->
  main m = Ok m' ->
  exists pages : list path,
    m' !! (DIST ++ ["sitemap.xml"]) =
      Some (File
              ("<?xml version='1.0' encoding='UTF-8'?>" +:+
               "<urlset xmlns='http://www.sitemaps.org/schemas/sitemap/0.9'>" +:+
               fold_right
                 (fun p rest =>
                    ("<url><loc>" +:+ sitemap_url p +:+ "</loc></url>") +:+ rest)
                 "</urlset>" pages)) /\
    NoDup pages /\
    (forall p, p ∈ pages <->
       below DIST p /\ name p = "index.html" /\ is_Some (m' !! p)) /\
    (forall p, p ∈ pages ->
       (exists e, m' !! p = Some e /\ rendered e) /\
       exists dirs,
         p = DIST ++ dirs ++ ["index.html"] /\
         sitemap_url p =
           BASE_URL +:+ "/" +:+
           str_replace (ascii_of_N 92) "/"%char (dir_string dirs)).
Proof.
  intros Ht. unfold main.
  intros ([date_dir date_obj] & _ & (m1 & Hreset & (m2 & Hcss & (m3 & Hpages &
          (m4 & Hrobots & Hsm%write_text_Ok)%bind_Ok)%bind_Ok)%bind_Ok)%bind_Ok)%bind_Ok.
  destruct (reset_dist_cases m Ht) as [[Hr _] | (m1' & Hr & Hst)]; [congruence|].
  assert (m1' = m1) by congruence. subst m1'.
  assert (Hm4 : pages_rendered m4).
  { assert (Hrn : name (DIST ++ ["robots.txt"]) <> "index.html")
      by (vm_compute; discriminate).
    apply (write_text_rendered _ _ _ _ Hrn Hrobots).
    apply (build_pages_rendered _ _ _ _ Hpages).
    apply (copy_css_rendered _ _ Hcss).
    by apply (reset_state_rendered m). }
  assert (Hsame : forall p, name p = "index.html" -> m' !! p = m4 !! p).
  { intros p Hp. rewrite Hsm. apply lookup_insert_ne. intros <-.
    vm_compute in Hp. discriminate. }
  exists (rglob m4 DIST "index.html"). split_and!.
  - rewrite Hsm, lookup_insert_eq. by rewrite sitemap_xml_entries.
  - apply NoDup_List_filter, NoDup_keys.
  - intros p. rewrite elem_of_rglob. split.
    + intros (H1 & H2 & H3). by rewrite Hsame.
    + intros (H1 & H2 & H3). by rewrite <- Hsame.
  - intros p (Hbelow & Hname & [e He])%elem_of_rglob. split.
    + exists e. rewrite Hsame by done. split; [done|]. by apply (Hm4 p).
    + destruct (below_split _ _ Hbelow) as [dirs Hp]. rewrite Hname in Hp.
      exists dirs. split; [done|]. rewrite Hp. apply sitemap_url_page.
Qed.

End Sitemap.

Lemma sitemap_spec_witness :
  tree example_fs /\
  main (E:=example_env) example_fs = Ok example_site /\
  exists pages : list path,
    example_site !! (DIST ++ ["sitemap.xml"]) =
      Some (File
              ("<?xml version='1.0' encoding='UTF-8'?>" +:+
               "<urlset xmlns='http://www.sitemaps.org/schemas/sitemap/0.9'>" +:+
               fold_right
                 (fun p rest =>
                    ("<url><loc>" +:+ sitemap_url (E:=example_env) p +:+
                     "</loc></url>") +:+ rest)
                 "</urlset>" pages)) /\
    NoDup pages /\
    (forall p, p ∈ pages <->
       below DIST p /\ name p = "index.html" /\ is_Some (example_site !! p)) /\
    (forall p, p ∈ pages ->
       (exists e, example_site !! p = Some e /\ rendered (E:=example_env) e) /\
       exists dirs,
         p = DIST ++ dirs ++ ["index.html"] /\
         sitemap_url (E:=example_env) p =
           BASE_URL (E:=example_env) +:+ "/" +:+
           str_replace (ascii_of_N 92) "/"%char (dir_string dirs)).
Proof.
  split; [exact example_fs_tree|]. split; [exact example_site_built|].
  exact (sitemap_spec (E:=example_env) example_fs example_site
           example_fs_tree example_site_built).
Defined.

(** ** The rows of a country *)

Section Rows.
Context {E : Env}.




End Rows.

(** C1 fails on a row whose close is an empty cell: [pandas] reads the cell
    as NaN, [float] accepts it, and the build writes a detail page for the
    stock; the site of the example has five pages where the claim allows
    four. *)
Theorem detail_page_for_empty_close :
  cell_at example_frame 1 4 = CFloat Float.nan /\
  (exists r, iterrows (normalize example_frame) !! 1%nat = Some r /\
     row_get r "close" = Ok (Scalar (CFloat Float.nan)) /\
     ohlc (E:=example_env) r =
       Some (Float.of_Z 10, Float.of_Z 12, Float.of_Z 8, Float.nan)) /\
  main (E:=example_env) example_fs = Ok example_site /\
  is_Some (example_site !! (DIST ++ ["asia"; "india"; "bbb"; "index.html"])) /\
  length (rglob example_site DIST "index.html") = 5%nat.
Proof.
  split_and!.
  - reflexivity.
  - eexists. split; [vm_compute; reflexivity|]. split; vm_compute; reflexivity.
  - exact example_site_built.
  - assert (H : match example_site !! (DIST ++ ["asia"; "india"; "bbb"; "index.html"]) with
                | Some _ => true
                | None => false
                end = true) by (vm_compute; reflexivity).
    destruct (example_site !! _); [eauto | discriminate].
  - vm_compute. reflexivity.
Qed.

(* ================================================================== *)
(** * Further properties *)
(* ================================================================== *)

(** ** More on [slug] *)

Lemma lstrip_head (P : ascii -> bool) (s : list ascii) :
  Str.lstrip P s = s -> forall c, head s = Some c -> P c = false.
Proof.
  assert (L : forall r, (length (Str.lstrip P r) <= length r)%nat).
  { induction r as [|x r IH]; simpl; [lia|]. destruct (P x); simpl; lia. }
  destruct s as [|x r]; [discriminate 2|]. simpl.
  intros H c [= <-]. destruct (P x); [|reflexivity].
  pose proof (L r) as Hl. rewrite H in Hl. simpl in Hl. lia.
Qed.

Lemma head_rev_last {A : Type} (s : list A) : head (rev s) = last s.
Proof.
  induction s as [|x l _] using rev_ind; [done|].
  by rewrite rev_unit, last_snoc.
Qed.

Lemma rstrip_last (P : ascii -> bool) (s : list ascii) :
  Str.rstrip P s = s -> forall c, last s = Some c -> P c = false.
Proof.
  unfold Str.rstrip. intros H c Hc.
  apply (lstrip_head P (rev s)).
  - rewrite <- H at 2. by rewrite rev_involutive.
  - by rewrite head_rev_last.
Qed.

Lemma strip_fixed (P : ascii -> bool) (t : list ascii) :
  let u := Str.strip P t in Str.lstrip P u = u /\ Str.rstrip P u = u.
Proof.
  cbv zeta. unfold Str.strip. split.
  - by rewrite lstrip_rstrip_comm, lstrip_idem.
  - apply rstrip_idem.
Qed.

Lemma hyphenated_Forall (s : list ascii) :
  forall b, hyphenated b s = true ->
  Forall (fun c => Str.is_az09 c = true \/ c = Str.hyphen) s.
Proof.
  induction s as [|c r IH]; intros b; [constructor|]. simpl.
  destruct (Str.is_az09 c) eqn:Hc.
  - intros H. constructor; [by left | by apply (IH false)].
  - intros [[Hh _]%andb_prop H]%andb_prop.
    constructor; [right; by apply is_hyphen_eq | by apply (IH true)].
Qed.

Lemma hyphenated_single (s : list ascii) :
  forall b, hyphenated b s = true ->
  forall i : nat, s !! i = Some Str.hyphen -> s !! S i <> Some Str.hyphen.
Proof.
  destruct hyphen_plain as (_ & Hz & _ & Hh).
  induction s as [|c r IH]; intros b H i; [done|].
  simpl in H. destruct i as [|i]; simpl.
  - intros [= ->]. rewrite Hz in H.
    apply andb_prop in H as [_ H]. destruct r as [|c' r']; [done|].
    simpl in *. intros [= ->]. rewrite Hz in H. by rewrite andb_false_r in H.
  - destruct (Str.is_az09 c); [by apply (IH false)|].
    apply andb_prop in H as [_ H]. by apply (IH true).
Qed.

Lemma slug_chars_of_string (s : string) :
  Str.of_string (slug s) = slug_chars (Str.of_string s).
Proof.
  unfold slug, Str.of_string, Str.to_string.
  apply list_ascii_of_string_of_list_ascii.
Qed.

(** X1: a slug is never empty, holds only characters of [a-z0-9] and
    hyphens, begins and ends with a character of [a-z0-9], and holds no two
    hyphens in a row. *)
Theorem slug_url_safe (s : string) :
  let t := Str.of_string (slug s) in
  t <> [] /\
  Forall (fun c => Str.is_az09 c = true \/ c = Str.hyphen) t /\
  (exists c, head t = Some c /\ Str.is_az09 c = true) /\
  (exists c, last t = Some c /\ Str.is_az09 c = true) /\
  (forall i : nat, t !! i = Some Str.hyphen -> t !! S i <> Some Str.hyphen).
Proof.
  cbv zeta. rewrite slug_chars_of_string, slug_chars_spec.
  set (w := SlugSpec.collapse_runs false (Str.lower (Str.of_string s))).
  assert (Hh : hyphenated false (Str.strip Str.is_hyphen w) = true).
  { unfold Str.strip. apply hyphenated_rstrip.
    apply (hyphenated_lstrip _ false), hyphenated_collapse. }
  destruct (strip_fixed Str.is_hyphen w) as [Hl Hr].
  revert Hh Hl Hr. generalize (Str.strip Str.is_hyphen w).
  intros [|c r] Hh Hl Hr; simpl or_else.
  - split; [done|]. split.
    { repeat constructor; left; reflexivity. }
    split; [eexists; split; reflexivity|].
    split; [eexists; split; reflexivity|].
    intros i. do 5 (destruct i as [|i]; [done|]). done.
  - pose proof (hyphenated_Forall _ _ Hh) as HF.
    rewrite Forall_forall in HF.
    destruct hyphen_plain as (_ & _ & _ & Hy).
    split_and!; [done | by apply Forall_forall | | |
                 by apply (hyphenated_single _ false)].
    + exists c. split; [done|].
      pose proof (lstrip_head _ _ Hl c eq_refl) as Hc.
      destruct (HF c ltac:(left)) as [? | ->]; [done | congruence].
    + destruct (last (c :: r)) as [c0|] eqn:E0; [|by apply last_None in E0].
      exists c0. split; [done|].
      pose proof (rstrip_last _ _ Hr c0 E0) as Hc.
      apply last_Some_elem_of in E0.
      destruct (HF _ E0) as [? | ->]; [done | congruence].
Qed.

Lemma collapse_no_az09 (t : list ascii) :
  Forall (fun c => Str.is_az09 c = false) t ->
  SlugSpec.collapse_runs true t = [] /\
  (SlugSpec.collapse_runs false t = [] \/
   SlugSpec.collapse_runs false t = [Str.hyphen]).
Proof.
  induction 1 as [|c r Hc _ [IH _]]; [by split; [|left]|].
  simpl. rewrite Hc, IH. by split; [|right].
Qed.

(** X2: an ASCII string without a letter and without a digit (white space
    and punctuation only, or nothing) has the slug "stock". *)
Theorem slug_default (s : string) :
  Forall (fun c => (Str.code c < 128)%N /\
                   Str.is_az09 (Str.lower_char c) = false) (Str.of_string s) ->
  slug s = "stock".
Proof.
  intros H. unfold slug. rewrite slug_chars_spec.
  assert (H' : Forall (fun c => Str.is_az09 c = false) (Str.lower (Str.of_string s))).
  { unfold Str.lower. apply Forall_map. eapply Forall_impl; [exact H|].
    by intros c [_ ?]. }
  destruct (collapse_no_az09 _ H') as [_ [-> | ->]]; reflexivity.
Qed.

Lemma slug_default_witness : slug " (-) &.? !" = "stock".
Proof.
  apply slug_default. unfold Str.of_string. cbn [list_ascii_of_string].
  repeat (constructor; [split; reflexivity|]). constructor.
Defined.

Lemma lower_char_idem (c : ascii) :
  Str.lower_char (Str.lower_char c) = Str.lower_char c.
Proof. destruct c as [[] [] [] [] [] [] [] []]; reflexivity. Qed.

(** X3: the slug of a string does not depend on its case nor on the white
    space around it: lower-casing or stripping the argument first leaves
    the slug as it is. *)
Theorem slug_case_and_margin (s : string) :
  slug (str_lower s) = slug s /\ slug (str_strip s) = slug s.
Proof.
  unfold slug, str_lower, str_strip. rewrite !of_to_string. split; f_equal.
  - rewrite !slug_chars_spec. do 3 f_equal. unfold Str.lower.
    rewrite map_map. apply map_ext. intros c. apply lower_char_idem.
  - unfold slug_chars.
    replace (or_else (Str.strip Str.is_space (Str.of_string s)) [])
      with (Str.strip Str.is_space (Str.of_string s)) by (by destruct (Str.strip _ _)).
    replace (or_else (Str.of_string s) []) with (Str.of_string s)
      by (by destruct (Str.of_string s)).
    by rewrite strip_idem.
Qed.

Lemma collapse_same_class (s t : list ascii) :
  Forall2 (fun a b => Str.lower_char a = Str.lower_char b \/
                      (Str.is_az09 (Str.lower_char a) = false /\
                       Str.is_az09 (Str.lower_char b) = false)) s t ->
  forall b, SlugSpec.collapse_runs b (Str.lower s) =
            SlugSpec.collapse_runs b (Str.lower t).
Proof.
  induction 1 as [|a c s t H _ IH]; intros b; [reflexivity|].
  simpl. destruct H as [-> | [-> ->]]; [|by rewrite !IH].
  by rewrite !IH.
Qed.

(** X4: two strings of the same length have the same slug when at every
    position they hold the same character up to case, or two ASCII
    characters neither of which is a letter or a digit: what stands
    between the letters and digits does not tell slugs apart. *)
Theorem slug_separators (s t : string) :
  Forall2 (fun a b => Str.lower_char a = Str.lower_char b \/
                      ((Str.code a < 128)%N /\ (Str.code b < 128)%N /\
                       Str.is_az09 (Str.lower_char a) = false /\
                       Str.is_az09 (Str.lower_char b) = false))
          (Str.of_string s) (Str.of_string t) ->
  slug s = slug t.
Proof.
  intros H. unfold slug. rewrite !slug_chars_spec.
  rewrite (collapse_same_class (Str.of_string s) (Str.of_string t)); [done|].
  eapply Forall2_impl; [exact H|]. simpl. tauto.
Qed.

Lemma slug_separators_witness : slug "Tata Motors" = slug "TATA_motors".
Proof.
  apply slug_separators. unfold Str.of_string. cbn [list_ascii_of_string].
  repeat (constructor;
          [first [left; reflexivity | right; repeat split; reflexivity]|]).
  constructor.
Defined.

(** ** More on [next_business_day] *)

Section MoreCalendar.
Import Datetime.

Lemma next_business_day_ordinal (d r : date) :
  valid d = true -> next_business_day d = Ok r ->
  valid r = true /\
  toordinal r = toordinal d + (if weekday d =? 4 then 3
                               else if weekday d =? 5 then 2 else 1).
Proof.
  intros Hv. pose proof (toordinal_range _ Hv) as Hr.
  unfold next_business_day, add_days.
  destruct (weekday d =? 4); [|destruct (weekday d =? 5)];
    (destruct (_ && _) eqn:E; [|discriminate]); intros [= <-];
    apply fromordinal_toordinal; lia.
Qed.



(** X6: a Friday, the Saturday after it and the Sunday after it have the
    same next business day, the Monday that follows (the last Friday of
    the calendar, 9999-12-31, apart). *)
Theorem next_business_day_weekend (d : Datetime.date) :
  Datetime.valid d = true -> Datetime.weekday d = 4 -> d <> Datetime.max ->
  exists sat sun mon,
    Datetime.add_days d 1 = Ok sat /\ Datetime.add_days d 2 = Ok sun /\
    Datetime.weekday sat = 5 /\ Datetime.weekday sun = 6 /\
    Datetime.weekday mon = 0 /\
    next_business_day d = Ok mon /\
    next_business_day sat = Ok mon /\
    next_business_day sun = Ok mon.
Proof.
  intros Hv Hw Hne.
  pose proof (toordinal_range _ Hv) as Hr.
  pose proof (ltb_toordinal d Datetime.max Hv eq_refl (ltb_max _ Hv Hne)) as Hlt.
  change (toordinal Datetime.max) with 3652059 in Hlt.
  unfold MAXORDINAL in Hr.
  assert (Hmax : toordinal d + 3 <= 3652059).
  { unfold weekday in Hw. Z.div_mod_to_equations. lia. }
  set (o := toordinal d) in *.
  destruct (fromordinal_toordinal (o + 1)) as [V1 O1]; [unfold MAXORDINAL; lia|].
  destruct (fromordinal_toordinal (o + 2)) as [V2 O2]; [unfold MAXORDINAL; lia|].
  destruct (fromordinal_toordinal (o + 3)) as [V3 O3]; [unfold MAXORDINAL; lia|].
  assert (W1 : weekday (fromordinal (o + 1)) = 5).
  { unfold weekday in *. rewrite O1. fold o in Hw. Z.div_mod_to_equations. lia. }
  assert (W2 : weekday (fromordinal (o + 2)) = 6).
  { unfold weekday in *. rewrite O2. fold o in Hw. Z.div_mod_to_equations. lia. }
  assert (W3 : weekday (fromordinal (o + 3)) = 0).
  { unfold weekday in *. rewrite O3. fold o in Hw. Z.div_mod_to_equations. lia. }
  assert (R : forall k, 1 <= k <= 3 ->
            (0 <? o + k) && (o + k <=? MAXORDINAL) = true)
    by (intros k Hk; unfold MAXORDINAL; lia).
  exists (fromordinal (o + 1)), (fromordinal (o + 2)), (fromordinal (o + 3)).
  unfold next_business_day, add_days. fold o.
  rewrite Hw, W1, W2, O1, O2. cbn [Z.eqb Pos.eqb].
  rewrite !R by lia.
  replace (o + 1 + 2) with (o + 3) by lia.
  replace (o + 2 + 1) with (o + 3) by lia.
  rewrite !R by lia. done.
Qed.

Lemma next_business_day_weekend_witness :
  exists sat sun mon,
    Datetime.add_days (Datetime.mkdate 2024 3 15) 1 = Ok sat /\
    Datetime.add_days (Datetime.mkdate 2024 3 15) 2 = Ok sun /\
    Datetime.weekday sat = 5 /\ Datetime.weekday sun = 6 /\
    Datetime.weekday mon = 0 /\
    next_business_day (Datetime.mkdate 2024 3 15) = Ok mon /\
    next_business_day sat = Ok mon /\
    next_business_day sun = Ok mon.
Proof.
  apply (next_business_day_weekend (Datetime.mkdate 2024 3 15));
    [reflexivity | reflexivity | discriminate].
Defined.

(** X7: [next_business_day] keeps the order of dates: of two dates, the
    later one never gets the earlier next business day. *)
Theorem next_business_day_monotone (d1 d2 r1 r2 : Datetime.date) :
  Datetime.valid d1 = true -> Datetime.valid d2 = true ->
  Datetime.ltb d1 d2 = true ->
  next_business_day d1 = Ok r1 -> next_business_day d2 = Ok r2 ->
  Datetime.ltb r2 r1 = false.
Proof.
  intros V1 V2 H H1 H2.
  destruct (next_business_day_ordinal d1 r1 V1 H1) as [Vr1 O1].
  destruct (next_business_day_ordinal d2 r2 V2 H2) as [Vr2 O2].
  apply ltb_toordinal in H; [|done..].
  destruct (ltb r2 r1) eqn:E; [|done].
  apply ltb_toordinal in E; [|done..]. exfalso.
  rewrite O1, O2 in E. unfold weekday in E.
  destruct (Z.eqb_spec ((toordinal d1 + 6) mod 7) 4);
    [|destruct (Z.eqb_spec ((toordinal d1 + 6) mod 7) 5)];
    (destruct (Z.eqb_spec ((toordinal d2 + 6) mod 7) 4);
      [|destruct (Z.eqb_spec ((toordinal d2 + 6) mod 7) 5)]);
    Z.div_mod_to_equations; lia.
Qed.

Lemma next_business_day_monotone_witness :
  Datetime.ltb (Datetime.mkdate 2024 3 18) (Datetime.mkdate 2024 3 18) = false.
Proof.
  apply (next_business_day_monotone
           (Datetime.mkdate 2024 3 15) (Datetime.mkdate 2024 3 16)
           (Datetime.mkdate 2024 3 18) (Datetime.mkdate 2024 3 18));
    reflexivity.
Defined.

End MoreCalendar.

(** ** More on rounding *)

Section MoreBinary64.
Import Float.

(** The value a significand of at least 53 bits is rounded to: the
    significand shifted to 53 bits, or the next number; when that number
    is [2 ^ 53] the exponent moves up by one. *)
Lemma binary_round_aux_value (s : bool) (p : positive) (e : Z) (l : location) :
  2 ^ 52 <= Zpos p -> -1021 <= Zpos (digits2_pos p) + e ->
  let n := Zpos (digits2_pos p) - 53 in
  exists (m2 : Z) (m3 : positive) (e3 : Z),
    binary_round_aux prec emax s (Zpos p) e l =
      (if e3 <=? 971 then S754_finite s m3 e3 else S754_infinity s) /\
    Zpos p / 2 ^ n <= m2 <= Zpos p / 2 ^ n + 1 /\
    2 ^ 52 <= m2 <= 2 ^ 53 /\
    ((Zpos m3 = m2 /\ m2 < 2 ^ 53 /\ e3 = e + n) \/
     (m2 = 2 ^ 53 /\ Zpos m3 = 2 ^ 52 /\ e3 = e + n + 1)).
Proof.
  intros Hp He n.
  pose proof (digits2_lower p 52 Hp) as Hd.
  destruct (shr_fexp_normal p e l) as [M1 E1]; [lia|lia|].
  pose proof (shr_53_bounds p) as B1. cbv zeta in B1. fold n in M1, B1.
  unfold binary_round_aux.
  destruct (shr_fexp prec emax (Zpos p) e l) as [mrs1 e1]. cbn [fst snd] in M1, E1.
  pose proof (round_nearest_even_bounds (shr_m mrs1) (loc_of_shr_record mrs1)) as R.
  destruct (round_nearest_even _ _) as [|p2|p2] eqn:E2; [lia| |lia].
  assert (H2 : 2 ^ 52 <= Zpos p2) by lia.
  pose proof (digits2_lower p2 52 H2) as Hd2.
  destruct (shr_fexp_normal p2 e1 loc_Exact) as [M2 E3]; [lia|lia|].
  destruct (shr_fexp prec emax (Zpos p2) e1 loc_Exact) as [mrs2 e2].
  cbn [fst snd] in M2, E3.
  exists (Zpos p2).
  destruct (Z.eq_dec (Zpos p2) (2 ^ 53)) as [Heq | Hne].
  - assert (D2 : Zpos (digits2_pos p2) = 54).
    { pose proof (digits2_lower p2 53 ltac:(lia)).
      pose proof (digits2_upper p2 54 ltac:(lia) ltac:(rewrite Heq; reflexivity)).
      lia. }
    rewrite D2, Heq in M2. change (2 ^ 53 / 2 ^ (54 - 53)) with (2 ^ 52) in M2.
    destruct (shr_m mrs2) as [|m3|m3]; try discriminate M2.
    exists m3, e2. split; [reflexivity|]. rewrite <- M1. split; [lia|].
    split; [lia|]. right. lia.
  - assert (D2 : Zpos (digits2_pos p2) = 53).
    { pose proof (digits2_upper p2 53 ltac:(lia) ltac:(lia)). lia. }
    rewrite D2 in M2. change (2 ^ (53 - 53)) with 1 in M2.
    rewrite Z.div_1_r in M2.
    destruct (shr_m mrs2) as [|m3|m3]; try discriminate M2.
    exists m3, e2. split; [reflexivity|]. rewrite <- M1. split; [lia|].
    split; [lia|]. left. lia.
Qed.

(** The rounded sum of 0.6 and a positive number: an infinity, or a number
    with a 53-bit significand that is at least 0.6. *)
Lemma add_0_6_shape (m : positive) (e : Z) :
  exists (m3 : positive) (e3 : Z),
    add c0_6 (S754_finite false m e) =
      (if e3 <=? 971 then S754_finite false m3 e3 else S754_infinity false) /\
    -53 <= e3 /\ 2 ^ 52 <= Zpos m3 < 2 ^ 53 /\
    (e3 = -53 -> 5404319552844595 <= Zpos m3).
Proof.
  unfold add, c0_6, SFadd. cbn [cond_Zopp].
  set (ez := Z.min (-53) e).
  assert (Hez : ez <= -53) by lia.
  pose proof (shl_align_fst 5404319552844595 (-53) ez Hez) as A.
  set (a := fst (shl_align 5404319552844595 (-53) ez)) in *.
  set (b := fst (shl_align m e ez)).
  change (Zpos a + Zpos b) with (Zpos (a + b)). cbn [binary_normalize].
  assert (Hn : 0 < 2 ^ (-53 - ez)) by (apply Z.pow_pos_nonneg; lia).
  assert (L : 2 ^ (-1 - ez) <= Zpos (a + b)).
  { rewrite Pos2Z.inj_add, A.
    replace (2 ^ (-1 - ez)) with (2 ^ 52 * 2 ^ (-53 - ez))
      by (rewrite <- Z.pow_add_r by lia; f_equal; lia).
    change (2 ^ 52) with 4503599627370496.
    generalize dependent (2 ^ (-53 - ez)). intros x _ Hx.
    pose proof (Pos2Z.is_pos b). lia. }
  pose proof (digits2_lower _ _ L) as D.
  assert (L52 : 2 ^ 52 <= Zpos (a + b)).
  { etransitivity; [|exact L]. apply Z.pow_le_mono_r; lia. }
  unfold binary_round. rewrite shl_align_id
    by (unfold fexp, SpecFloat.emin, prec, emax; lia).
  assert (D' : -1021 <= Zpos (digits2_pos (a + b)) + ez) by lia.
  destruct (binary_round_aux_value false (a + b) ez loc_Exact L52 D')
    as (m2 & m3 & e3 & -> & B2 & R2 & C).
  cbv zeta in B2, C.
  exists m3, e3. split; [reflexivity|].
  change (2 ^ 53) with 9007199254740992 in *.
  change (2 ^ 52) with 4503599627370496 in *.
  split; [lia|]. split; [lia|]. intros E.
  assert (Dn : Zpos (digits2_pos (a + b)) - 53 = -53 - ez) by lia.
  rewrite Dn in B2, C.
  assert (Hq : 5404319552844595 <= Zpos (a + b) / 2 ^ (-53 - ez)).
  { apply Z.div_le_lower_bound; [lia|]. rewrite Pos2Z.inj_add, A.
    pose proof (Pos2Z.is_pos b). lia. }
  lia.
Qed.

(** The order of two positive finite numbers. *)
Lemma ltb_finite (m m' : positive) (e e' : Z) :
  ltb (S754_finite false m e) (S754_finite false m' e') = true ->
  e < e' \/ (e = e' /\ Zpos m < Zpos m').
Proof.
  unfold ltb, SFltb, SFcompare.
  destruct (Z.compare_spec e e'); [|lia|discriminate].
  rewrite Pos.compare_cont_spec. unfold Pos.switch_Eq.
  destruct (Pos.compare_spec m m'); [discriminate| |discriminate]. lia.
Qed.

Lemma leb_finite (m m' : positive) (e e' : Z) :
  e < e' \/ (e = e' /\ Zpos m <= Zpos m') ->
  leb (S754_finite false m e) (S754_finite false m' e') = true.
Proof.
  unfold leb, SFleb, SFcompare. intros H.
  destruct (Z.compare_spec e e'); [|done|lia].
  rewrite Pos.compare_cont_spec. unfold Pos.switch_Eq.
  destruct (Pos.compare_spec m m'); [done | done | lia].
Qed.

(** The confidence of a directional signal: a number from 0.6 to 0.9 with
    a 53-bit significand. *)
Lemma confidence_shape (half : float) :
  ltb half (of_Z 0) = false ->
  exists m : positive,
    min c0_9 (add c0_6 half) = S754_finite false m (-53) /\
    5404319552844595 <= Zpos m <= 8106479329266893.
Proof.
  intros H. unfold min.
  destruct (ltb (add c0_6 half) c0_9) eqn:B;
    [|exists 8106479329266893%positive; split; [reflexivity | lia]].
  destruct half as [s|s| |s m e].
  - exists 5404319552844595%positive. split; [reflexivity | lia].
  - destruct s; [discriminate H | discriminate B].
  - discriminate B.
  - destruct s; [discriminate H|].
    destruct (add_0_6_shape m e) as (m3 & e3 & E & He & Hm & H6).
    rewrite E in B |- *.
    destruct (e3 <=? 971); [|discriminate B].
    apply ltb_finite in B as [? | [-> ?]]; [lia|].
    exists m3. split; [reflexivity|]. specialize (H6 eq_refl). lia.
Qed.

(** [int(conf*100)] for a number from 0.5 to 0.9 with a 53-bit
    significand. *)
Ltac eval_trunc :=
  match goal with
  | |- context [if ?c then _ else _] =>
      let v := eval vm_compute in c in change c with v
  end;
  cbv iota;
  match goal with
  | |- context [2 ^ ?k] =>
      let v := eval vm_compute in (2 ^ k) in change (2 ^ k) with v
  end.

Lemma percent_range (m : positive) :
  2 ^ 52 <= Zpos m <= 8106479329266893 ->
  exists p, percent (S754_finite false m (-53)) = Ok p /\ 50 <= p <= 90 /\
            (5404319552844595 <= Zpos m -> 60 <= p).
Proof.
  intros Hm. change (2 ^ 52) with 4503599627370496 in Hm.
  destruct (Z.eq_dec (Zpos m) 5404319552844595) as [[= ->] | Hne].
  { exists 60. split; [vm_compute; reflexivity | lia]. }
  unfold percent, mul.
  change (of_Z 100) with (S754_finite false 7036874417766400 (-46)).
  unfold SFmul. cbn [xorb]. change (-53 + -46) with (-99).
  set (M := (m * 7036874417766400)%positive).
  assert (HM : Zpos M = Zpos m * 7036874417766400) by (subst M; lia).
  assert (L : 2 ^ 104 <= Zpos M)
    by (change (2 ^ 104) with 20282409603651670423947251286016; lia).
  assert (U : Zpos M < 2 ^ 106)
    by (change (2 ^ 106) with 81129638414606681695789005144064; lia).
  pose proof (digits2_lower M 104 L) as D1.
  pose proof (digits2_upper M 106 ltac:(lia) U) as D2.
  assert (L52 : 2 ^ 52 <= Zpos M).
  { etransitivity; [|exact L]. apply Z.pow_le_mono_r; lia. }
  destruct (binary_round_aux_value false M (-99) loc_Exact L52 ltac:(lia))
    as (m2 & m3 & e3 & -> & B2 & R2 & C).
  cbv zeta in B2, C.
  assert (Hd : Zpos (digits2_pos M) = 105 \/ Zpos (digits2_pos M) = 106) by lia.
  change (2 ^ 53) with 9007199254740992 in *.
  change (2 ^ 52) with 4503599627370496 in *.
  destruct Hd as [Hd | Hd]; rewrite Hd in B2, C.
  - change (2 ^ (105 - 53)) with 4503599627370496 in B2.
    assert (Hu : Zpos M < 2 ^ 105).
    { pose proof (digits2_bounds M) as [_ Hb]. by rewrite Hd in Hb. }
    change (2 ^ 105) with 40564819207303340847894502572032 in Hu.
    destruct C as [(E3 & _ & ->) | (E2 & E3 & ->)].
    + eexists. split; [reflexivity|]. cbv zeta. eval_trunc. rewrite E3.
      Z.div_mod_to_equations. lia.
    + eexists. split; [reflexivity|]. cbv zeta. eval_trunc. rewrite E3.
      Z.div_mod_to_equations. lia.
  - change (2 ^ (106 - 53)) with 9007199254740992 in B2.
    destruct C as [(E3 & _ & ->) | (E2 & E3 & ->)].
    + eexists. split; [reflexivity|]. cbv zeta. eval_trunc. rewrite E3.
      Z.div_mod_to_equations. lia.
    + exfalso. Z.div_mod_to_equations. lia.
Qed.

End MoreBinary64.

(** ** More on [classify] *)

Section MoreClassifier.
Import Float.

Lemma leb_0_6_shape (m : positive) :
  5404319552844595 <= Zpos m -> leb c0_6 (S754_finite false m (-53)) = true.
Proof.
  intros H. apply leb_finite. lia.
Qed.

(** X8: [classify] answers "Sideways" with the confidence 0.5, or
    "Bullish" when the close is above the open, or "Bearish" when it is
    below, and then with a confidence of at least 0.6. *)
Theorem classify_direction (o h l c : Float.float) :
  exists sig conf reason,
    classify o h l c = Ok (sig, conf, reason) /\
    ((sig = "Sideways" /\ conf = Float.c0_5) \/
     (sig = "Bullish" /\ Float.gtb c o = true /\
      Float.leb Float.c0_6 conf = true) \/
     (sig = "Bearish" /\ Float.ltb c o = true /\ Float.gtb c o = false /\
      Float.leb Float.c0_6 conf = true)).
Proof.
  unfold classify.
  destruct (leb _ (of_Z 0)) eqn:R; [do 3 eexists; split; [done | by left]|].
  destruct (div_by_range (abs (sub c o)) _ R) as [ratio ->]. cbn [mbind result_bind].
  destruct (ltb ratio _) eqn:B; [do 3 eexists; split; [done | by left]|].
  destruct (half_sign ratio (ratio_sign ratio B)) as (half & -> & S).
  destruct (confidence_shape half S) as (m & Hc & Hm1 & Hm2).
  cbn [mbind result_bind]. rewrite Hc.
  pose proof (leb_0_6_shape m Hm1) as H6.
  destruct (gtb c o) eqn:G; [do 3 eexists; split; [done | right; by left]|].
  destruct (ltb c o) eqn:L; [do 3 eexists; split; [done | right; by right]|].
  do 3 eexists; split; [done | by left].
Qed.

(** X9: the confidence a detail page prints, [int(conf*100)], is 50 for
    "Sideways" and a whole number from 60 to 90 for "Bullish" and
    "Bearish"; the conversion never raises. *)
Theorem classify_percent (o h l c : Float.float) :
  exists sig conf reason p,
    classify o h l c = Ok (sig, conf, reason) /\
    percent conf = Ok p /\
    ((sig = "Sideways" /\ p = 50) \/
     ((sig = "Bullish" \/ sig = "Bearish") /\ 60 <= p <= 90)).
Proof.
  unfold classify.
  destruct (leb _ (of_Z 0)) eqn:R;
    [exists "Sideways", c0_5, "No range", 50; split_and!; try done; by left|].
  destruct (div_by_range (abs (sub c o)) _ R) as [ratio ->]. cbn [mbind result_bind].
  destruct (ltb ratio _) eqn:B;
    [eexists "Sideways", c0_5, _, 50; split_and!; try done; by left|].
  destruct (half_sign ratio (ratio_sign ratio B)) as (half & -> & S).
  destruct (confidence_shape half S) as (m & Hc & Hm1 & Hm2).
  cbn [mbind result_bind]. rewrite Hc.
  destruct (percent_range m) as (p & Hp & Hp1 & Hp2).
  { change (2 ^ 52) with 4503599627370496. lia. }
  specialize (Hp2 Hm1).
  destruct (gtb c o) eqn:G;
    [eexists _, _, _, p; split_and!; try done; right; split; [by left | lia]|].
  destruct (ltb c o) eqn:L;
    [eexists _, _, _, p; split_and!; try done; right; split; [by right | lia]|].
  eexists "Sideways", c0_5, _, 50; split_and!; try done; by left.
Qed.

(** X10: when the open or the close is not a number, [classify] answers
    "Sideways" with the confidence 0.5. *)
Theorem classify_nan_open_close :
  (forall h l c, exists reason,
     classify Float.nan h l c = Ok ("Sideways", Float.c0_5, reason)) /\
  (forall o h l, exists reason,
     classify o h l Float.nan = Ok ("Sideways", Float.c0_5, reason)).
Proof.
  split.
  - intros h l c. unfold classify.
    replace (abs (sub c nan)) with nan by (by destruct c).
    destruct (leb _ (of_Z 0)) eqn:R; [by eexists|].
    destruct (div_by_range nan _ R) as [ratio Hr]. rewrite Hr.
    assert (ratio = nan) as ->.
    { unfold div in Hr. destruct (is_zero _); [done|]. by injection Hr as <-. }
    cbn [mbind result_bind].
    replace (gtb c nan) with false by (by destruct c).
    replace (ltb c nan) with false by (by destruct c).
    by eexists.
  - intros o h l. unfold classify.
    replace (abs (sub nan o)) with nan by (by destruct o).
    destruct (leb _ (of_Z 0)) eqn:R; [by eexists|].
    destruct (div_by_range nan _ R) as [ratio Hr]. rewrite Hr.
    assert (ratio = nan) as ->.
    { unfold div in Hr. destruct (is_zero _); [done|]. by injection Hr as <-. }
    cbn [mbind result_bind].
    replace (gtb nan o) with false by (by destruct o).
    by eexists.
Qed.

(** X11: when the high is not a number, [classify] goes by the close
    against the open alone, and a direction gets the full confidence 0.9,
    whatever the low is. *)
Theorem classify_nan_high (o l c : Float.float) :
  classify o Float.nan l c =
  Ok (if Float.gtb c o then ("Bullish", Float.c0_9, "Close above open")
      else if Float.ltb c o then ("Bearish", Float.c0_9, "Close below open")
      else ("Sideways", Float.c0_5, "Flat")).
Proof.
  unfold classify.
  replace (max nan l) with nan by (by destruct l).
  replace (min nan l) with nan by (by destruct l).
  change (leb (sub nan nan) (of_Z 0)) with false. cbv iota.
  replace (div (abs (sub c o)) (sub nan nan)) with (Ok nan)
    by (by destruct (abs (sub c o))).
  cbn [mbind result_bind].
  change (ltb nan c0_2) with false. cbv iota.
  by destruct (gtb c o), (ltb c o).
Qed.

Lemma SFcompare_antisym (a b : float) :
  SFcompare b a = option_map CompOpp (SFcompare a b).
Proof.
  destruct a as [s|s| |s m e], b as [s'|s'| |s' m' e'];
    try reflexivity; try (by destruct s); try (by destruct s');
    try (by destruct s, s').
  unfold SFcompare. rewrite !Pos.compare_cont_spec. unfold Pos.switch_Eq.
  rewrite (Z.compare_antisym e e'), (Pos.compare_antisym m m').
  by destruct s, s', (e ?= e'), (m ?= m')%positive.
Qed.

Lemma ltb_antisym (a b : float) : ltb a b = true -> ltb b a = false.
Proof.
  unfold ltb, SFltb. rewrite (SFcompare_antisym a b).
  by destruct (SFcompare a b) as [[]|].
Qed.

Lemma SFcompare_Eq_sub (a b : float) :
  SFcompare a b = Some Eq -> sub a a = sub b b.
Proof.
  destruct a as [s|s| |s m e], b as [s'|s'| |s' m' e']; simpl;
    try discriminate; try (by destruct s); try (by destruct s');
    try (by destruct s, s').
  intros H. assert (s = s' /\ e = e' /\ m = m') as (-> & -> & ->); [|done].
  destruct s, s'; try discriminate H;
    (destruct (Z.compare_spec e e') as [-> | ? | ?]; try discriminate H);
    rewrite Pos.compare_cont_spec in H; unfold Pos.switch_Eq in H;
    (destruct (Pos.compare_spec m m') as [-> | ? | ?]; try discriminate H);
    done.
Qed.

(** The range [max(h,l) - min(h,l)] does not depend on the order of its
    two arguments, when both are numbers. *)
Lemma range_swap (h l : float) :
  h <> nan -> l <> nan ->
  sub (max h l) (min h l) = sub (max l h) (min l h).
Proof.
  intros Hh Hl. unfold max, min, gtb.
  destruct (ltb h l) eqn:E1, (ltb l h) eqn:E2; try reflexivity.
  - by rewrite (ltb_antisym _ _ E1) in E2.
  - apply SFcompare_Eq_sub. unfold ltb, SFltb in E1, E2.
    rewrite (SFcompare_antisym h l) in E2.
    destruct (SFcompare h l) as [[]|] eqn:E; try done.
    destruct h, l; try done; by simpl in E.
Qed.

(** X12: the order in which high and low are given does not matter to
    [classify], when both are numbers. *)
Theorem classify_high_low_swap (o h l c : Float.float) :
  h <> Float.nan -> l <> Float.nan ->
  classify o h l c = classify o l h c.
Proof.
  intros Hh Hl. unfold classify. by rewrite (range_swap h l Hh Hl).
Qed.

Lemma classify_high_low_swap_witness :
  classify (Float.of_Z 10) (Float.of_Z 12) (Float.of_Z 8) (Float.of_ratio 118 10) =
  classify (Float.of_Z 10) (Float.of_Z 8) (Float.of_Z 12) (Float.of_ratio 118 10).
Proof.
  apply classify_high_low_swap; vm_compute; discriminate.
Defined.

Lemma abs_binary_round_aux (s s' : bool) (m e : Z) (l : location) :
  abs (binary_round_aux prec emax s m e l) =
  abs (binary_round_aux prec emax s' m e l).
Proof.
  unfold binary_round_aux.
  destruct (shr_fexp prec emax m e l) as [mrs1 e1].
  destruct (shr_fexp prec emax _ e1 loc_Exact) as [mrs2 e2].
  destruct (shr_m mrs2); [reflexivity| |reflexivity].
  destruct (e2 <=? emax - prec); reflexivity.
Qed.

Lemma abs_binary_normalize_opp (z e : Z) :
  abs (binary_normalize prec emax (- z) e false) =
  abs (binary_normalize prec emax z e false).
Proof.
  destruct z as [|p|p]; [reflexivity| |]; simpl; unfold binary_round;
    destruct (shl_align _ _ _); apply abs_binary_round_aux.
Qed.

(** [abs(c - o)] is [abs(o - c)]. *)
Lemma abs_sub_swap (a b : float) : abs (sub a b) = abs (sub b a).
Proof.
  destruct a as [s|s| |s m e], b as [s'|s'| |s' m' e'];
    try reflexivity; try (by destruct s, s').
  unfold sub, SFsub. rewrite (Z.min_comm e' e).
  rewrite <- abs_binary_normalize_opp. do 2 f_equal. lia.
Qed.

(** X13: swapping the open and the close mirrors the answer of
    [classify]: "Bullish" and "Bearish" change places, with the same
    confidence, and "Sideways" stays as it is. *)
Theorem classify_mirror (o h l c : Float.float)
    (sig : string) (conf : Float.float) (reason : string) :
  classify o h l c = Ok (sig, conf, reason) ->
  classify c h l o =
  Ok (if String.eqb sig "Bullish" then ("Bearish", conf, "Close below open")
      else if String.eqb sig "Bearish" then ("Bullish", conf, "Close above open")
      else (sig, conf, reason)).
Proof.
  unfold classify. rewrite (abs_sub_swap o c).
  destruct (leb _ (of_Z 0)); [by intros [= <- <- <-]|].
  destruct (div _ _) as [ratio|]; [|done]. cbn [mbind result_bind].
  destruct (ltb ratio c0_2); [by intros [= <- <- <-]|].
  unfold gtb.
  destruct (ltb o c) eqn:E1.
  - rewrite (ltb_antisym _ _ E1).
    destruct (div ratio (of_Z 2)); [|done]. by intros [= <- <- <-].
  - destruct (ltb c o) eqn:E2; [|by intros [= <- <- <-]].
    destruct (div ratio (of_Z 2)); [|done]. by intros [= <- <- <-].
Qed.

Lemma classify_mirror_witness :
  classify (Float.of_ratio 118 10) (Float.of_Z 12) (Float.of_Z 8) (Float.of_Z 10) =
  Ok ("Bearish", S754_finite false 7430939385161319 (-53), "Close below open").
Proof.
  apply (classify_mirror (Float.of_Z 10) (Float.of_Z 12) (Float.of_Z 8)
           (Float.of_ratio 118 10) "Bullish" _ "Close above open").
  vm_compute. reflexivity.
Defined.

End MoreClassifier.

(** ** More on [read_csv_safe] *)

Section MoreNormalize.
Context {E : Env}.

(** X14: [read_csv_safe] keeps what [pandas] has read: the columns stay in
    their order, under their stripped and lower-cased names, with every
    cell as it was; the fields of the nine that are missing come after
    them, in the order of the list; the number of rows does not change. *)
Theorem normalize_keeps (df : frame) :
  let cols := map (fun c => str_lower (str_strip c)) (columns df) in
  columns (normalize df) =
    cols ++ List.filter (fun c => bool_decide (c ∉ cols))
                        (text_fields ++ numeric_fields) /\
  nrows (normalize df) = nrows df /\
  forall i j : nat,
    (j < length (columns df))%nat -> cell_at (normalize df) i j = cell_at df i j.
Proof. exact (normalize_spec df). Qed.

Lemma lower_idem (l : list ascii) : Str.lower (Str.lower l) = Str.lower l.
Proof.
  unfold Str.lower. rewrite map_map. apply map_ext. intros c.
  apply lower_char_idem.
Qed.

(** Stripping and lower-casing a name twice is the same as once. *)
Lemma column_name_idem (c : string) :
  str_lower (str_strip (str_lower (str_strip c))) = str_lower (str_strip c).
Proof.
  unfold str_lower, str_strip. rewrite !of_to_string. f_equal.
  rewrite (lower_strip (Str.lower _)), lower_idem, <- lower_strip.
  by rewrite strip_idem.
Qed.

Lemma add_defaults_present (fields : list string) (df : frame) :
  Forall (fun c => c ∈ columns df) fields ->
  fold_left add_default fields df = df.
Proof.
  induction 1 as [|f fields Hf _ IH]; [done|]. simpl.
  unfold add_default at 2. by rewrite (bool_decide_eq_true_2 _ Hf).
Qed.

(** X15: normalising a frame twice is the same as normalising it once:
    applied to its own result, the body of [read_csv_safe] changes
    nothing. *)
Theorem normalize_idempotent (df : frame) :
  normalize (normalize df) = normalize df.
Proof.
  destruct (normalize_spec df) as (Hc & _ & _). cbv zeta in Hc.
  set (cols := map (fun c => str_lower (str_strip c)) (columns df)) in *.
  set (X := normalize df) in *. unfold normalize at 1.
  assert (Hfix : forall c, c ∈ text_fields ++ numeric_fields ->
                           str_lower (str_strip c) = c).
  { intros c Hc'. unfold text_fields, numeric_fields in Hc'. simpl in Hc'.
    repeat (apply elem_of_cons in Hc' as [-> | Hc']); [..|inversion Hc'];
      reflexivity. }
  assert (Hr : rename_columns X = X).
  { unfold rename_columns. rewrite Hc. rewrite map_app.
    replace (map _ cols) with cols.
    2:{ subst cols. rewrite map_map. apply map_ext. intros c.
        by rewrite column_name_idem. }
    replace (map _ (List.filter _ _)) with
      (List.filter (fun c => bool_decide (c ∉ cols)) (text_fields ++ numeric_fields)).
    2:{ rewrite <- (map_id (List.filter _ _)) at 1. apply map_ext_in.
        intros c [Hc' _]%filter_In. symmetry. apply Hfix.
        by apply list_elem_of_In. }
    rewrite <- Hc. by destruct X. }
  rewrite Hr. apply add_defaults_present. rewrite Forall_forall.
  intros c Hc'. rewrite Hc. apply elem_of_app.
  destruct (decide (c ∈ cols)) as [? | Hn]; [by left|]. right.
  apply elem_of_List_filter. split; [by apply bool_decide_eq_true_2 | done].
Qed.

(** A label that two columns carry is found twice in every row. *)
Lemma filter_label_twice (cols : list string) (c : string) :
  forall (g : nat -> cell) (i j : nat),
    i <> j -> cols !! i = Some c -> cols !! j = Some c ->
    exists x y rest,
      List.filter (fun lc : string * cell => String.eqb (fst lc) c)
                  (imap (fun j l => (l, g j)) cols) = x :: y :: rest.
Proof.
  assert (Hone : forall cols' g' k, cols' !! k = Some c ->
            exists y rest,
              List.filter (fun lc : string * cell => String.eqb (fst lc) c)
                          (imap (fun j l => (l, g' j)) cols') = y :: rest).
  { intros cols' g' k Hk.
    pose proof (filter_label_present cols' g' c) as H.
    destruct (List.filter _ _) as [|y rest]; [|eauto].
    exfalso. apply H; [|done]. apply list_elem_of_lookup. eauto. }
  induction cols as [|l cols IH]; intros g i j Hij Hi Hj; [done|].
  simpl. destruct (String.eqb_spec l c) as [-> | Hne].
  - destruct i as [|i], j as [|j]; [done | | |].
    + destruct (Hone cols (g ∘ S) j Hj) as (y & rest & Hy).
      exists (c, g 0%nat), y, rest. f_equal. exact Hy.
    + destruct (Hone cols (g ∘ S) i Hi) as (y & rest & Hy).
      exists (c, g 0%nat), y, rest. f_equal. exact Hy.
    + destruct (Hone cols (g ∘ S) j Hj) as (y & rest & Hy).
      exists (c, g 0%nat), y, rest. f_equal. exact Hy.
  - destruct i as [|i], j as [|j]; simpl in Hi, Hj; try congruence.
    apply (IH (g ∘ S) i j); [lia | done | done].
Qed.

Lemma ohlc_raises (r : row) (c : string) (e : exn) :
  c ∈ numeric_fields -> row_get r c ≫= py_float = Raise e -> ohlc r = None.
Proof.
  intros Hc Hr. unfold ohlc, numeric_fields in *.
  repeat (apply elem_of_cons in Hc as [-> | Hc]); [..|inversion Hc];
    repeat (destruct (_ ≫= py_float) as [?|?]; cbn [mbind result_bind]);
    done.
Qed.

(** X16: when two columns of the file come out under the same numeric
    field name (say [Open] and [open ]), looking the field up gives a
    series, [float] raises on it, and no row of the frame has an OHLC: the
    country gets no detail page at all. *)
Theorem duplicate_column_no_ohlc (df : frame) (c : string) (i j : nat) :
  c ∈ numeric_fields -> i <> j ->
  map (fun c => str_lower (str_strip c)) (columns df) !! i = Some c ->
  map (fun c => str_lower (str_strip c)) (columns df) !! j = Some c ->
  forall r, r ∈ iterrows (normalize df) ->
    (exists cs, row_get r c = Ok (Series cs)) /\ ohlc r = None.
Proof.
  intros Hc Hij Hi Hj r (g & added & -> & _)%iterrows_normalize.
  simpl columns.
  set (cols := map (fun c => str_lower (str_strip c)) (columns df)) in *.
  destruct (filter_label_twice (cols ++ added) c g i j Hij) as (x & y & rest & Hf).
  { by apply lookup_app_l_Some. }
  { by apply lookup_app_l_Some. }
  assert (Hg : row_get (imap (fun j l => (l, g j)) (cols ++ added)) c =
               Ok (Series (map snd (x :: y :: rest)))).
  { unfold row_get. by rewrite Hf. }
  split; [eauto|]. apply (ohlc_raises _ c TypeError Hc). by rewrite Hg.
Qed.

End MoreNormalize.

Lemma duplicate_column_no_ohlc_witness :
  Forall (fun r => (exists cs, row_get r "open" = Ok (Series cs)) /\
                   ohlc (E:=example_env) r = None)
         (iterrows (normalize example_twin_frame)).
Proof.
  apply Forall_forall.
  apply (duplicate_column_no_ohlc (E:=example_env) example_twin_frame "open" 1 2).
  - unfold numeric_fields. by left.
  - discriminate.
  - reflexivity.
  - reflexivity.
Defined.

(** ** More on [write_html] *)

Lemma prefix_snoc_cases (pre k : path) (n : string) (rest : path) :
  k <> pre -> pre `prefix_of` k -> k `prefix_of` pre ++ n :: rest ->
  (pre ++ [n]) `prefix_of` k /\ k `prefix_of` (pre ++ [n]) ++ rest.
Proof.
  intros Hne [s ->] Hk. apply prefix_app_inv in Hk.
  destruct s as [|x s]; [by rewrite app_nil_r in Hne|].
  apply prefix_cons_inv_1 in Hk as Hx. subst x.
  apply prefix_cons_inv_2 in Hk. split.
  - exists s. by rewrite <- app_assoc.
  - rewrite <- app_assoc. apply prefix_app. simpl. by apply prefix_cons.
Qed.

Lemma snoc_ne (pre : path) (n : string) : pre ++ [n] <> pre.
Proof.
  intros H. apply (f_equal length) in H. rewrite length_app in H.
  simpl in H. lia.
Qed.

(** After [mkdir_from] every directory on the way is there. *)
Lemma mkdir_from_dirs (todo pre : path) (m m' : fs) :
  mkdir_from pre todo m = Ok m' ->
  forall k, k <> pre -> pre `prefix_of` k -> k `prefix_of` pre ++ todo ->
            m' !! k = Some Dir.
Proof.
  revert pre m. induction todo as [|n rest IH]; intros pre m; simpl.
  - intros _ k Hne Hp Hk. rewrite app_nil_r in Hk.
    destruct Hne. by apply (anti_symm prefix).
  - intros H k Hne Hp Hk.
    destruct (prefix_snoc_cases pre k n rest Hne Hp Hk) as [Hq1 Hq2].
    assert (Hrec : exists m1, mkdir_from (pre ++ [n]) rest m1 = Ok m' /\
                              m1 !! (pre ++ [n]) = Some Dir).
    { destruct (m !! (pre ++ [n])) as [[|?]|] eqn:E; [by eauto | done |].
      eexists. split; [exact H|]. by rewrite lookup_insert_eq. }
    destruct Hrec as (m1 & H1 & Hd).
    destruct (decide (k = pre ++ [n])) as [-> | Hk'].
    + by apply (mkdir_from_spec _ _ _ _ H1).
    + by apply (IH _ _ H1).
Qed.

(** [mkdir_from] succeeds when no regular file is on the way. *)
Lemma mkdir_from_succeeds (todo pre : path) (m : fs) :
  (forall k t, k <> pre -> pre `prefix_of` k -> k `prefix_of` pre ++ todo ->
               m !! k <> Some (File t)) ->
  exists m', mkdir_from pre todo m = Ok m'.
Proof.
  revert pre m. induction todo as [|n rest IH]; intros pre m H; simpl.
  - eauto.
  - assert (Hq : (pre ++ [n]) `prefix_of` pre ++ n :: rest).
    { exists rest. by rewrite <- app_assoc. }
    destruct (m !! (pre ++ [n])) as [[|t]|] eqn:E.
    + apply IH. intros k t Hne Hp Hk. apply H.
      * intros ->. apply prefix_length in Hp. rewrite length_app in Hp.
        simpl in Hp. lia.
      * etrans; [|done]. by apply prefix_app_r.
      * by rewrite <- app_assoc in Hk.
    + destruct (H (pre ++ [n]) t); [apply snoc_ne | by apply prefix_app_r |
                                      done | done].
    + apply IH. intros k t Hne Hp Hk. rewrite lookup_insert_ne by done.
      apply H.
      * intros ->. apply prefix_length in Hp. rewrite length_app in Hp.
        simpl in Hp. lia.
      * etrans; [|done]. by apply prefix_app_r.
      * by rewrite <- app_assoc in Hk.
Qed.

(** [mkdir_from] changes nothing when the directories are there. *)
Lemma mkdir_from_noop (todo pre : path) (m : fs) :
  (forall k, k <> pre -> pre `prefix_of` k -> k `prefix_of` pre ++ todo ->
             m !! k = Some Dir) ->
  mkdir_from pre todo m = Ok m.
Proof.
  revert pre. induction todo as [|n rest IH]; intros pre H; simpl; [done|].
  rewrite (H (pre ++ [n])).
  - apply IH. intros k Hne Hp Hk. apply H.
    + intros ->. apply prefix_length in Hp. rewrite length_app in Hp.
      simpl in Hp. lia.
    + etrans; [|done]. by apply prefix_app_r.
    + by rewrite <- app_assoc in Hk.
  - apply snoc_ne.
  - by apply prefix_app_r.
  - exists rest. by rewrite <- app_assoc.
Qed.

Lemma parent_not_prefix (p : path) : p <> [] -> ¬ p `prefix_of` parent p.
Proof.
  intros Hp H. apply prefix_length in H.
  rewrite (path_parent_name p Hp) in H at 1. rewrite length_app in H.
  simpl in H. lia.
Qed.

Lemma is_dir_parent_after_mkdir (p : path) (m m1 : fs) :
  mkdir_p (parent p) m = Ok m1 -> is_dir m1 (parent p) = true.
Proof.
  intros H. apply is_dir_lookup. unfold lookup_path.
  destruct (parent p) as [|x q] eqn:E; [done|]. rewrite <- E in *.
  apply (mkdir_from_dirs _ _ _ _ H); [by rewrite E | apply prefix_nil | done].
Qed.

(** X17: after [write_html] the page reads back as it was written and
    lies in a directory; every other entry that was there is kept, and
    the only new entries are the directories on the way to the page. *)
Theorem write_html_read_back (p : path) (html : string) (m m' : fs) :
  write_html p html m = Ok m' ->
  read_text m' p = Ok html /\
  is_dir m' (parent p) = true /\
  (forall k e, k <> p -> m !! k = Some e -> m' !! k = Some e) /\
  (forall k, k <> p -> ¬ k `prefix_of` parent p -> m' !! k = m !! k).
Proof.
  intros H. pose proof (write_html_spec p html m m' H) as [Hp Hk].
  unfold write_html in H. apply bind_Ok in H as (m1 & Hm1 & Hw).
  assert (Hne : p <> []) by (intros ->; discriminate Hw).
  apply write_text_Ok in Hw as ->.
  split_and!.
  - unfold read_text, lookup_path. destruct p; [done|]. by rewrite Hp.
  - pose proof (is_dir_parent_after_mkdir p m m1 Hm1) as Hd.
    apply is_dir_lookup in Hd. apply is_dir_lookup. unfold lookup_path in *.
    destruct (parent p) as [|x q] eqn:E; [done|].
    rewrite lookup_insert_ne; [done|].
    intros Hp'. apply (parent_not_prefix p Hne). by rewrite E, Hp'.
  - intros k e Hkp He. by apply (Hk k Hkp).
  - intros k Hkp Hnp. destruct (Hk k Hkp) as [H1 H2].
    destruct (m !! k) as [e|] eqn:E; [by apply H1|].
    destruct (<[p:=File html]> m1 !! k) as [e|] eqn:E'; [|done].
    destruct (H2 e eq_refl) as [? | (_ & _ & ?)]; done.
Qed.

Lemma example_page_written :
  write_html ["dist"; "a"; "index.html"] "x" ∅ = Ok example_page_fs.
Proof.
  unfold example_page_fs.
  assert (H : match write_html ["dist"; "a"; "index.html"] "x" ∅ with
              | Ok _ => true
              | Raise _ => false
              end = true) by (vm_compute; reflexivity).
  destruct (write_html _ _ _); [done | discriminate H].
Qed.

Lemma write_html_read_back_witness :
  read_text example_page_fs ["dist"; "a"; "index.html"] = Ok "x".
Proof.
  apply (write_html_read_back ["dist"; "a"; "index.html"] "x" ∅).
  exact example_page_written.
Defined.

Lemma write_text_unfold (p : path) (text : string) (m : fs) :
  p <> [] ->
  write_text p text m =
  if is_dir m (parent p) then
    match m !! p with
    | Some Dir => Raise OSError
    | _ => Ok (<[p := File text]> m)
    end
  else Raise OSError.
Proof. by destruct p. Qed.

(** X18: [write_html] succeeds exactly when the path is not the root, no
    regular file stands where a directory on the way to the page has to
    be, and the page itself is not a directory. *)
Theorem write_html_succeeds_iff (p : path) (html : string) (m : fs) :
  (exists m', write_html p html m = Ok m') <->
  p <> [] /\
  (forall k t, k <> [] -> k `prefix_of` parent p -> m !! k <> Some (File t)) /\
  m !! p <> Some Dir.
Proof.
  split.
  - intros [m' H]. unfold write_html in H.
    apply bind_Ok in H as (m1 & Hm1 & Hw).
    assert (Hne : p <> []) by (intros ->; discriminate Hw).
    split_and!; [done | |].
    + intros k t Hk Hp Hf.
      pose proof (mkdir_from_dirs _ _ _ _ Hm1 k Hk (prefix_nil k) Hp) as Hd.
      pose proof (proj1 (mkdir_p_spec _ _ _ Hm1 k) _ Hf). congruence.
    + intros Hd.
      pose proof (proj1 (mkdir_p_spec _ _ _ Hm1 p) _ Hd) as Hd1.
      rewrite write_text_unfold in Hw by done.
      destruct (is_dir m1 _); [|done]. by rewrite Hd1 in Hw.
  - intros (Hne & Hfiles & Hp). unfold write_html.
    destruct (mkdir_from_succeeds (parent p) [] m) as [m1 Hm1].
    { intros k t Hk _ Hk'. by apply Hfiles. }
    fold (mkdir_p (parent p) m) in Hm1. rewrite Hm1. cbn [mbind result_bind].
    rewrite write_text_unfold by done.
    rewrite (is_dir_parent_after_mkdir p m m1 Hm1).
    destruct (m1 !! p) as [[|t]|] eqn:E1; [|eauto..].
    destruct (proj2 (mkdir_p_spec _ _ _ Hm1 p) _ E1) as [? | (_ & _ & Hpre)];
      [done|]. by destruct (parent_not_prefix p Hne).
Qed.

Lemma mkdir_p_again (q p : path) (x : entry) (m m1 : fs) :
  mkdir_p q m = Ok m1 -> ¬ p `prefix_of` q ->
  mkdir_p q (<[p := x]> m1) = Ok (<[p := x]> m1).
Proof.
  intros H Hp. apply mkdir_from_noop. intros k Hk _ Hk'.
  rewrite lookup_insert_ne by (by intros <-).
  apply (mkdir_from_dirs _ _ _ _ H); [done | apply prefix_nil | done].
Qed.

(** X19: writing a page where [write_html] has just written one replaces
    it: two writes to the same path come to the second one alone. *)
Theorem write_html_twice (p : path) (html1 html2 : string) (m : fs) :
  write_html p html1 m ≫= write_html p html2 = write_html p html2 m.
Proof.
  destruct (decide (p = [])) as [-> | Hne]; [reflexivity|].
  unfold write_html.
  destruct (mkdir_p (parent p) m) as [m1|e] eqn:Hm1; [|done].
  cbn [mbind result_bind]. rewrite !write_text_unfold by done.
  pose proof (is_dir_parent_after_mkdir p m m1 Hm1) as Hd. rewrite Hd.
  assert (Hd' : is_dir (<[p := File html1]> m1) (parent p) = true).
  { apply is_dir_lookup in Hd. apply is_dir_lookup. unfold lookup_path in *.
    destruct (parent p) as [|y r] eqn:E2; [done|].
    rewrite lookup_insert_ne; [done|].
    intros Hp'. apply (parent_not_prefix p Hne). by rewrite E2, Hp'. }
  destruct (m1 !! p) as [[|t]|] eqn:E1; [done | |];
    cbn [mbind result_bind];
    rewrite (mkdir_p_again _ p _ m m1 Hm1 (parent_not_prefix p Hne));
    cbn [mbind result_bind];
    rewrite write_text_unfold by done;
    rewrite Hd', lookup_insert_eq; by rewrite insert_insert_eq.
Qed.

(** ** More on [find_latest_date_folder] *)

Section MoreLocator.
Context {E : Env}.

Ltac nbool :=
  repeat match goal with
         | H : (_ =? _)%N = true |- _ => apply N.eqb_eq in H
         | H : (_ =? _)%N = false |- _ => apply N.eqb_neq in H
         | H : (_ <=? _)%N = true |- _ => apply N.leb_le in H
         | H : (_ <=? _)%N = false |- _ => apply N.leb_gt in H
         | H : (_ <? _)%N = true |- _ => apply N.ltb_lt in H
         | H : (_ <? _)%N = false |- _ => apply N.ltb_ge in H
         | H : (_ && _) = true |- _ => apply andb_prop in H as [? ?]
         | H : (_ && _) = false |- _ => apply andb_false_iff in H as [?|?]
         | H : Some _ = Some _ |- _ => injection H as H
         end.

(** A text of ASCII characters has one character for each byte. *)
Lemma code_points_ascii (s : list ascii) :
  Forall (fun c => (Str.code c < 128)%N) s ->
  Str.code_points s = map Str.code s.
Proof.
  induction 1 as [|c s Hc _ IH]; [done|].
  apply N.ltb_lt in Hc. simpl. by rewrite Hc, IH.
Qed.

Lemma code_inj (a b : ascii) : Str.code a = Str.code b -> a = b.
Proof.
  unfold Str.code. intros H.
  by rewrite <- (ascii_N_embedding a), <- (ascii_N_embedding b), H.
Qed.

Lemma digit_inv (c : N) (z : Z) :
  (c < 128)%N -> digit c = Some z -> 0 <= z <= 9 /\ c = Z.to_N (z + 48).
Proof.
  intros Hc%N.ltb_lt. unfold digit, Str.between. rewrite Hc.
  destruct (_ && _) eqn:Hb; [|done]. intros [= <-]. nbool. lia.
Qed.

Lemma strptime_day_ascii (d1 d2 : N) (x1 x2 v : Z) :
  (d1 < 128)%N -> (d2 < 128)%N ->
  digit d1 = Some x1 -> digit d2 = Some x2 ->
  strptime_day d1 d2 = Some v -> v = 10 * x1 + x2.
Proof.
  intros H1 H2 D1 D2. unfold strptime_day, Str.between. rewrite D2.
  apply digit_inv in D1 as [B1 E1]; [|done].
  apply digit_inv in D2 as [B2 E2]; [|done].
  repeat (case_match; try done); intros [= <-]; nbool; lia.
Qed.

Lemma strptime_month_ascii (m1 m2 : N) (x1 x2 v : Z) :
  (m1 < 128)%N -> (m2 < 128)%N ->
  digit m1 = Some x1 -> digit m2 = Some x2 ->
  strptime_month m1 m2 = Some v -> v = 10 * x1 + x2.
Proof.
  intros H1 H2 [B1 E1]%digit_inv [B2 E2]%digit_inv; [|done..].
  unfold strptime_month, Str.between.
  repeat (case_match; try done); intros [= <-]; nbool; lia.
Qed.

(** The digits and dots of an ASCII name the pattern accepts and
    [strptime] parses. *)
Lemma strptime_ascii (s : string) (d : Datetime.date) :
  Forall (fun c => (Str.code c < 128)%N) (Str.of_string s) ->
  date_pattern s = true -> strptime s = Ok d ->
  exists x1 x2 x4 x5 x7 x8 x9 x10,
    (0 <= x1 <= 9 /\ 0 <= x2 <= 9 /\ 0 <= x4 <= 9 /\ 0 <= x5 <= 9 /\
     0 <= x7 <= 9 /\ 0 <= x8 <= 9 /\ 0 <= x9 <= 9 /\ 0 <= x10 <= 9) /\
    map Str.code (Str.of_string s) =
      [Z.to_N (x1 + 48); Z.to_N (x2 + 48); 46%N; Z.to_N (x4 + 48);
       Z.to_N (x5 + 48); 46%N; Z.to_N (x7 + 48); Z.to_N (x8 + 48);
       Z.to_N (x9 + 48); Z.to_N (x10 + 48)] /\
    d = Datetime.mkdate (1000 * x7 + 100 * x8 + 10 * x9 + x10)
                        (10 * x4 + x5) (10 * x1 + x2).
Proof.
  intros Ha. unfold date_pattern, strptime.
  rewrite (code_points_ascii _ Ha).
  assert (Hlt : Forall (fun c => (c < 128)%N) (map Str.code (Str.of_string s))).
  { by apply Forall_fmap. }
  destruct (map Str.code (Str.of_string s))
    as [|a1 [|a2 [|a3 [|a4 [|a5 [|a6 [|a7 [|a8 [|a9 [|a10 [|? ?]]]]]]]]]]];
    try done.
  intros P Hs.
  repeat (apply andb_prop in P as [P ?]).
  repeat match goal with
         | H : is_dot _ = true |- _ => apply N.eqb_eq in H
         end.
  subst. unfold is_digit in *.
  repeat match goal with
         | H : Forall _ (_ :: _) |- _ => apply Forall_cons in H as [? H]
         end.
  destruct (digit a1) as [x1|] eqn:A1; [|done].
  destruct (digit a2) as [x2|] eqn:A2; [|done].
  destruct (digit a4) as [x4|] eqn:A4; [|done].
  destruct (digit a5) as [x5|] eqn:A5; [|done].
  destruct (digit a7) as [x7|] eqn:A7; [|done].
  destruct (digit a8) as [x8|] eqn:A8; [|done].
  destruct (digit a9) as [x9|] eqn:A9; [|done].
  destruct (digit a10) as [x10|] eqn:A10; [|done].
  destruct (strptime_day a1 a2) as [dv|] eqn:Hdv; [|done].
  destruct (strptime_month a4 a5) as [mv|] eqn:Hmv; [|done].
  apply (strptime_day_ascii _ _ x1 x2) in Hdv; [|done..].
  apply (strptime_month_ascii _ _ x4 x5) in Hmv; [|done..].
  subst dv mv. unfold Datetime.new in Hs.
  destruct (Datetime.valid _); [|done]. injection Hs as <-.
  repeat match goal with
         | H : digit _ = Some _ |- _ => apply digit_inv in H as [? ->]; [|done]
         end.
  exists x1, x2, x4, x5, x7, x8, x9, x10. done.
Qed.

(** An ASCII name the pattern accepts and [strptime] parses is determined
    by its date. *)
Lemma strptime_inj (s t : string) (d : Datetime.date) :
  Forall (fun c => (Str.code c < 128)%N) (Str.of_string s) ->
  Forall (fun c => (Str.code c < 128)%N) (Str.of_string t) ->
  date_pattern s = true -> date_pattern t = true ->
  strptime s = Ok d -> strptime t = Ok d -> s = t.
Proof.
  intros As At Ps Pt Hs Ht.
  destruct (strptime_ascii s d As Ps Hs)
    as (x1 & x2 & x4 & x5 & x7 & x8 & x9 & x10 & Hx & Hcs & Hd).
  destruct (strptime_ascii t d At Pt Ht)
    as (y1 & y2 & y4 & y5 & y7 & y8 & y9 & y10 & Hy & Hct & Hd').
  rewrite Hd in Hd'. injection Hd' as Hyear Hmonth Hday.
  assert (y1 = x1 /\ y2 = x2 /\ y4 = x4 /\ y5 = x5 /\
          y7 = x7 /\ y8 = x8 /\ y9 = x9 /\ y10 = x10) as
    (-> & -> & -> & -> & -> & -> & -> & ->) by lia.
  rewrite <- Hct in Hcs.
  rewrite <- (to_of_string s), <- (to_of_string t). f_equal.
  revert Hcs. generalize (Str.of_string t). generalize (Str.of_string s).
  induction l as [|a l IH]; intros [|b l']; try done.
  simpl. intros [= Hab Hl]. f_equal; [by apply code_inj | by apply IH].
Qed.

Lemma date_ltb_total (a b : Datetime.date) :
  Datetime.ltb a b = false -> a <> b -> Datetime.ltb b a = true.
Proof.
  intros H Hne. apply date_ltb_spec.
  assert (H' : ~ Datetime.ltb a b = true) by (by rewrite H).
  rewrite date_ltb_spec in H'.
  destruct a as [y m d], b as [y' m' d']. simpl in *.
  destruct (Z.eq_dec y y') as [-> | ?]; [|lia].
  destruct (Z.eq_dec m m') as [-> | ?]; [|lia].
  destruct (Z.eq_dec d d') as [-> | ?]; [done | lia].
Qed.

Lemma dated_subdirs_name_inj (m : fs) (p p' : path) :
  m !! DATA_DIR = Some Dir ->
  p ∈ dated_subdirs m -> p' ∈ dated_subdirs m -> name p = name p' -> p = p'.
Proof.
  intros Hd [_ Hp]%elem_of_List_filter [_ Hp']%elem_of_List_filter Hn.
  assert (Hdir : is_dir m DATA_DIR = true) by (apply is_dir_lookup; done).
  apply (elem_of_children m _ _ Hdir) in Hp as (Hne & Hpar & _).
  apply (elem_of_children m _ _ Hdir) in Hp' as (Hne' & Hpar' & _).
  rewrite (path_parent_name p Hne), (path_parent_name p' Hne').
  by rewrite Hpar, Hpar', Hn.
Qed.

(** What a successful run of the locator has gone through. *)
Lemma find_latest_Ok (m : fs) (p : path) (d : Datetime.date) :
  find_latest_date_folder m = Ok (p, d) ->
  m !! DATA_DIR = Some Dir /\
  exists cs,
    candidates m (children m DATA_DIR) = Ok cs /\
    (d, p) ∈ cs /\
    forall y, y ∈ cs -> Datetime.ltb d (fst y) = false.
Proof.
  unfold find_latest_date_folder, exists_.
  change (lookup_path m DATA_DIR) with (m !! DATA_DIR).
  destruct (m !! DATA_DIR) as [[|t]|] eqn:Hroot; cbn [negb]; [| |done].
  - rewrite (children_dir m DATA_DIR) by (apply is_dir_lookup; done).
    cbn [mbind result_bind].
    destruct (candidates m _) as [cs|e] eqn:Hcs; [|done].
    cbn [mbind result_bind].
    destruct (sort_desc cs) as [|[d0 p0] t] eqn:Hsort; [done|].
    intros [= -> ->]. split; [done|]. exists cs. split; [done|].
    apply (sort_desc_head _ _ _ Hsort).
  - assert (Hit : iterdir m DATA_DIR = Raise OSError).
    { unfold iterdir. simpl. by rewrite Hroot. }
    by rewrite Hit.
Qed.

Lemma find_latest_in_data (m : fs) (p : path) (d : Datetime.date) :
  find_latest_date_folder m = Ok (p, d) ->
  p ∈ dated_subdirs m /\ p <> [] /\ parent p = DATA_DIR /\ is_dir m p = true.
Proof.
  intros (Hroot & cs & Hcs & Hin & _)%find_latest_Ok.
  destruct (candidates_ok _ _ _ Hcs) as [Hps _].
  fold (dated_subdirs m) in Hps.
  assert (Hp : p ∈ dated_subdirs m).
  { rewrite <- Hps. apply list_elem_of_fmap. by exists (d, p). }
  split; [done|].
  apply elem_of_List_filter in Hp as [[Hd _]%andb_prop Hc].
  assert (Hdir : is_dir m DATA_DIR = true) by (apply is_dir_lookup; done).
  apply (elem_of_children m _ _ Hdir) in Hc as (Hne & Hpar & _). done.
Qed.

(** X20: when the names of the dated directories of [Data/] are ASCII,
    the folder the locator returns is one of them, the date is the one its
    name spells, and every other dated directory has a strictly earlier
    date: the latest folder is unique.  (With digits beyond ASCII two names
    can spell one date.) *)
Theorem find_latest_unique (m : fs) (p : path) (d : Datetime.date) :
  find_latest_date_folder m = Ok (p, d) ->
  Forall (fun q => Forall (fun c => (Str.code c < 128)%N)
                          (Str.of_string (name q))) (dated_subdirs m) ->
  p ∈ dated_subdirs m /\ strptime (name p) = Ok d /\
  forall p', p' ∈ dated_subdirs m -> p' <> p ->
    exists d', strptime (name p') = Ok d' /\ Datetime.ltb d' d = true.
Proof.
  intros (Hroot & cs & Hcs & Hin & Hmax)%find_latest_Ok Hascii.
  rewrite Forall_forall in Hascii.
  destruct (candidates_ok _ _ _ Hcs) as [Hps Hdates].
  fold (dated_subdirs m) in Hps. rewrite Forall_forall in Hdates.
  assert (Hp : p ∈ dated_subdirs m).
  { rewrite <- Hps. apply list_elem_of_fmap. by exists (d, p). }
  pose proof (Hdates _ Hin) as Hd. cbn [fst snd] in Hd.
  split_and!; [done | done |].
  intros p' Hp' Hne. pose proof Hp' as Hp''. rewrite <- Hps in Hp''.
  apply list_elem_of_fmap in Hp'' as ([d' q] & -> & Hq). cbn [snd] in *.
  pose proof (Hdates _ Hq) as Hd'. cbn [fst snd] in Hd'.
  exists d'. split; [done|].
  apply date_ltb_total; [apply (Hmax _ Hq)|].
  intros <-. apply Hne. symmetry.
  apply (dated_subdirs_name_inj m p q Hroot Hp Hp').
  pose proof (Hascii _ Hp) as Ap. pose proof (Hascii _ Hp') as Aq.
  apply elem_of_List_filter in Hp as [[_ Pp]%andb_prop _].
  apply elem_of_List_filter in Hp' as [[_ Pq]%andb_prop _].
  by apply (strptime_inj _ _ d).
Qed.

(** X21: the outcomes of the locator.  Without [Data/] it exits with the
    message about the missing directory; when [Data] is a regular file the
    listing raises; when [strptime] rejects the name of some dated
    directory (it is not a calendar date), it raises [ValueError]; when
    there is no dated directory it exits with the message about that;
    otherwise it returns. *)
Theorem find_latest_outcomes (m : fs) :
  match m !! DATA_DIR with
  | None =>
      find_latest_date_folder m =
      Raise (SystemExit "Missing Data/ directory at repo root.")
  | Some (File _) => find_latest_date_folder m = Raise OSError
  | Some Dir =>
      if forallb (fun p => match strptime (name p) with
                           | Ok _ => true
                           | Raise _ => false
                           end) (dated_subdirs m)
      then
        match dated_subdirs m with
        | [] =>
            find_latest_date_folder m =
            Raise (SystemExit "No dated folder like DD.MM.YYYY inside Data/.")
        | _ :: _ => exists p d, find_latest_date_folder m = Ok (p, d)
        end
      else find_latest_date_folder m = Raise ValueError
  end.
Proof.
  unfold find_latest_date_folder, exists_.
  change (lookup_path m DATA_DIR) with (m !! DATA_DIR).
  destruct (m !! DATA_DIR) as [[|t]|] eqn:Hroot; cbn [negb]; [| |done].
  2:{ assert (Hit : iterdir m DATA_DIR = Raise OSError).
      { unfold iterdir. simpl. by rewrite Hroot. }
      by rewrite Hit. }
  rewrite (children_dir m DATA_DIR) by (apply is_dir_lookup; done).
  cbn [mbind result_bind].
  destruct (forallb _ _) eqn:Hall.
  - destruct (candidates_total m (children m DATA_DIR)) as [cs Hcs].
    { intros p Hp. rewrite forallb_forall in Hall.
      specialize (Hall p ltac:(by apply list_elem_of_In)).
      destruct (strptime (name p)); [eauto | done]. }
    rewrite Hcs. cbn [mbind result_bind].
    destruct (candidates_ok _ _ _ Hcs) as [Hps _].
    fold (dated_subdirs m) in Hps. rewrite <- Hps.
    destruct (sort_desc cs) as [|[d p] t] eqn:Hsort.
    + apply sort_desc_nil in Hsort. by subst cs.
    + destruct cs as [|c cs]; [done|]. simpl. eauto.
  - destruct (candidates m (children m DATA_DIR)) as [cs|e] eqn:Hcs.
    + exfalso. destruct (candidates_ok _ _ _ Hcs) as [Hps Hdates].
      fold (dated_subdirs m) in Hps. rewrite Forall_forall in Hdates.
      apply not_true_iff_false in Hall. apply Hall.
      apply forallb_forall. intros p Hp%list_elem_of_In.
      rewrite <- Hps in Hp.
      apply list_elem_of_fmap in Hp as ([d q] & -> & Hq).
      by rewrite (Hdates _ Hq).
    + apply candidates_raises in Hcs as ->. done.
Qed.

End MoreLocator.

Lemma find_latest_unique_witness :
  ["Data"; "15.03.2024"] ∈ dated_subdirs (E:=example_env) example_fs /\
  strptime (E:=example_env) (name ["Data"; "15.03.2024"])
    = Ok (Datetime.mkdate 2024 3 15) /\
  forall p', p' ∈ dated_subdirs (E:=example_env) example_fs ->
    p' <> ["Data"; "15.03.2024"] ->
    exists d', strptime (E:=example_env) (name p') = Ok d' /\
               Datetime.ltb d' (Datetime.mkdate 2024 3 15) = true.
Proof.
  apply (find_latest_unique (E:=example_env) example_fs).
  - vm_compute. reflexivity.
  - apply Forall_forall. intros q Hq. vm_compute in Hq.
    repeat (apply elem_of_cons in Hq as [-> | Hq]);
      [repeat constructor.. | by apply elem_of_nil in Hq].
Defined.

(** The names of two folders can spell one date when digits beyond ASCII
    stand in the year or as the second digit of a day from 10 to 29;
    anywhere else such a digit passes the pattern and [strptime] raises. *)
Lemma strptime_unicode_digits :
  map (fun s => (date_pattern (E:=example_env) s, strptime (E:=example_env) s))
      ["15.03.2024"; "15.03.٢٠٢٤"; "1٥.03.2024"; "15.03.２０２４";
       "15.03.𝟐𝟎𝟐𝟒"; "٣1.03.2024"; "15.٠3.2024"]
  = [(true, Ok (Datetime.mkdate 2024 3 15));
     (true, Ok (Datetime.mkdate 2024 3 15));
     (true, Ok (Datetime.mkdate 2024 3 15));
     (true, Ok (Datetime.mkdate 2024 3 15));
     (true, Ok (Datetime.mkdate 2024 3 15));
     (true, Raise ValueError);
     (true, Raise ValueError)].
Proof. vm_compute. reflexivity. Qed.

(** ** The order of the listings *)

Lemma elem_of_insert_by_name (x y : path) (l : list path) :
  y ∈ insert_by_name x l <-> y = x \/ y ∈ l.
Proof.
  induction l as [|z l IH]; simpl.
  - rewrite list_elem_of_singleton, elem_of_nil. tauto.
  - destruct (String.ltb _ _); [|by rewrite elem_of_cons].
    rewrite !elem_of_cons, IH. tauto.
Qed.

Lemma elem_of_sort_by_name (y : path) (l : list path) :
  y ∈ sort_by_name l <-> y ∈ l.
Proof.
  induction l as [|x l IH]; simpl; [done|].
  rewrite elem_of_insert_by_name, IH, elem_of_cons. tauto.
Qed.

Lemma ltb_false_le (a b : string) : String.ltb a b = false -> (b ≤ a)%string.
Proof.
  unfold String.ltb, String.le, String.leb.
  rewrite (String.compare_antisym b a).
  by destruct (a ?= b)%string.
Qed.

Lemma ltb_true_le (a b : string) : String.ltb a b = true -> (a ≤ b)%string.
Proof.
  unfold String.ltb, String.le, String.leb. by destruct (a ?= b)%string.
Qed.

Lemma ltb_true_ne (a b : string) : String.ltb a b = true -> a <> b.
Proof.
  unfold String.ltb. intros H ->.
  assert (Hc : (b ?= b)%string = Eq).
  { pose proof (String.compare_antisym b b) as Ha.
    destruct (b ?= b)%string; done. }
  by rewrite Hc in H.
Qed.

Lemma insert_by_name_perm (x : path) (l : list path) :
  insert_by_name x l ≡ₚ x :: l.
Proof.
  induction l as [|y l IH]; simpl; [done|].
  destruct (String.ltb _ _); [|done]. rewrite IH. apply Permutation_swap.
Qed.

Lemma insert_by_name_sorted (x : path) (l : list path) :
  StronglySorted (fun a b => (str_lower (name a) ≤ str_lower (name b))%string) l ->
  StronglySorted (fun a b => (str_lower (name a) ≤ str_lower (name b))%string)
                 (insert_by_name x l).
Proof.
  induction 1 as [|y l Hs IH Hy]; simpl; [repeat constructor|].
  destruct (String.ltb _ _) eqn:Hlt.
  - constructor; [done|]. rewrite Forall_forall in Hy |- *.
    intros z [-> | Hz]%elem_of_insert_by_name; [by apply ltb_true_le | auto].
  - apply ltb_false_le in Hlt. constructor; [by constructor|].
    constructor; [done|]. rewrite Forall_forall in Hy |- *.
    intros z Hz. etrans; [exact Hlt | auto].
Qed.

Lemma insert_by_name_filter (k : string) (x : path) (l : list path) :
  List.filter (fun p => String.eqb (str_lower (name p)) k) (insert_by_name x l) =
  List.filter (fun p => String.eqb (str_lower (name p)) k) (x :: l).
Proof.
  induction l as [|y l IH]; [done|]. simpl insert_by_name.
  destruct (String.ltb _ _) eqn:Hlt; [|done].
  apply ltb_true_ne in Hlt. simpl in *. rewrite IH.
  destruct (String.eqb_spec (str_lower (name y)) k) as [Hy | Hy],
           (String.eqb_spec (str_lower (name x)) k) as [Hx | Hx];
    try done. congruence.
Qed.

Lemma sort_by_name_perm (l : list path) : sort_by_name l ≡ₚ l.
Proof.
  induction l as [|x l IH]; simpl; [done|].
  by rewrite insert_by_name_perm, IH.
Qed.

Lemma sort_by_name_sorted (l : list path) :
  StronglySorted (fun a b => (str_lower (name a) ≤ str_lower (name b))%string)
                 (sort_by_name l).
Proof.
  induction l as [|x l IH]; simpl; [constructor|].
  by apply insert_by_name_sorted.
Qed.

(** X28: the regions of the home page and the country files of a region
    are taken in the ascending order of their lower-cased names: the
    sorted list holds the same paths, each as often as before, a path
    never comes before one with a smaller lower-cased name, and paths with
    the same lower-cased name keep the order of the directory listing. *)
Theorem sort_by_name_spec (l : list path) :
  sort_by_name l ≡ₚ l /\
  StronglySorted (fun a b => (str_lower (name a) ≤ str_lower (name b))%string)
                 (sort_by_name l) /\
  forall k,
    List.filter (fun p => String.eqb (str_lower (name p)) k) (sort_by_name l) =
    List.filter (fun p => String.eqb (str_lower (name p)) k) l.
Proof.
  induction l as [|x l (IH1 & IH2 & IH3)]; simpl.
  - split_and!; [done | constructor | done].
  - split_and!.
    + by rewrite insert_by_name_perm, IH1.
    + by apply insert_by_name_sorted.
    + intros k. rewrite insert_by_name_filter. simpl. by rewrite IH3.
Qed.

(** ** More on the build *)

Section MoreBuild.
Context {E : Env}.

(** Every write of the three loops is a page rendered by [tpl_base], one
    to three directories below the output root: what such writes keep,
    the loops keep. *)
Lemma build_row_invariant (P : fs -> Prop) :
  (forall ds t d b c m m',
     (1 <= length ds <= 3)%nat ->
     write_html (DIST ++ ds ++ ["index.html"]) (tpl_base t d b c) m = Ok m' ->
     P m -> P m') ->
  forall date_obj region_name r_slug country_name c_slug st st' r,
    build_row date_obj region_name r_slug country_name c_slug st r = Ok st' ->
    P st.1 -> P st'.1.
Proof.
  intros Hstep date_obj region_name r_slug country_name c_slug [m rows] st' r.
  unfold build_row.
  intros ([[sig conf] reason] & _ & (sym & _ & (description & _ & (exch & _ &
          (sec & _ & (ind & _ & (m1 & Hw & [= <-])%bind_Ok)%bind_Ok)%bind_Ok)%bind_Ok)%bind_Ok)%bind_Ok)%bind_Ok.
  simpl. intros Hm.
  destruct (ohlc r) as [[[[o h] l] c]|]; [|by injection Hw as <-].
  apply bind_Ok in Hw as (pred & _ & (pct & _ & Hw)%bind_Ok).
  apply (Hstep [r_slug; c_slug; _] _ _ _ _ _ _ ltac:(simpl; lia) Hw Hm).
Qed.

Lemma build_country_invariant (P : fs -> Prop) :
  (forall ds t d b c m m',
     (1 <= length ds <= 3)%nat ->
     write_html (DIST ++ ds ++ ["index.html"]) (tpl_base t d b c) m = Ok m' ->
     P m -> P m') ->
  forall date_obj region_name r_slug st st' csv,
    build_country date_obj region_name r_slug st csv = Ok st' ->
    P st.1 -> P st'.1.
Proof.
  intros Hstep date_obj region_name r_slug [m links] st' csv.
  unfold build_country.
  intros (df & _ & ([m1 rows_html] & Hrows & (m2 & Hw & [= <-])%bind_Ok)%bind_Ok)%bind_Ok.
  simpl. intros Hm.
  apply (Hstep [r_slug; _] _ _ _ _ _ _ ltac:(simpl; lia) Hw).
  apply (foldM_invariant (fun st : fs * list string => P st.1) _ _
           (fun b a b' => build_row_invariant P Hstep _ _ _ _ _ b b' a)
           _ _ Hrows Hm).
Qed.

Lemma build_region_invariant (P : fs -> Prop) :
  (forall ds t d b c m m',
     (1 <= length ds <= 3)%nat ->
     write_html (DIST ++ ds ++ ["index.html"]) (tpl_base t d b c) m = Ok m' ->
     P m -> P m') ->
  forall date_obj m m' region,
    build_region date_obj m region = Ok m' -> P m -> P m'.
Proof.
  intros Hstep date_obj m m' region. unfold build_region.
  intros ([m1 links] & Hcs & Hw)%bind_Ok Hm.
  apply (Hstep [_] _ _ _ _ _ _ ltac:(simpl; lia) Hw).
  apply (foldM_invariant (fun st : fs * list (string * string) => P st.1) _ _
           (fun b a b' => build_country_invariant P Hstep _ _ _ b b' a)
           _ _ Hcs Hm).
Qed.

Lemma build_regions_invariant (P : fs -> Prop) :
  (forall ds t d b c m m',
     (1 <= length ds <= 3)%nat ->
     write_html (DIST ++ ds ++ ["index.html"]) (tpl_base t d b c) m = Ok m' ->
     P m -> P m') ->
  forall date_obj regions m m',
    foldM (build_region date_obj) m regions = Ok m' -> P m -> P m'.
Proof.
  intros Hstep date_obj regions m m' H.
  apply (foldM_invariant P _ _
           (fun b a b' => build_region_invariant P Hstep date_obj b b' a) _ _ H).
Qed.

Lemma build_pages_invariant (P : fs -> Prop) :
  (forall ds t d b c m m',
     (length ds <= 3)%nat ->
     write_html (DIST ++ ds ++ ["index.html"]) (tpl_base t d b c) m = Ok m' ->
     P m -> P m') ->
  forall date_dir date_obj m m',
    build_pages date_dir date_obj m = Ok m' -> P m -> P m'.
Proof.
  intros Hstep date_dir date_obj m m'. unfold build_pages.
  intros (ps & _ & (m1 & Hw & Hrs)%bind_Ok)%bind_Ok Hm.
  apply (build_regions_invariant P
           (fun ds t d b c m m' Hl => Hstep ds t d b c m m' (proj2 Hl))
           _ _ _ _ Hrs).
  unfold home_page in Hw.
  apply (Hstep [] _ _ _ _ _ _ ltac:(simpl; lia) Hw Hm).
Qed.

(** A page below the output root: what its writing leaves outside. *)
Lemma page_parent (ds : list string) :
  parent (DIST ++ ds ++ ["index.html"]) = DIST ++ ds.
Proof. by rewrite app_assoc, parent_app. Qed.

Lemma write_page_outside (ds : list string) (html : string) (m m' : fs) :
  write_html (DIST ++ ds ++ ["index.html"]) html m = Ok m' ->
  forall k, ¬ DIST `prefix_of` k -> m' !! k = m !! k.
Proof.
  intros H k Hk.
  destruct (write_html_spec _ _ _ _ H) as [_ Hrest].
  assert (Hne : k <> DIST ++ ds ++ ["index.html"]).
  { intros ->. apply Hk. by apply prefix_app_r. }
  destruct (Hrest k Hne) as [H1 H2].
  destruct (m !! k) as [e|] eqn:Ek; [by apply H1|].
  destruct (m' !! k) as [e|] eqn:Ek'; [|done].
  destruct (H2 e eq_refl) as [? | (_ & Hk1 & Hk2)]; [done|].
  rewrite page_parent in Hk2. destruct Hk. destruct Hk2 as [s Hs].
  destruct k as [|x k]; [done|]. simpl in Hs. injection Hs as <- _.
  by apply prefix_cons, prefix_nil.
Qed.

Lemma write_text_outside (p : path) (text : string) (m m' : fs) :
  DIST `prefix_of` p -> write_text p text m = Ok m' ->
  forall k, ¬ DIST `prefix_of` k -> m' !! k = m !! k.
Proof.
  intros Hp ->%write_text_Ok k Hk. by rewrite lookup_insert_ne by (by intros <-).
Qed.

Lemma reset_dist_outside (m m1 : fs) :
  reset_dist m = Ok m1 ->
  forall k, ¬ DIST `prefix_of` k -> m1 !! k = m !! k.
Proof.
  unfold reset_dist. intros (m0 & H0 & Hmk)%bind_Ok k Hk.
  assert (H0' : m0 !! k = m !! k).
  { destruct (exists_ m DIST); [|by injection H0 as <-].
    unfold rmtree in H0. destruct (m !! DIST) as [[|?]|]; try done.
    injection H0 as <-. rewrite map_lookup_filter.
    destruct (m !! k) as [e|]; simpl; [|done].
    by rewrite option_guard_True. }
  rewrite <- H0'. destruct (mkdir_p_spec _ _ _ Hmk k) as [H1 H2].
  destruct (m0 !! k) as [e|] eqn:Ek; [by apply H1|].
  destruct (m1 !! k) as [e|] eqn:Ek'; [|done].
  destruct (H2 e eq_refl) as [? | (_ & Hk1 & Hk2)]; [done|].
  destruct Hk. destruct Hk2 as [s Hs].
  destruct k as [|x k]; [done|]. simpl in Hs. injection Hs as <- _.
  by apply prefix_cons, prefix_nil.
Qed.

Lemma copy_css_outside (m m' : fs) :
  copy_css m = Ok m' ->
  forall k, ¬ DIST `prefix_of` k -> m' !! k = m !! k.
Proof.
  assert (Hp : DIST `prefix_of` DIST ++ ["static"; "styles.css"])
    by (by apply prefix_app_r).
  unfold copy_css. destruct (exists_ m _).
  - intros (text & _ & Hw)%bind_Ok. apply (write_text_outside _ _ _ _ Hp Hw).
  - intros Hw. apply (write_text_outside _ _ _ _ Hp Hw).
Qed.

Lemma build_pages_outside (date_dir : path) (date_obj : Datetime.date) (m m' : fs) :
  build_pages date_dir date_obj m = Ok m' ->
  forall k, ¬ DIST `prefix_of` k -> m' !! k = m !! k.
Proof.
  intros H.
  apply (build_pages_invariant
           (fun x => forall k, ¬ DIST `prefix_of` k -> x !! k = m !! k)
           (fun ds t d b c m1 m2 _ Hw Hm k Hk =>
              eq_trans (write_page_outside ds _ m1 m2 Hw k Hk) (Hm k Hk))
           _ _ _ _ H).
  done.
Qed.

(** The steps of a build that succeeds. *)
Lemma main_steps (m m' : fs) :
  main m = Ok m' ->
  exists date_dir date_obj m1 m2 m3 m4,
    find_latest_date_folder m = Ok (date_dir, date_obj) /\
    reset_dist m = Ok m1 /\ copy_css m1 = Ok m2 /\
    build_pages date_dir date_obj m2 = Ok m3 /\
    write_robots m3 = Ok m4 /\ write_sitemap m4 = Ok m'.
Proof.
  unfold main.
  intros ([date_dir date_obj] & Hfind & (m1 & H1 & (m2 & H2 & (m3 & H3 &
          (m4 & H4 & H5)%bind_Ok)%bind_Ok)%bind_Ok)%bind_Ok)%bind_Ok.
  by exists date_dir, date_obj, m1, m2, m3, m4.
Qed.

Lemma main_outside (m m' : fs) :
  main m = Ok m' ->
  forall k, ¬ DIST `prefix_of` k -> m' !! k = m !! k.
Proof.
  intros (date_dir & date_obj & m1 & m2 & m3 & m4 & _ & H1 & H2 & H3 & H4 & H5)%main_steps
         k Hk.
  assert (Hr : DIST `prefix_of` DIST ++ ["robots.txt"]) by (by apply prefix_app_r).
  assert (Hs : DIST `prefix_of` DIST ++ ["sitemap.xml"]) by (by apply prefix_app_r).
  rewrite (write_text_outside _ _ _ _ Hs H5 k Hk).
  rewrite (write_text_outside _ _ _ _ Hr H4 k Hk).
  rewrite (build_pages_outside _ _ _ _ H3 k Hk).
  rewrite (copy_css_outside _ _ H2 k Hk).
  apply (reset_dist_outside _ _ H1 k Hk).
Qed.

(** X22: a build writes below the output root only: every entry of the
    file system outside [dist] is after the build what it was before, and
    nothing is created there. *)
Theorem main_writes_below_dist (m m' : fs) :
  main m = Ok m' ->
  forall k, ¬ DIST `prefix_of` k -> m' !! k = m !! k.
Proof. exact (main_outside m m'). Qed.

Lemma data_not_dist (k : path) :
  DATA_DIR `prefix_of` k -> ¬ DIST `prefix_of` k.
Proof. intros [s ->] [s' Hs]. discriminate Hs. Qed.

(** What the build reads below [Data/] it finds as it was before. *)
Lemma listing_agree (m m2 : fs) (p : path) :
  (forall k, ¬ DIST `prefix_of` k -> m2 !! k = m !! k) ->
  DATA_DIR `prefix_of` p ->
  iterdir m2 p = iterdir m p /\
  forall k, k <> [] -> parent k = p -> is_dir m2 k = is_dir m k.
Proof.
  intros Hag Hp.
  assert (Hl : forall k, DATA_DIR `prefix_of` k -> lookup_path m2 k = lookup_path m k).
  { intros k Hk. unfold lookup_path. destruct k; [done|].
    by apply Hag, data_not_dist. }
  split.
  - apply iterdir_agree; [by apply Hl|]. intros k Hk Hpar.
    apply Hag, data_not_dist. etrans; [done|]. by apply prefix_parent.
  - intros k Hk Hpar. unfold is_dir. rewrite Hl; [done|].
    etrans; [done|]. by apply prefix_parent.
Qed.

(** A file with another name than [index.html] stays through the loops;
    so does the home page. *)
Lemma page_name (ds : list string) : name (DIST ++ ds ++ ["index.html"]) = "index.html".
Proof. by rewrite app_assoc, name_app. Qed.

Lemma write_page_keeps (q : path) (x : entry) (ds : list string)
    (html : string) (m m' : fs) :
  q <> DIST ++ ds ++ ["index.html"] ->
  write_html (DIST ++ ds ++ ["index.html"]) html m = Ok m' ->
  m !! q = Some x -> m' !! q = Some x.
Proof.
  intros Hq [_ Hrest]%write_html_spec Hx. by apply (Hrest q Hq).
Qed.

Lemma build_pages_keeps (q : path) (x : entry)
    (date_dir : path) (date_obj : Datetime.date) (m m' : fs) :
  name q <> "index.html" ->
  build_pages date_dir date_obj m = Ok m' ->
  m !! q = Some x -> m' !! q = Some x.
Proof.
  intros Hq H.
  apply (build_pages_invariant (fun y => y !! q = Some x)
           (fun ds t d b c m1 m2 _ Hw =>
              write_page_keeps q x ds _ m1 m2
                (fun Heq => Hq (eq_trans (f_equal name Heq) (page_name ds))) Hw)
           _ _ _ _ H).
Qed.

Lemma home_ne (ds : list string) :
  (1 <= length ds)%nat -> DIST ++ ["index.html"] <> DIST ++ ds ++ ["index.html"].
Proof.
  intros Hl Heq. apply (f_equal length) in Heq.
  rewrite !length_app in Heq. simpl in Heq. lia.
Qed.

Lemma build_regions_keep_home (x : entry)
    (date_obj : Datetime.date) (regions : list path) (m m' : fs) :
  foldM (build_region date_obj) m regions = Ok m' ->
  m !! (DIST ++ ["index.html"]) = Some x ->
  m' !! (DIST ++ ["index.html"]) = Some x.
Proof.
  intros H.
  apply (build_regions_invariant (fun y => y !! (DIST ++ ["index.html"]) = Some x)
           (fun ds t d b c m1 m2 Hl Hw =>
              write_page_keeps _ x ds _ m1 m2 (home_ne ds (proj1 Hl)) Hw)
           _ _ _ _ H).
Qed.

Lemma write_text_lookup (p : path) (text : string) (m m' : fs) :
  write_text p text m = Ok m' ->
  m' !! p = Some (File text) /\ forall k, k <> p -> m' !! k = m !! k.
Proof.
  intros ->%write_text_Ok. split; [by rewrite lookup_insert_eq|].
  intros k Hk. by rewrite lookup_insert_ne.
Qed.

(** The home page and its entry in the sitemap. *)
Lemma main_home_page_steps (m m' : fs) :
  main m = Ok m' ->
  exists date_dir date_obj pages,
    find_latest_date_folder m = Ok (date_dir, date_obj) /\
    m' !! (DIST ++ ["index.html"]) =
      Some (File (home_page
                    (sort_by_name (List.filter (is_dir m) (children m date_dir))))) /\
    m' !! (DIST ++ ["sitemap.xml"]) =
      Some (File (sitemap_xml (map sitemap_url pages))) /\
    DIST ++ ["index.html"] ∈ pages /\
    sitemap_url (DIST ++ ["index.html"]) = BASE_URL +:+ "/".
Proof.
  intros (date_dir & date_obj & m1 & m2 & m3 & m4 & Hf & H1 & H2 & H3 & H4 & H5)%main_steps.
  exists date_dir, date_obj, (rglob m4 DIST "index.html").
  assert (Hag : forall k, ¬ DIST `prefix_of` k -> m2 !! k = m !! k).
  { intros k Hk. rewrite (copy_css_outside _ _ H2 k Hk).
    apply (reset_dist_outside _ _ H1 k Hk). }
  destruct (find_latest_in_data _ _ _ Hf) as (_ & Hne & Hpar & Hdir).
  assert (Hdata : DATA_DIR `prefix_of` date_dir) by (by apply prefix_parent).
  destruct (listing_agree m m2 date_dir Hag Hdata) as [Hit Hisd].
  assert (Hhome : m3 !! (DIST ++ ["index.html"]) =
    Some (File (home_page
                  (sort_by_name (List.filter (is_dir m) (children m date_dir)))))).
  { unfold build_pages in H3.
    apply bind_Ok in H3 as (ps & Hps & (m21 & Hw & Hrs)%bind_Ok).
    apply (build_regions_keep_home _ _ _ _ _ Hrs).
    destruct (write_html_spec _ _ _ _ Hw) as [-> _]. do 4 f_equal.
    rewrite Hit, (children_dir m date_dir Hdir) in Hps. injection Hps as <-.
    apply filter_ext_in. intros k Hk%list_elem_of_In.
    apply (elem_of_children m _ _ Hdir) in Hk as (Hk1 & Hk2 & _).
    by apply Hisd. }
  destruct (write_text_lookup _ _ _ _ H4) as [_ Hk4].
  unfold write_sitemap in H5.
  destruct (write_text_lookup _ _ _ _ H5) as [Hs5 Hk5].
  assert (Hhome4 : m4 !! (DIST ++ ["index.html"]) =
    Some (File (home_page
                  (sort_by_name (List.filter (is_dir m) (children m date_dir)))))).
  { by rewrite Hk4. }
  split_and!; [done | by rewrite Hk5 | done | |].
  - apply elem_of_rglob. split_and!; [|done|by rewrite Hhome4].
    split; [by apply prefix_app_r | done].
  - by rewrite (sitemap_url_page []).
Qed.

Lemma NoDup_children (m : fs) (p : path) : NoDup (children m p).
Proof.
  unfold children, iterdir.
  destruct (lookup_path m p) as [[|?]|]; [|apply NoDup_nil_2..].
  rewrite merge_sort_Permutation. apply NoDup_List_filter, NoDup_keys.
Qed.

(** X23: after a build the home page [dist/index.html] lists the
    sub-directories of the latest dated folder, as they were before the
    build, each once, in ascending order of their lower-cased names: it is
    the page with one [li] link per directory between the heading and the
    end of the list; and [sitemap.xml] holds a [url/loc] entry with the URL
    of the home page, the base URL with a slash. *)
Theorem main_home_page (m m' : fs) :
  main m = Ok m' ->
  exists date_dir date_obj regions pages,
    find_latest_date_folder m = Ok (date_dir, date_obj) /\
    NoDup regions /\
    (forall p, p ∈ regions <->
       p <> [] /\ parent p = date_dir /\ m !! p = Some Dir) /\
    StronglySorted
      (fun a b => (str_lower (name a) ≤ str_lower (name b))%string) regions /\
    m' !! (DIST ++ ["index.html"]) =
      Some (File
              (tpl_base
                 (get (cfg_site_title CFG) "" +:+ " — " +:+
                  get (cfg_site_tagline CFG) "")
                 "Daily static stock prediction pages built from your uploaded CSVs."
                 (str_join LF
                    (["<section class='card'><h2 class='h2'>Browse Regions</h2><ul>"] ++
                     map (fun r => "<li><a href='" +:+ BASE_URL +:+ "/" +:+
                                   slug (name r) +:+ "/index.html'>" +:+
                                   name r +:+ "</a></li>") regions ++
                     ["</ul></section>"]))
                 (BASE_URL +:+ "/"))) /\
    DIST ++ ["index.html"] ∈ pages /\
    sitemap_url (DIST ++ ["index.html"]) = BASE_URL +:+ "/" /\
    m' !! (DIST ++ ["sitemap.xml"]) =
      Some (File
              ("<?xml version='1.0' encoding='UTF-8'?>" +:+
               "<urlset xmlns='http://www.sitemaps.org/schemas/sitemap/0.9'>" +:+
               fold_right
                 (fun p rest =>
                    ("<url><loc>" +:+ sitemap_url p +:+ "</loc></url>") +:+ rest)
                 "</urlset>" pages)).
Proof.
  intros H.
  destruct (main_home_page_steps m m' H)
    as (date_dir & date_obj & pages & Hf & Hhome & Hsm & Hin & Hurl).
  destruct (find_latest_in_data _ _ _ Hf) as (_ & _ & _ & Hdir).
  exists date_dir, date_obj,
    (sort_by_name (List.filter (is_dir m) (children m date_dir))), pages.
  split_and!; try done.
  - rewrite sort_by_name_perm. apply NoDup_List_filter, NoDup_children.
  - intros p. rewrite elem_of_sort_by_name, elem_of_List_filter.
    rewrite (elem_of_children m date_dir p Hdir), is_dir_lookup.
    destruct p as [|x p]; [tauto|]. simpl. split.
    + intros (Hd & Hne & Hpar & _). done.
    + intros (Hne & Hpar & Hd). rewrite Hd. eauto.
  - apply sort_by_name_sorted.
  - by rewrite Hsm, sitemap_xml_entries.
Qed.

(** X24: after a build [dist/static/styles.css] holds the text of
    [static/styles.css] when that file exists, and the built-in style
    sheet otherwise. *)
Theorem main_stylesheet (m m' : fs) :
  main m = Ok m' ->
  m' !! (DIST ++ ["static"; "styles.css"]) =
  Some (File match m !! ["static"; "styles.css"] with
             | Some (File text) => text
             | _ => fallback_css
             end).
Proof.
  intros (date_dir & date_obj & m1 & m2 & m3 & m4 & _ & H1 & H2 & H3 & H4 & H5)%main_steps.
  destruct (write_text_lookup _ _ _ _ H4) as [_ Hk4].
  destruct (write_text_lookup _ _ _ _ H5) as [_ Hk5].
  rewrite Hk5 by done. rewrite Hk4 by done.
  assert (Hn : name (DIST ++ ["static"; "styles.css"]) <> "index.html")
    by (vm_compute; discriminate).
  apply (build_pages_keeps _ _ _ _ _ _ Hn H3).
  assert (Hsrc : m1 !! ["static"; "styles.css"] = m !! ["static"; "styles.css"]).
  { apply (reset_dist_outside _ _ H1). intros [s Hs]. discriminate Hs. }
  rewrite <- Hsrc. unfold copy_css, exists_, read_text, lookup_path in H2.
  destruct (m1 !! ["static"; "styles.css"]) as [[|text]|]; [done | |].
  - cbn [mbind result_bind] in H2. by destruct (write_text_lookup _ _ _ _ H2).
  - by destruct (write_text_lookup _ _ _ _ H2).
Qed.

(** *** The file system stays a tree *)

Lemma is_dir_insert (m : fs) (q k : path) (x : entry) :
  is_dir m k = true -> k <> q -> is_dir (<[q := x]> m) k = true.
Proof.
  unfold is_dir, lookup_path. destruct k; [done|]. intros H Hk.
  by rewrite lookup_insert_ne.
Qed.

Lemma is_dir_insert_dir (m : fs) (q k : path) :
  is_dir m k = true -> is_dir (<[q := Dir]> m) k = true.
Proof.
  intros H. destruct (decide (k = q)) as [-> | Hk]; [|by apply is_dir_insert].
  unfold is_dir, lookup_path. destruct q; [done|]. by rewrite lookup_insert_eq.
Qed.

Lemma mkdir_from_tree (todo pre : path) (m m' : fs) :
  tree m -> is_dir m pre = true ->
  mkdir_from pre todo m = Ok m' -> tree m'.
Proof.
  revert pre m. induction todo as [|n rest IH]; intros pre m Ht Hd; simpl.
  - by intros [= <-].
  - destruct (m !! (pre ++ [n])) as [[|?]|] eqn:Eq; [| done |].
    + apply IH; [done|]. apply is_dir_lookup. unfold lookup_path.
      by destruct (pre ++ [n]) eqn:E0; [destruct pre|].
    + apply IH.
      * intros k [e Hk]. destruct (decide (k = pre ++ [n])) as [-> | Hne].
        -- rewrite parent_app. by apply is_dir_insert_dir.
        -- rewrite lookup_insert_ne in Hk by done.
           apply is_dir_insert_dir, Ht. eauto.
      * apply is_dir_lookup. unfold lookup_path.
        destruct (pre ++ [n]) eqn:E0; [by destruct pre|].
        by rewrite lookup_insert_eq.
Qed.

Lemma write_text_tree (p : path) (text : string) (m m' : fs) :
  tree m -> write_text p text m = Ok m' -> tree m'.
Proof.
  intros Ht Hw.
  assert (Hne : p <> []) by (intros ->; discriminate Hw).
  rewrite write_text_unfold in Hw by done.
  destruct (is_dir m (parent p)) eqn:Hd; [|done].
  assert (Hp : m !! p <> Some Dir /\ m' = <[p := File text]> m).
  { destruct (m !! p) as [[|?]|]; try done; by injection Hw as <-. }
  destruct Hp as [Hp ->]. intros k [e Hk].
  assert (Hpar : forall k', is_dir m k' = true -> is_dir (<[p := File text]> m) k' = true).
  { intros k' Hk'. apply is_dir_insert; [done|]. intros ->.
    apply is_dir_lookup in Hk'. unfold lookup_path in Hk'.
    by destruct p. }
  destruct (decide (k = p)) as [-> | Hkp]; [by apply Hpar|].
  rewrite lookup_insert_ne in Hk by done. apply Hpar, Ht. eauto.
Qed.

Lemma write_html_tree (p : path) (html : string) (m m' : fs) :
  tree m -> write_html p html m = Ok m' -> tree m'.
Proof.
  intros Ht (m1 & Hm1 & Hw)%bind_Ok.
  apply (write_text_tree _ _ _ _ (mkdir_from_tree _ [] _ _ Ht eq_refl Hm1) Hw).
Qed.

Lemma reset_state_tree (m m1 : fs) : tree m -> reset_state m m1 -> tree m1.
Proof.
  intros Ht Hst k [e Hk]. rewrite Hst in Hk.
  apply is_dir_lookup. unfold lookup_path.
  destruct (parent k) as [|x q] eqn:Ep; [done|]. rewrite <- Ep.
  assert (Hne : k <> []) by (intros ->; discriminate Ep).
  rewrite Hst.
  destruct (decide (k = DIST ∨ k = DIST ++ ["static"])) as [[-> | ->] | Hk1];
    [discriminate Ep | by vm_compute |].
  destruct (decide (DIST `prefix_of` k)) as [? | Hk2]; [done|].
  assert (Hp : ¬ DIST `prefix_of` parent k).
  { intros Hp. apply Hk2. etrans; [done|]. by apply prefix_parent. }
  rewrite decide_False.
  2:{ intros [Hq | Hq]; apply Hp; rewrite Hq; [done | by apply prefix_app_r]. }
  rewrite decide_False by done.
  specialize (Ht k ltac:(eauto)). apply is_dir_lookup in Ht.
  unfold lookup_path in Ht. by rewrite Ep in Ht |- *.
Qed.

Lemma main_tree (m m' : fs) : tree m -> main m = Ok m' -> tree m'.
Proof.
  intros Ht (date_dir & date_obj & m1 & m2 & m3 & m4 & _ & H1 & H2 & H3 & H4 & H5)%main_steps.
  apply (write_text_tree _ _ _ _) in H5; [done|].
  apply (write_text_tree _ _ _ _) in H4; [done|].
  apply (build_pages_invariant tree
           (fun ds t d b c x y _ Hw Hx => write_html_tree _ _ x y Hx Hw)
           _ _ _ _ H3).
  assert (Ht1 : tree m1).
  { destruct (reset_dist_cases m Ht) as [[Hr _] | (m1' & Hr & Hst)];
      [congruence|].
    assert (m1' = m1) as -> by congruence. by apply (reset_state_tree m). }
  unfold copy_css in H2. destruct (exists_ m1 _).
  - apply bind_Ok in H2 as (text & _ & Hw). by apply (write_text_tree _ _ _ _ Ht1 Hw).
  - by apply (write_text_tree _ _ _ _ Ht1 H2).
Qed.

(** What a build returns does not depend on what the output root held. *)
Lemma main_agree (m0 m : fs) :
  tree m0 -> tree m ->
  (forall k, ¬ DIST `prefix_of` k -> m0 !! k = m !! k) ->
  (forall t, m !! DIST <> Some (File t)) ->
  (forall t, m0 !! DIST <> Some (File t)) ->
  main m0 = main m.
Proof.
  intros Ht0 Ht Hagree Hm Hm0. unfold main.
  rewrite (find_latest_agree m0 m).
  2:{ intros k Hk. by apply Hagree, data_not_dist. }
  destruct (find_latest_date_folder m) as [[date_dir date_obj]|]; [|done].
  cbn [mbind result_bind].
  destruct (reset_dist_cases m Ht) as [[_ [t Hf]] | (m1 & Hr & Hst)];
    [by destruct (Hm t)|].
  destruct (reset_dist_cases m0 Ht0) as [[_ [t Hf]] | (m1' & Hr' & Hst')];
    [by destruct (Hm0 t)|].
  rewrite Hr, Hr'. by rewrite (reset_state_agree m m0 m1 m1' Hagree Hst Hst').
Qed.

Lemma main_dist_dir (m m' : fs) : tree m -> main m = Ok m' ->
  m' !! DIST = Some Dir /\ forall t, m !! DIST <> Some (File t).
Proof.
  intros Ht (date_dir & date_obj & m1 & m2 & m3 & m4 & _ & H1 & H2 & H3 & H4 & H5)%main_steps.
  destruct (reset_dist_cases m Ht) as [[Hr _] | (m1' & Hr & Hst)]; [congruence|].
  assert (m1' = m1) as -> by congruence.
  assert (Hd1 : m1 !! DIST = Some Dir).
  { rewrite Hst. by rewrite decide_True by (by left). }
  split.
  - destruct (write_text_lookup _ _ _ _ H4) as [_ Hk4].
    destruct (write_text_lookup _ _ _ _ H5) as [_ Hk5].
    rewrite Hk5 by done. rewrite Hk4 by done.
    assert (Hn : name DIST <> "index.html") by (vm_compute; discriminate).
    apply (build_pages_keeps _ _ _ _ _ _ Hn H3).
    unfold copy_css in H2. destruct (exists_ m1 _).
    + apply bind_Ok in H2 as (text & _ & Hw).
      destruct (write_text_lookup _ _ _ _ Hw) as [_ Hk2]. by rewrite Hk2.
    + destruct (write_text_lookup _ _ _ _ H2) as [_ Hk2]. by rewrite Hk2.
  - intros t Hf. unfold reset_dist, exists_, rmtree in H1.
    change (lookup_path m DIST) with (m !! DIST) in H1.
    by rewrite Hf in H1.
Qed.

(** X25: building again gives the same site: run on the result of a
    build, with the same clock and configuration, the build returns that
    result unchanged. *)
Theorem main_idempotent (m m' : fs) :
  tree m -> main m = Ok m' -> main m' = Ok m'.
Proof.
  intros Ht H. rewrite <- H.
  destruct (main_dist_dir m m' Ht H) as [Hd Hm].
  apply main_agree; [by apply (main_tree m) | done | by apply main_outside |
                     done | by rewrite Hd].
Qed.

(** *** Every page the loops reach is written *)

(** A loop establishes for each of its elements what each turn
    establishes for its own and keeps for the others. *)
Lemma foldM_establish {A B : Type} (I : B -> Prop) (Q : A -> B -> Prop)
    (f : B -> A -> result B) (l : list A) :
  (forall b a b', a ∈ l -> I b -> f b a = Ok b' ->
     I b' /\ Q a b' /\ forall x, Q x b -> Q x b') ->
  forall b b', I b -> foldM f b l = Ok b' ->
    I b' /\ (forall x, x ∈ l -> Q x b') /\ (forall x, Q x b -> Q x b').
Proof.
  induction l as [|a l IH]; intros Hf b b' Hb; simpl.
  - intros [= <-]. split_and!; [done | by intros x Hx%elem_of_nil | done].
  - intros (b1 & H1 & H2)%bind_Ok.
    destruct (Hf b a b1 ltac:(by left) Hb H1) as (Hb1 & Ha & Hk).
    destruct (IH (fun b a b' Ha => Hf b a b' ltac:(by right)) b1 b' Hb1 H2)
      as (Hb' & Hl & Hk').
    split_and!; [done | | by auto].
    intros x [-> | Hx]%elem_of_cons; [by apply Hk' | by apply Hl].
Qed.

Lemma write_page_page_at (q : path) (ds : list string) (t d b c : string)
    (m m' : fs) :
  write_html (DIST ++ ds ++ ["index.html"]) (tpl_base t d b c) m = Ok m' ->
  page_at m' (DIST ++ ds ++ ["index.html"]) /\
  (page_at m q -> page_at m' q).
Proof.
  intros [Hp Hrest]%write_html_spec. split.
  - eexists. split; [done|]. unfold rendered. eauto.
  - intros (e & He & Hr).
    destruct (decide (q = DIST ++ ds ++ ["index.html"])) as [-> | Hq].
    + eexists. split; [done|]. unfold rendered. eauto.
    + exists e. split; [|done]. by apply (Hrest q Hq).
Qed.

Lemma write_text_page_at (p q : path) (text : string) (m m' : fs) :
  name p <> "index.html" -> name q = "index.html" ->
  write_text p text m = Ok m' -> page_at m q -> page_at m' q.
Proof.
  intros Hp Hq [_ Hk]%write_text_lookup (e & He & Hr).
  exists e. split; [|done]. rewrite Hk; [done|]. congruence.
Qed.

Lemma agrees_page (m : fs) (ds : list string) (html : string) (x y : fs) :
  write_html (DIST ++ ds ++ ["index.html"]) html x = Ok y ->
  agrees m x -> agrees m y.
Proof.
  intros Hw Hx k Hk. rewrite (write_page_outside _ _ _ _ Hw k Hk). by apply Hx.
Qed.

Lemma build_row_pages (date_obj : Datetime.date)
    (region_name r_slug country_name c_slug : string) (m : fs)
    (rows : list row) (st st' : fs * list string) :
  agrees m st.1 ->
  foldM (build_row date_obj region_name r_slug country_name c_slug) st rows
    = Ok st' ->
  agrees m st'.1 /\
  (forall r, r ∈ rows -> ohlc r <> None ->
     exists sym description,
       text_of r "symbol" = Ok sym /\ text_of r "description" = Ok description /\
       page_at st'.1 (DIST ++ [r_slug; c_slug;
                               slug (str_or (str_or description sym) sym);
                               "index.html"])) /\
  (forall q, page_at st.1 q -> page_at st'.1 q).
Proof.
  intros Hag H.
  pose (Q := fun (r : row) (s : fs * list string) =>
     ohlc r <> None ->
     exists sym description,
       text_of r "symbol" = Ok sym /\ text_of r "description" = Ok description /\
       page_at s.1 (DIST ++ [r_slug; c_slug;
                             slug (str_or (str_or description sym) sym);
                             "index.html"])).
  pose (I := fun s : fs * list string =>
     agrees m s.1 /\ forall q, page_at st.1 q -> page_at s.1 q).
  assert (Hf : forall b a b', a ∈ rows -> I b ->
            build_row date_obj region_name r_slug country_name c_slug b a = Ok b' ->
            I b' /\ Q a b' /\ forall x, Q x b -> Q x b').
  2:{ destruct (foldM_establish I Q _ rows Hf st st' ltac:(by split) H)
        as ((Hag' & Hk') & Hall & _). by split_and!. }
  intros [x rows_html] r b' _ [Hx Hxk]. unfold build_row.
  intros ([[sig conf] reason] & _ & (sym & Hsym & (description & Hdesc & (exch & _ &
          (sec & _ & (ind & _ & (m1 & Hw & [= <-])%bind_Ok)%bind_Ok)%bind_Ok)%bind_Ok)%bind_Ok)%bind_Ok)%bind_Ok.
  cbn [fst] in *. unfold I, Q. cbn [fst].
  destruct (ohlc r) as [[[[o h] l] c]|].
  - apply bind_Ok in Hw as (pred & _ & (pct & _ & Hw)%bind_Ok).
    pose proof (fun q => write_page_page_at q [r_slug; c_slug; _] _ _ _ _ _ _ Hw) as Hp.
    split_and!.
    + apply (agrees_page m [r_slug; c_slug; _] _ _ _ Hw Hx).
    + intros q Hq. by apply (Hp q), Hxk.
    + intros _. exists sym, description. split_and!; [done | done |].
      apply (Hp []).
    + intros r' Hr' Hne. destruct (Hr' Hne) as (s' & d' & ? & ? & Hpg).
      exists s', d'. split_and!; [done | done | by apply (Hp _)].
  - injection Hw as <-. split_and!; [done | done | done | done].
Qed.

Lemma read_csv_safe_agree (m x : fs) (csv : path) :
  agrees m x -> DATA_DIR `prefix_of` csv ->
  read_csv_safe x csv = read_csv_safe m csv.
Proof.
  intros Hag Hc. unfold read_csv_safe, read_text, lookup_path.
  destruct csv; [done|]. by rewrite Hag by (by apply data_not_dist).
Qed.

Lemma build_country_pages (date_obj : Datetime.date)
    (region_name r_slug : string) (m : fs) (csv : path)
    (st st' : fs * list (string * string)) :
  agrees m st.1 -> DATA_DIR `prefix_of` csv ->
  build_country date_obj region_name r_slug st csv = Ok st' ->
  let country_name := str_title (str_replace "-"%char " "%char (stem (name csv))) in
  agrees m st'.1 /\
  (forall q, page_at st.1 q -> page_at st'.1 q) /\
  page_at st'.1 (DIST ++ [r_slug; slug country_name; "index.html"]) /\
  exists df,
    read_csv_safe m csv = Ok df /\
    forall r, r ∈ iterrows df -> ohlc r <> None ->
      exists sym description,
        text_of r "symbol" = Ok sym /\ text_of r "description" = Ok description /\
        page_at st'.1 (DIST ++ [r_slug; slug country_name;
                                slug (str_or (str_or description sym) sym);
                                "index.html"]).
Proof.
  destruct st as [x links]. cbn [fst]. intros Hag Hc. unfold build_country.
  intros (df & Hdf & ([m1 rows_html] & Hrows & (m2 & Hw & [= <-])%bind_Ok)%bind_Ok)%bind_Ok.
  cbv zeta. cbn [fst].
  rewrite (read_csv_safe_agree m x csv Hag Hc) in Hdf.
  destruct (build_row_pages _ _ _ _ _ m _ (x, []) (m1, rows_html) Hag Hrows)
    as (Hag1 & Hall & Hk1). cbn [fst] in *.
  pose proof (fun q => write_page_page_at q [r_slug; _] _ _ _ _ _ _ Hw) as Hp.
  split_and!.
  - apply (agrees_page m [r_slug; _] _ _ _ Hw Hag1).
  - intros q Hq. by apply (Hp q), Hk1.
  - apply (Hp []).
  - exists df. split; [done|]. intros r Hr Hne.
    destruct (Hall r Hr Hne) as (sym & description & ? & ? & Hpg).
    exists sym, description. split_and!; [done | done | by apply (Hp _)].
Qed.

Lemma glob_csv_agree (m x : fs) (region : path) :
  agrees m x -> DATA_DIR `prefix_of` region ->
  glob_csv x region = glob_csv m region.
Proof.
  intros Hag Hr. unfold glob_csv, children.
  by rewrite (proj1 (listing_agree m x region Hag Hr)).
Qed.

Lemma glob_csv_in_data (m : fs) (region csv : path) :
  DATA_DIR `prefix_of` region -> csv ∈ glob_csv m region ->
  DATA_DIR `prefix_of` csv.
Proof.
  intros Hr [_ Hc]%elem_of_List_filter. unfold children in Hc.
  destruct (iterdir m region) as [ps|] eqn:Hit; [|by apply elem_of_nil in Hc].
  assert (Hd : is_dir m region = true).
  { unfold iterdir in Hit. unfold is_dir.
    by destruct (lookup_path m region) as [[|?]|]. }
  assert (Hc' : csv ∈ children m region) by (unfold children; by rewrite Hit).
  apply (elem_of_children m _ _ Hd) in Hc' as (Hne & Hpar & _).
  etrans; [done|]. by apply prefix_parent.
Qed.

Lemma build_region_pages (date_obj : Datetime.date) (m x y : fs) (region : path) :
  agrees m x -> DATA_DIR `prefix_of` region ->
  build_region date_obj x region = Ok y ->
  agrees m y /\
  (forall q, page_at x q -> page_at y q) /\
  page_at y (DIST ++ [slug (name region); "index.html"]) /\
  forall csv, csv ∈ glob_csv m region ->
    let country_name := str_title (str_replace "-"%char " "%char (stem (name csv))) in
    page_at y (DIST ++ [slug (name region); slug country_name; "index.html"]) /\
    exists df,
      read_csv_safe m csv = Ok df /\
      forall r, r ∈ iterrows df -> ohlc r <> None ->
        exists sym description,
          text_of r "symbol" = Ok sym /\ text_of r "description" = Ok description /\
          page_at y (DIST ++ [slug (name region); slug country_name;
                              slug (str_or (str_or description sym) sym);
                              "index.html"]).
Proof.
  intros Hag Hr. unfold build_region.
  intros ([m1 links] & Hcs & Hw)%bind_Ok.
  rewrite (glob_csv_agree m x region Hag Hr) in Hcs.
  pose (I := fun s : fs * list (string * string) =>
     agrees m s.1 /\ forall q, page_at x q -> page_at s.1 q).
  pose (Q := fun (csv : path) (s : fs * list (string * string)) =>
     let country_name := str_title (str_replace "-"%char " "%char (stem (name csv))) in
     page_at s.1 (DIST ++ [slug (name region); slug country_name; "index.html"]) /\
     exists df,
       read_csv_safe m csv = Ok df /\
       forall r, r ∈ iterrows df -> ohlc r <> None ->
         exists sym description,
           text_of r "symbol" = Ok sym /\ text_of r "description" = Ok description /\
           page_at s.1 (DIST ++ [slug (name region); slug country_name;
                                 slug (str_or (str_or description sym) sym);
                                 "index.html"])).
  assert (Hf : forall b a b', a ∈ sort_by_name (glob_csv m region) -> I b ->
            build_country date_obj (name region) (slug (name region)) b a = Ok b' ->
            I b' /\ Q a b' /\ forall c, Q c b -> Q c b').
  { intros b csv b' Hin [Hb Hbk] Hbc.
    apply (proj1 (elem_of_sort_by_name _ _)) in Hin.
    pose proof (glob_csv_in_data m region csv Hr Hin) as Hc.
    destruct (build_country_pages _ _ _ m csv b b' Hb Hc Hbc)
      as (Hb' & Hk & Hpg & df & Hdf & Hrows).
    split; [split; [done | intros q Hq; apply Hk, Hbk, Hq]|].
    split; [split; [done | by exists df]|].
    intros c [Hc1 (df' & Hdf' & Hrows')]. split; [by apply Hk|].
    exists df'. split; [done|]. intros r Hr' Hne.
    destruct (Hrows' r Hr' Hne) as (sym & description & ? & ? & ?).
    exists sym, description. split_and!; [done | done | by apply Hk]. }
  destruct (foldM_establish I Q _ _ Hf (x, []) (m1, links) ltac:(by split) Hcs)
    as ((Hag1 & Hk1) & Hall & _). cbn [fst] in *.
  pose proof (fun q => write_page_page_at q [slug (name region)] _ _ _ _ _ _ Hw) as Hp.
  split_and!.
  - apply (agrees_page m [_] _ _ _ Hw Hag1).
  - intros q Hq. by apply (Hp q), Hk1.
  - apply (Hp []).
  - intros csv Hin. destruct (Hall csv) as [Hc1 (df & Hdf & Hrows)].
    { by apply elem_of_sort_by_name. }
    cbv zeta. split; [by apply (Hp _)|].
    exists df. split; [done|]. intros r Hr' Hne.
    destruct (Hrows r Hr' Hne) as (sym & description & ? & ? & ?).
    exists sym, description. split_and!; [done | done | by apply (Hp _)].
Qed.

(** X26: every page the loops reach is there after the build.  Each
    sub-directory of the latest dated folder has its region page, each
    file of it that [*.csv] matches its country page, and each row of
    that file whose four values convert to floats its detail page, at the
    paths made of their slugs. *)
Theorem main_pages_complete (m m' : fs) :
  main m = Ok m' ->
  exists date_dir date_obj,
    find_latest_date_folder m = Ok (date_dir, date_obj) /\
    forall region, region ∈ children m date_dir -> is_dir m region = true ->
      page_at m' (DIST ++ [slug (name region); "index.html"]) /\
      forall csv, csv ∈ glob_csv m region ->
        let country_name :=
          str_title (str_replace "-"%char " "%char (stem (name csv))) in
        page_at m' (DIST ++ [slug (name region); slug country_name; "index.html"]) /\
        exists df,
          read_csv_safe m csv = Ok df /\
          forall r, r ∈ iterrows df -> ohlc r <> None ->
            exists sym description,
              text_of r "symbol" = Ok sym /\
              text_of r "description" = Ok description /\
              page_at m' (DIST ++ [slug (name region); slug country_name;
                                   slug (str_or (str_or description sym) sym);
                                   "index.html"]).
Proof.
  intros (date_dir & date_obj & m1 & m2 & m3 & m4 & Hf & H1 & H2 & H3 & H4 & H5)%main_steps.
  exists date_dir, date_obj. split; [done|].
  assert (Hag : agrees m m2).
  { intros k Hk. rewrite (copy_css_outside _ _ H2 k Hk).
    apply (reset_dist_outside _ _ H1 k Hk). }
  destruct (find_latest_in_data _ _ _ Hf) as (_ & Hne & Hpar & Hdir).
  assert (Hdata : DATA_DIR `prefix_of` date_dir) by (by apply prefix_parent).
  destruct (listing_agree m m2 date_dir Hag Hdata) as [Hit Hisd].
  unfold build_pages in H3.
  apply bind_Ok in H3 as (ps & Hps & (m21 & Hw & Hrs)%bind_Ok).
  rewrite Hit, (children_dir m date_dir Hdir) in Hps. injection Hps as <-.
  pose (Q := fun (region : path) (y : fs) =>
    page_at y (DIST ++ [slug (name region); "index.html"]) /\
    forall csv, csv ∈ glob_csv m region ->
      let country_name :=
        str_title (str_replace "-"%char " "%char (stem (name csv))) in
      page_at y (DIST ++ [slug (name region); slug country_name; "index.html"]) /\
      exists df,
        read_csv_safe m csv = Ok df /\
        forall r, r ∈ iterrows df -> ohlc r <> None ->
          exists sym description,
            text_of r "symbol" = Ok sym /\
            text_of r "description" = Ok description /\
            page_at y (DIST ++ [slug (name region); slug country_name;
                                slug (str_or (str_or description sym) sym);
                                "index.html"])).
  assert (Hkeep : forall (x y : fs), (forall q, page_at x q -> page_at y q) ->
            forall region, Q region x -> Q region y).
  { intros x y Hk region [Hq1 Hq2]. split; [by apply Hk|].
    intros csv Hc. destruct (Hq2 csv Hc) as [Hc1 (df & Hdf & Hrows)].
    cbv zeta. split; [by apply Hk|]. exists df. split; [done|].
    intros r Hr Hn. destruct (Hrows r Hr Hn) as (sym & description & ? & ? & ?).
    exists sym, description. split_and!; [done | done | by apply Hk]. }
  assert (Hstep : forall b a b',
            a ∈ sort_by_name (List.filter (is_dir m2) (children m date_dir)) ->
            agrees m b -> build_region date_obj b a = Ok b' ->
            agrees m b' /\ Q a b' /\ forall c, Q c b -> Q c b').
  { intros b region b' Hin Hb Hbr.
    apply (proj1 (elem_of_sort_by_name _ _)) in Hin.
    apply (proj1 (elem_of_List_filter _ _ _)) in Hin as [_ Hin].
    apply (elem_of_children m _ _ Hdir) in Hin as (Hr1 & Hr2 & _).
    assert (Hr : DATA_DIR `prefix_of` region).
    { etrans; [exact Hdata|]. by apply prefix_parent. }
    destruct (build_region_pages date_obj m b b' region Hb Hr Hbr)
      as (Hb' & Hk & Hpg & Hcs).
    split_and!; [done | by split | by apply Hkeep]. }
  destruct (foldM_establish (agrees m) Q _ _ Hstep m21 m3
              (agrees_page m [] _ _ _ Hw Hag) Hrs) as (_ & Hall & _).
  intros region Hin Hd.
  assert (Hq : Q region m3).
  { apply Hall, elem_of_sort_by_name, elem_of_List_filter. split; [|done].
    apply (elem_of_children m _ _ Hdir) in Hin as (Hr1 & Hr2 & _).
    by rewrite Hisd. }
  assert (Hk45 : forall q, name q = "index.html" -> page_at m3 q -> page_at m' q).
  { intros q Hn Hq3.
    assert (Hn4 : name (DIST ++ ["robots.txt"]) <> "index.html")
      by (vm_compute; discriminate).
    assert (Hn5 : name (DIST ++ ["sitemap.xml"]) <> "index.html")
      by (vm_compute; discriminate).
    apply (write_text_page_at _ q _ _ _ Hn5 Hn H5).
    by apply (write_text_page_at _ q _ _ _ Hn4 Hn H4). }
  destruct Hq as [Hq1 Hq2]. split.
  - apply Hk45; [apply (page_name [_]) | done].
  - intros csv Hc. destruct (Hq2 csv Hc) as [Hc1 (df & Hdf & Hrows)].
    cbv zeta. split; [apply Hk45; [apply (page_name [_; _]) | done]|].
    exists df. split; [done|]. intros r Hr Hn.
    destruct (Hrows r Hr Hn) as (sym & description & ? & ? & ?).
    exists sym, description. split_and!; [done | done |].
    apply Hk45; [apply (page_name [_; _; _]) | done].
Qed.


End MoreBuild.

Lemma main_home_page_witness :
  exists date_dir date_obj regions pages,
    find_latest_date_folder (E:=example_env) example_fs = Ok (date_dir, date_obj) /\
    NoDup regions /\
    (forall p, p ∈ regions <->
       p <> [] /\ parent p = date_dir /\ example_fs !! p = Some Dir) /\
    StronglySorted
      (fun a b => (str_lower (name a) ≤ str_lower (name b))%string) regions /\
    example_site !! (DIST ++ ["index.html"]) =
      Some (File
              (tpl_base (E:=example_env)
                 (get (cfg_site_title (CFG (Env:=example_env))) "" +:+ " — " +:+
                  get (cfg_site_tagline (CFG (Env:=example_env))) "")
                 "Daily static stock prediction pages built from your uploaded CSVs."
                 (str_join LF
                    (["<section class='card'><h2 class='h2'>Browse Regions</h2><ul>"] ++
                     map (fun r => "<li><a href='" +:+ BASE_URL (E:=example_env) +:+
                                   "/" +:+ slug (name r) +:+ "/index.html'>" +:+
                                   name r +:+ "</a></li>") regions ++
                     ["</ul></section>"]))
                 (BASE_URL (E:=example_env) +:+ "/"))) /\
    DIST ++ ["index.html"] ∈ pages /\
    sitemap_url (E:=example_env) (DIST ++ ["index.html"]) =
      BASE_URL (E:=example_env) +:+ "/" /\
    example_site !! (DIST ++ ["sitemap.xml"]) =
      Some (File
              ("<?xml version='1.0' encoding='UTF-8'?>" +:+
               "<urlset xmlns='http://www.sitemaps.org/schemas/sitemap/0.9'>" +:+
               fold_right
                 (fun p rest =>
                    ("<url><loc>" +:+ sitemap_url (E:=example_env) p +:+
                     "</loc></url>") +:+ rest)
                 "</urlset>" pages)).
Proof.
  apply (main_home_page (E:=example_env) example_fs example_site).
  exact example_site_built.
Defined.

Lemma main_stylesheet_witness :
  example_site !! (DIST ++ ["static"; "styles.css"]) =
  Some (File match example_fs !! ["static"; "styles.css"] with
             | Some (File text) => text
             | _ => fallback_css
             end).
Proof.
  apply (main_stylesheet (E:=example_env) example_fs example_site).
  exact example_site_built.
Defined.



Lemma main_pages_complete_witness :
  exists date_dir date_obj,
    find_latest_date_folder (E:=example_env) example_fs = Ok (date_dir, date_obj) /\
    forall region, region ∈ children example_fs date_dir ->
      is_dir example_fs region = true ->
      page_at (E:=example_env) example_site
        (DIST ++ [slug (name region); "index.html"]) /\
      forall csv, csv ∈ glob_csv example_fs region ->
        let country_name :=
          @str_title example_env
            (str_replace "-"%char " "%char (stem (name csv))) in
        page_at (E:=example_env) example_site
          (DIST ++ [slug (name region); slug country_name; "index.html"]) /\
        exists df,
          read_csv_safe (E:=example_env) example_fs csv = Ok df /\
          forall r, r ∈ iterrows df -> ohlc (E:=example_env) r <> None ->
            exists sym description,
              text_of (E:=example_env) r "symbol" = Ok sym /\
              text_of (E:=example_env) r "description" = Ok description /\
              page_at (E:=example_env) example_site
                (DIST ++ [slug (name region); slug country_name;
                          slug (str_or (str_or description sym) sym);
                          "index.html"]).
Proof.
  exact (main_pages_complete (E:=example_env) example_fs example_site
           example_site_built).
Defined.

Lemma main_idempotent_witness :
  main (E:=example_env) example_site = Ok example_site.
Proof.
  apply (main_idempotent (E:=example_env) example_fs example_site).
  - exact example_fs_tree.
  - exact example_site_built.
Defined.

Lemma main_writes_below_dist_witness :
  Forall (fun k => example_site !! k = example_fs !! k)
         [["Data"]; ["Data"; "notes.txt"];
          ["Data"; "15.03.2024"; "Asia"; "india.csv"]; ["static"; "styles.css"]].
Proof.
  apply Forall_forall. intros k Hk.
  apply (main_writes_below_dist (E:=example_env) example_fs example_site).
  - exact example_site_built.
  - repeat (apply elem_of_cons in Hk as [-> | Hk]);
      [intros [s Hs]; discriminate Hs.. | by apply elem_of_nil in Hk].
Defined.

(** ** The base URL *)

Lemma rstrip_split (P : ascii -> bool) (s : list ascii) :
  exists t, s = Str.rstrip P s ++ t /\ Forall (fun c => P c = true) t.
Proof.
  induction s as [|c r (t & Hr & Ht)]; [by exists []|].
  rewrite rstrip_cons. destruct (Str.rstrip P r) as [|c' r'] eqn:Er.
  - destruct (P c) eqn:Hc.
    + simpl in Hr. subst r. exists (c :: t). split; [done|]. by constructor.
    + simpl in Hr. subst r. by exists t.
  - exists t. split; [|done]. simpl. f_equal. exact Hr.
Qed.

Section BaseUrl.
Context {E : Env}.

(** X29: the base URL is the configured one without its trailing
    slashes: it does not end with a slash, and the configured URL is the
    base URL followed by slashes only. *)
Theorem BASE_URL_spec :
  (forall c, last (Str.of_string BASE_URL) = Some c -> c <> "/"%char) /\
  exists n : nat,
    get (cfg_base_url CFG) "" =
    BASE_URL +:+ Str.to_string (repeat "/"%char n).
Proof.
  unfold BASE_URL.
  set (P := fun c : ascii => (Str.code c =? 47)%N).
  set (s := Str.of_string (get (cfg_base_url CFG) "")).
  split.
  - rewrite of_to_string. intros c Hc.
    pose proof (rstrip_last P (Str.rstrip P s) (rstrip_idem P s) c Hc) as Hp.
    intros ->. by vm_compute in Hp.
  - destruct (rstrip_split P s) as (t & Hs & Ht).
    exists (length t). rewrite <- to_string_app.
    rewrite <- (to_of_string (get (cfg_base_url CFG) "")). fold s.
    rewrite Hs at 1. do 2 f_equal.
    clear Hs. induction Ht as [|c t Hc _ IH]; [done|]. simpl. f_equal; [|done].
    unfold P, Str.code in Hc. apply N.eqb_eq in Hc.
    rewrite <- (ascii_N_embedding c), Hc. reflexivity.
Qed.

End BaseUrl.

(** ** The detail pages of a country *)

Section DetailPages.
Context {E : Env}.

Lemma foldM_app {A B : Type} (f : B -> A -> result B) (b : B) (l1 l2 : list A) :
  foldM f b (l1 ++ l2) = foldM f b l1 ≫= fun b1 => foldM f b1 l2.
Proof.
  revert b. induction l1 as [|x l1 IH]; intros b; simpl; [done|].
  destruct (f b x) as [b1|e]; cbn [mbind result_bind]; [apply IH | done].
Qed.

(** What one pass of the loop writes for a row that has an OHLC. *)
Lemma build_row_page (date_obj : Datetime.date)
    (region_name r_slug country_name c_slug : string)
    (st st' : fs * list string) (r : row) (o h l c : Float.float)
    (sym description : string) :
  build_row date_obj region_name r_slug country_name c_slug st r = Ok st' ->
  ohlc r = Some (o, h, l, c) ->
  text_of r "symbol" = Ok sym -> text_of r "description" = Ok description ->
  exists exch sig conf reason pred pct,
    text_of r "exchange" = Ok exch /\
    classify o h l c = Ok (sig, conf, reason) /\
    next_business_day date_obj = Ok pred /\
    percent conf = Ok pct /\
    st'.1 !! (DIST ++ [r_slug; c_slug;
                       slug (str_or (str_or description sym) sym); "index.html"]) =
    Some (File (tpl_base
                  (str_or description sym +:+ " prediction tomorrow — " +:+ site_title)
                  (str_or description sym +:+ " (" +:+ sym +:+
                   ") next-day prediction and OHLC snapshot.")
                  (detail_body date_obj pred region_name country_name
                               (str_or description sym) sym exch sig reason
                               o h l c pct)
                  (stock_href r_slug c_slug
                              (slug (str_or (str_or description sym) sym)) +:+ "/"))).
Proof.
  destruct st as [m rows]. unfold build_row. intros H Hq Hsym Hdesc.
  rewrite Hq, Hsym, Hdesc in H. cbn [mbind result_bind] in H.
  apply bind_Ok in H as ([[sig conf] reason] & Hc & H).
  cbn [mbind result_bind] in H.
  apply bind_Ok in H as (exch & Hexch & H).
  apply bind_Ok in H as (sec & _ & H).
  apply bind_Ok in H as (ind & _ & H).
  apply bind_Ok in H as (m1 & Hw & [= <-]).
  apply bind_Ok in Hw as (pred & Hpred & Hw).
  apply bind_Ok in Hw as (pct & Hpct & Hw).
  exists exch, sig, conf, reason, pred, pct.
  split_and!; try done. simpl. by apply write_html_spec in Hw as [Hw _].
Qed.

(** A pass of the loop keeps the entry at a path it does not write to. *)
Lemma build_row_keeps (date_obj : Datetime.date)
    (region_name r_slug country_name c_slug : string)
    (st st' : fs * list string) (r : row) (s_slug : string) (x : entry) :
  build_row date_obj region_name r_slug country_name c_slug st r = Ok st' ->
  (forall sym description,
     ohlc r <> None -> text_of r "symbol" = Ok sym ->
     text_of r "description" = Ok description ->
     slug (str_or (str_or description sym) sym) <> s_slug) ->
  st.1 !! (DIST ++ [r_slug; c_slug; s_slug; "index.html"]) = Some x ->
  st'.1 !! (DIST ++ [r_slug; c_slug; s_slug; "index.html"]) = Some x.
Proof.
  destruct st as [m rows]. unfold build_row. intros H Hne Hx. simpl in Hx.
  apply bind_Ok in H as ([[sig conf] reason] & Hc & H).
  apply bind_Ok in H as (sym & Hsym & H).
  apply bind_Ok in H as (description & Hdesc & H).
  apply bind_Ok in H as (exch & _ & H).
  apply bind_Ok in H as (sec & _ & H).
  apply bind_Ok in H as (ind & _ & H).
  apply bind_Ok in H as (m1 & Hw & [= <-]). simpl.
  destruct (ohlc r) as [[[[o h] l] c]|] eqn:Hq; [|by injection Hw as <-].
  apply bind_Ok in Hw as (pred & _ & Hw).
  apply bind_Ok in Hw as (pct & _ & Hw).
  apply write_html_spec in Hw as [_ Hrest].
  apply Hrest; [|done].
  intros Heq. apply (Hne sym description); [done | done | done |].
  unfold DIST in Heq. cbn [app] in Heq. by injection Heq.
Qed.

Lemma build_rows_keep (date_obj : Datetime.date)
    (region_name r_slug country_name c_slug : string)
    (rows : list row) (s_slug : string) (x : entry) :
  (forall r sym description,
     r ∈ rows -> ohlc r <> None -> text_of r "symbol" = Ok sym ->
     text_of r "description" = Ok description ->
     slug (str_or (str_or description sym) sym) <> s_slug) ->
  forall st st' : fs * list string,
    foldM (build_row date_obj region_name r_slug country_name c_slug) st rows
      = Ok st' ->
    st.1 !! (DIST ++ [r_slug; c_slug; s_slug; "index.html"]) = Some x ->
    st'.1 !! (DIST ++ [r_slug; c_slug; s_slug; "index.html"]) = Some x.
Proof.
  induction rows as [|r rows IH]; intros Hne st st'; simpl.
  - by intros [= <-].
  - intros (st1 & H1 & H2)%bind_Ok Hx.
    apply (IH (fun r' sym d Hin => Hne r' sym d ltac:(by right)) st1 st' H2).
    apply (build_row_keeps _ _ _ _ _ _ _ _ _ _ H1); [|done].
    intros sym d. apply Hne. by left.
Qed.

(** X30: in the loop over the rows of a country, the detail page of a
    stock is made from the last row with its slug that has an OHLC: it
    shows the signal, the reason and the confidence [classify] gives for
    that row and the next business day of the session date; pages of
    earlier rows with the same slug are overwritten. *)
Theorem detail_page_last_row (date_obj : Datetime.date)
    (region_name r_slug country_name c_slug : string)
    (st st' : fs * list string) (pre post : list row) (r : row)
    (o h l c : Float.float) (sym description : string) :
  foldM (build_row date_obj region_name r_slug country_name c_slug) st
        (pre ++ r :: post) = Ok st' ->
  ohlc r = Some (o, h, l, c) ->
  text_of r "symbol" = Ok sym -> text_of r "description" = Ok description ->
  (forall r' sym' description',
     r' ∈ post -> ohlc r' <> None -> text_of r' "symbol" = Ok sym' ->
     text_of r' "description" = Ok description' ->
     slug (str_or (str_or description' sym') sym') <>
     slug (str_or (str_or description sym) sym)) ->
  exists exch sig conf reason pred pct,
    text_of r "exchange" = Ok exch /\
    classify o h l c = Ok (sig, conf, reason) /\
    next_business_day date_obj = Ok pred /\
    percent conf = Ok pct /\
    st'.1 !! (DIST ++ [r_slug; c_slug;
                       slug (str_or (str_or description sym) sym); "index.html"]) =
    Some (File (tpl_base
                  (str_or description sym +:+ " prediction tomorrow — " +:+ site_title)
                  (str_or description sym +:+ " (" +:+ sym +:+
                   ") next-day prediction and OHLC snapshot.")
                  (detail_body date_obj pred region_name country_name
                               (str_or description sym) sym exch sig reason
                               o h l c pct)
                  (stock_href r_slug c_slug
                              (slug (str_or (str_or description sym) sym)) +:+ "/"))).
Proof.
  intros H Hq Hsym Hdesc Hne. rewrite foldM_app in H.
  apply bind_Ok in H as (st1 & _ & H). simpl in H.
  apply bind_Ok in H as (st2 & Hr & Hpost).
  destruct (build_row_page _ _ _ _ _ _ _ _ _ _ _ _ _ _ Hr Hq Hsym Hdesc)
    as (exch & sig & conf & reason & pred & pct & H1 & H2 & H3 & H4 & H5).
  exists exch, sig, conf, reason, pred, pct. split_and!; try done.
  by apply (build_rows_keep _ _ _ _ _ post _ _ Hne st2 st' Hpost).
Qed.

End DetailPages.

Lemma example_same_name_rows_built :
  foldM (build_row (E:=example_env) (Datetime.mkdate 2024 3 15)
           "Asia" "asia" "India" "india")
        (example_fs, []) example_same_name_rows
  = Ok example_same_name_built.
Proof.
  unfold example_same_name_built.
  assert (H : match foldM (build_row (E:=example_env) (Datetime.mkdate 2024 3 15)
                             "Asia" "asia" "India" "india")
                          (example_fs, []) example_same_name_rows with
              | Ok _ => true
              | Raise _ => false
              end = true) by (vm_compute; reflexivity).
  destruct (foldM _ _ _) as [?|]; [done | discriminate H].
Qed.

Lemma detail_page_last_row_witness :
  exists exch sig conf reason pred pct,
    text_of (E:=example_env)
      [("symbol", CStr "A2"); ("description", CStr "Acme");
       ("exchange", CStr "NSE"); ("sector", CStr ""); ("industry", CStr "");
       ("open", CFloat (Float.of_Z 10)); ("high", CFloat (Float.of_Z 12));
       ("low", CFloat (Float.of_Z 8)); ("close", CFloat (Float.of_Z 9))]
      "exchange" = Ok exch /\
    classify (Float.of_Z 10) (Float.of_Z 12) (Float.of_Z 8) (Float.of_Z 9)
      = Ok (sig, conf, reason) /\
    next_business_day (Datetime.mkdate 2024 3 15) = Ok pred /\
    percent conf = Ok pct /\
    example_same_name_built.1 !!
      (DIST ++ ["asia"; "india"; slug (str_or (str_or "Acme" "A2") "A2");
                "index.html"]) =
    Some (File (tpl_base (E:=example_env)
                  (str_or "Acme" "A2" +:+ " prediction tomorrow — " +:+
                   site_title (E:=example_env))
                  (str_or "Acme" "A2" +:+ " (" +:+ "A2" +:+
                   ") next-day prediction and OHLC snapshot.")
                  (detail_body (E:=example_env) (Datetime.mkdate 2024 3 15) pred
                               "Asia" "India" (str_or "Acme" "A2") "A2" exch sig
                               reason (Float.of_Z 10) (Float.of_Z 12)
                               (Float.of_Z 8) (Float.of_Z 9) pct)
                  (stock_href (E:=example_env) "asia" "india"
                              (slug (str_or (str_or "Acme" "A2") "A2")) +:+ "/"))).
Proof.
  apply (detail_page_last_row (E:=example_env) (Datetime.mkdate 2024 3 15)
           "Asia" "asia" "India" "india" (example_fs, []) example_same_name_built
           [[("symbol", CStr "A1"); ("description", CStr "Acme");
             ("exchange", CStr "NSE"); ("sector", CStr ""); ("industry", CStr "");
             ("open", CFloat (Float.of_Z 10)); ("high", CFloat (Float.of_Z 12));
             ("low", CFloat (Float.of_Z 8)); ("close", CFloat (Float.of_Z 11))]]
           []).
  - exact example_same_name_rows_built.
  - vm_compute. reflexivity.
  - vm_compute. reflexivity.
  - vm_compute. reflexivity.
  - intros r' sym' description' Hin. by apply elem_of_nil in Hin.
Defined.
